(** * gpt-image-1-mcp: option normalisation, request building and response
      reconciliation

    A shallow embedding of the TypeScript sources of the GPT-Image-1
    server

      - [src/utils/params.ts]        ([normalizeSize], [resolveSaveDir]),
      - [src/services/dalle-service.ts] (class [DalleService]: the methods
        [generateImage], [editImage], [imageToImage], [editMultipleImages]
        and [validateApiKey]),
      - [src/tools/index.ts]         (the handlers of the tools
        [generate_image], [edit_image] with its mask built from shapes,
        [image_to_image], [multi_image_edit] and [validate_api_key]),
      - [src/index.ts]               (the handler of tool calls),

    together with the properties the specification states about them
    (C1 to C10) and further properties read off the code (X1 to X29).

    Conventions of the embedding.

      - A JavaScript number is an IEEE 754 binary64 value: Rocq's primitive
        [float], whose operations are the machine operations.
      - A JavaScript string is a [string]: a sequence of 8-bit code units.
        The code below only ever inspects ASCII characters.
      - A value of type [any] (a parsed JSON body, a tool argument) is a
        [JSValue].
      - [async] functions are run to completion one after the other: an
        [await] is a sequential step of the monad [M], which threads the
        state of the outside world and propagates exceptions.
      - The Node.js runtime, the file system, the network and the [sharp]
        library are collaborators: their operations are the fields of the
        class [Runtime]; nothing is assumed about them. *)

From Stdlib Require Import Bool List ZArith Lia Ascii String Floats
  DecimalString DecimalNat FinFun.
Import ListNotations.

Set Implicit Arguments.
Set Default Proof Using "Type".
Set Warnings "-register-all".

Open Scope list_scope.
Open Scope string_scope.

(* ================================================================== *)
(** ** JavaScript numbers *)

Module Num.

Definition NaN : float := PrimFloat.nan.

(** [Number.MAX_VALUE], the largest finite binary64 value. *)
Definition MAX_VALUE : float := 0x1.fffffffffffffp+1023%float.

(** The Number value of a mathematical integer: rounding to nearest, ties
    to even, overflowing to an infinity. *)
Definition ofZ (z : Z) : float :=
  SF2Prim (binary_normalize prec emax z 0%Z false).

Definition ofNat (n : nat) : float := ofZ (Z.of_nat n).

(** [Math.abs], [Math.min]. *)
Definition abs (x : float) : float := PrimFloat.abs x.

Definition isNaN (x : float) : bool := negb (PrimFloat.eqb x x).

Definition min (x y : float) : float :=
  if isNaN x || isNaN y then NaN
  else if PrimFloat.ltb x y then x
  else if PrimFloat.ltb y x then y
  else (* equal: -0 is the smaller zero *)
    if PrimFloat.ltb (1 / x) (1 / y) then x else y.

(** ToBoolean on a number: false on +0, -0 and NaN. *)
Definition truthy (x : float) : bool :=
  negb (PrimFloat.eqb x 0%float) && negb (isNaN x).

End Num.

(* ================================================================== *)
(** ** Strings *)

Module Str.

Definition isDigit (c : ascii) : bool :=
  (Ascii.leb "0" c && Ascii.leb c "9")%char.

Definition digitVal (c : ascii) : Z := Z.of_N (N_of_ascii c) - 48.

(** ASCII white space (ECMAScript WhiteSpace and LineTerminator below
    U+0080). *)
Definition isSpace (c : ascii) : bool :=
  let n := N_of_ascii c in
  (N.eqb n 9 || N.eqb n 10 || N.eqb n 11 || N.eqb n 12 || N.eqb n 13
   || N.eqb n 32)%N.

Fixpoint trimStart (s : string) : string :=
  match s with
  | String c r => if isSpace c then trimStart r else s
  | EmptyString => s
  end.

(** The longest prefix of decimal digits and what follows it. *)
Fixpoint spanDigits (s : string) : string * string :=
  match s with
  | String c r =>
      if isDigit c then let (d, t) := spanDigits r in (String c d, t)
      else (EmptyString, s)
  | EmptyString => (EmptyString, EmptyString)
  end.

Fixpoint digitsValue (acc : Z) (s : string) : Z :=
  match s with
  | String c r => digitsValue (10 * acc + digitVal c) r
  | EmptyString => acc
  end.

(** [parseInt(s, 10)]: leading white space, an optional sign, then the
    longest run of decimal digits; [NaN] when there is no digit. *)
Definition parseInt (s : string) : float :=
  let t := trimStart s in
  let (neg, body) :=
    match t with
    | String "-" r => (true, r)
    | String "+" r => (false, r)
    | _ => (false, t)
    end in
  match fst (spanDigits body) with
  | EmptyString => Num.NaN
  | ds => let v := Num.ofZ (digitsValue 0 ds) in
          if neg then PrimFloat.opp v else v
  end.

(** [s.split(sep)] for a one-character separator. *)
Fixpoint split (sep : ascii) (s : string) : list string :=
  match s with
  | EmptyString => [EmptyString]
  | String c r =>
      if Ascii.eqb c sep then EmptyString :: split sep r
      else match split sep r with
           | p :: ps => String c p :: ps
           | [] => [String c EmptyString]
           end
  end.

(** The decimal numeral of a natural number, as [String(i)] prints a loop
    index. *)
Definition ofNat (n : nat) : string :=
  NilZero.string_of_uint (Nat.to_uint n).

End Str.

(* ================================================================== *)
(** ** src/utils/params.ts: [normalizeSize] *)

Module Params.

Definition SUPPORTED_SIZES : list string :=
  ["1024x1024"; "1024x1536"; "1536x1024"].

(** *** The regular expression [/(\d+)x(\d+)/i]

    [String.prototype.match] looks for the leftmost position at which the
    pattern matches.  At a given position [(\d+)] takes the longest run of
    digits; giving digits back can never help, because the character that
    would have to be the separator is then a digit.  The separator is "x"
    or, because of the [i] flag, "X".  The second group is greedy and
    nothing follows it. The result is the pair of captured groups. *)

Definition isSep (c : ascii) : bool :=
  (Ascii.eqb c "x" || Ascii.eqb c "X")%char.

Definition matchHere (s : string) : option (string * string) :=
  match Str.spanDigits s with
  | (EmptyString, _) => None
  | (w, String c r) =>
      if isSep c then
        match Str.spanDigits r with
        | (EmptyString, _) => None
        | (h, _) => Some (w, h)
        end
      else None
  | (_, EmptyString) => None
  end.

Fixpoint matchDims (s : string) : option (string * string) :=
  match matchHere s with
  | Some m => Some m
  | None =>
      match s with
      | String _ r => matchDims r
      | EmptyString => None
      end
  end.

(** *** The scoring loop *)

(** [const [supportedWidth, supportedHeight] =
      supportedSize.split('x').map(s => parseInt(s, 10))]; a missing
    component is [undefined], which arithmetic turns into [NaN]. *)
Definition dimsOf (supportedSize : string) : float * float :=
  let parts := map Str.parseInt (Str.split "x" supportedSize) in
  (nth 0 parts Num.NaN, nth 1 parts Num.NaN).

Definition combinedScore (requestedWidth requestedHeight : float)
    (supportedSize : string) : float :=
  let (supportedWidth, supportedHeight) := dimsOf supportedSize in
  let areaDifference :=
    Num.abs (requestedWidth * requestedHeight
             - supportedWidth * supportedHeight) in
  let requestedRatio := (requestedWidth / requestedHeight)%float in
  let supportedRatio := (supportedWidth / supportedHeight)%float in
  let ratioDifference := Num.abs (requestedRatio - supportedRatio) in
  (ratioDifference * 1000 + areaDifference)%float.

(** The body of [for (const supportedSize of SUPPORTED_SIZES)], on the
    pair [(closestSize, minDifference)]. *)
Definition step (requestedWidth requestedHeight : float)
    (st : string * float) (supportedSize : string) : string * float :=
  let combined := combinedScore requestedWidth requestedHeight supportedSize in
  if PrimFloat.ltb combined (snd st) then (supportedSize, combined) else st.

Definition closest (requestedWidth requestedHeight : float)
    (sizes : list string) (init : string * float) : string * float :=
  fold_left (step requestedWidth requestedHeight) sizes init.

(** [normalizeSize(size?: string): string].  An absent argument is
    [None]; [!size] also holds of the empty string. *)
Definition normalizeSize (size : option string) : string :=
  match size with
  | None => "auto"
  | Some size =>
      if (size =? "") || (size =? "auto") then "auto"
      else if existsb (String.eqb size) SUPPORTED_SIZES then size
      else
        match matchDims size with
        | None => "auto"
        | Some (g1, g2) =>
            let requestedWidth := Str.parseInt g1 in
            let requestedHeight := Str.parseInt g2 in
            fst (closest requestedWidth requestedHeight SUPPORTED_SIZES
                   (hd "" SUPPORTED_SIZES, Num.MAX_VALUE))
        end
  end.

End Params.


(* ================================================================== *)
(** ** Values of type [any] *)

Module JS.

Inductive JSValue : Type :=
| JUndefined
| JNull
| JBool (b : bool)
| JNum (x : float)
| JStr (s : string)
| JArr (items : list JSValue)
| JObj (props : list (string * JSValue)).

(** What a [throw] carries.  Every exception of this program is an
    instance of [Error]; the three kinds differ in where the message
    comes from. *)
Inductive Exn : Type :=
| Error (message : string)
    (** [new Error(message)], or an error of a library with that message *)
| TypeError (operation : string)
    (** raised by the engine or by Node on the named operation *)
| AxiosError (message : string) (responseData : JSValue).
    (** a failed HTTP exchange; [responseData] is [error.response?.data] *)

Inductive Outcome (A : Type) : Type :=
| Ok (a : A)
| Throw (e : Exn).
Arguments Ok {A} a.
Arguments Throw {A} e.

(** ToBoolean. *)
Definition truthy (v : JSValue) : bool :=
  match v with
  | JUndefined | JNull => false
  | JBool b => b
  | JNum x => Num.truthy x
  | JStr s => negb (s =? "")
  | JArr _ | JObj _ => true
  end.

Definition nullish (v : JSValue) : bool :=
  match v with
  | JUndefined | JNull => true
  | _ => false
  end.

Definition isNumber (v : JSValue) : bool :=
  match v with
  | JNum _ => true
  | _ => false
  end.

(** The properties of an object are listed by name, each name once. *)
Fixpoint lookup (k : string) (props : list (string * JSValue))
    : option JSValue :=
  match props with
  | [] => None
  | (k', v) :: rest => if k' =? k then Some v else lookup k rest
  end.

Fixpoint chars (s : string) : list JSValue :=
  match s with
  | EmptyString => []
  | String c r => JStr (String c EmptyString) :: chars r
  end.

(** [v.k] on a value that is neither [null] nor [undefined], for a
    property name [k] that no prototype defines except [length]. *)
Definition member (v : JSValue) (k : string) : JSValue :=
  match v with
  | JObj props =>
      match lookup k props with
      | Some x => x
      | None => JUndefined
      end
  | JArr items =>
      if k =? "length" then JNum (Num.ofNat (List.length items))
      else JUndefined
  | JStr s =>
      if k =? "length" then JNum (Num.ofNat (String.length s))
      else JUndefined
  | _ => JUndefined
  end.

(** [v.k]: a [TypeError] on [null] and [undefined]. *)
Definition getProp (v : JSValue) (k : string) : Outcome JSValue :=
  if nullish v then Throw (TypeError ("read " ++ k))
  else Ok (member v k).

(** [a?.k] *)
Definition optProp (v : JSValue) (k : string) : JSValue :=
  if nullish v then JUndefined else member v k.

End JS.

Export JS.

Definition bytes := list Byte.byte.

(* ================================================================== *)
(** ** The outside world *)

(** A request issued through axios. *)
Inductive FormValue : Type :=
| FText (value : string)
| FFile (content : bytes) (filename contentType : string).

Inductive Body : Type :=
| JsonBody (params : list (string * JSValue))
| FormBody (fields : list (string * FormValue)).

Record Request : Type := mkRequest {
  req_url : string;
  req_body : Body;
  req_contentType : string;
  req_authorization : string
}.

(** The collaborators.  [FS] is the state of the file system; an operation
    on it returns its outcome and the state it leaves. *)
Class Runtime : Type := {
  FS : Type;
  (* process, Date, os *)
  cwd : string;                         (* process.cwd() *)
  env_OPENAI_API_KEY : option string;   (* process.env.OPENAI_API_KEY *)
  dateNow : nat -> float;               (* the k-th reading of Date.now() *)
  tmpdir : string;                      (* os.tmpdir() *)
  (* path *)
  isAbsolute : string -> bool;
  resolve : string -> string -> string;
  join : string -> string -> string;
  basename : string -> string;
  (* fs-extra, fs/promises *)
  ensureDir : string -> FS -> Outcome unit * FS;
  access_W_OK : string -> FS -> Outcome unit;
  pathExists : string -> FS -> bool;
  readFile : string -> FS -> Outcome bytes;
  writeFile : string -> bytes -> FS -> Outcome unit * FS;
  unlink : string -> FS -> Outcome unit * FS;
  (* axios *)
  axiosPost : Request -> Outcome JSValue;   (* response.data *)
  axiosGet : JSValue -> Outcome bytes;      (* responseType 'arraybuffer' *)
  (* Buffer *)
  base64Decode : string -> bytes;           (* Buffer.from(s, 'base64') *)
  bufferFromObject : JSValue -> Outcome bytes;
  (* conversions of the language *)
  numToString : float -> string;            (* Number::toString *)
  toStringJS : JSValue -> string;           (* ToString, in a template *)
  toNumberJS : JSValue -> float;            (* ToNumber of a string or object *)
  jsonStringify : JSValue -> string;        (* JSON.stringify(v, null, 2) *)
  typeErrorMessage : string -> string;
  (* sharp *)
  sharpMetadata : string -> FS -> Outcome (option float * option float);
  sharpSvgToPngFile : string -> string -> FS -> Outcome unit * FS
}.

(** The state a call runs in: the file system, the requests posted to the
    provider so far, the URLs fetched so far, and how many times the clock
    was read. *)
Record World `{Runtime} : Type := mkWorld {
  w_fs : FS;
  w_posted : list Request;
  w_fetched : list JSValue;
  w_clock : nat
}.
Arguments mkWorld {_} _ _ _ _.

Section Monad.
Context `{RT : Runtime}.

Definition M (A : Type) : Type := World -> Outcome A * World.

Definition ret {A} (a : A) : M A := fun w => (Ok a, w).

Definition throw {A} (e : Exn) : M A := fun w => (Throw e, w).

Definition bind {A B} (m : M A) (k : A -> M B) : M B :=
  fun w =>
    match m w with
    | (Ok a, w') => k a w'
    | (Throw e, w') => (Throw e, w')
    end.

(** [try { m } catch (e) { ... }], as a value. *)
Definition attempt {A} (m : M A) : M (A + Exn) :=
  fun w =>
    match m w with
    | (Ok a, w') => (Ok (inl a), w')
    | (Throw e, w') => (Ok (inr e), w')
    end.

(** [try { m } finally { f }] where [f] does not throw. *)
Definition finally {A} (m : M A) (f : M unit) : M A :=
  fun w =>
    match m w with
    | (r, w') => (r, snd (f w'))
    end.

Definition lift {A} (o : Outcome A) : M A := fun w => (o, w).

Definition onFS {A} (op : FS -> Outcome A * FS) : M A :=
  fun w =>
    let (r, fs') := op (w_fs w) in
    (r, mkWorld fs' (w_posted w) (w_fetched w) (w_clock w)).

Definition readFS {A} (op : FS -> A) : M A :=
  fun w => (Ok (op (w_fs w)), w).

Definition tryFS {A} (op : FS -> Outcome A) : M A :=
  fun w => (op (w_fs w), w).

(** [Date.now()] *)
Definition now : M float :=
  fun w => (Ok (dateNow (w_clock w)),
            mkWorld (w_fs w) (w_posted w) (w_fetched w) (S (w_clock w))).

(** [axios.post(url, body, {headers})]: the request goes out, then the
    provider answers or the call throws. *)
Definition post (r : Request) : M JSValue :=
  fun w => (axiosPost r,
            mkWorld (w_fs w) (w_posted w ++ [r])%list (w_fetched w) (w_clock w)).

(** [Buffer.from((await axios.get(url, ...)).data)] *)
Definition fetch (url : JSValue) : M bytes :=
  fun w => (axiosGet url,
            mkWorld (w_fs w) (w_posted w) (w_fetched w ++ [url])%list (w_clock w)).

(** [Buffer.from(v, 'base64')]: decoding of a string never throws;
    [undefined], [null], booleans and numbers are rejected. *)
Definition bufferFrom (v : JSValue) : Outcome bytes :=
  match v with
  | JStr s => Ok (base64Decode s)
  | JArr _ | JObj _ => bufferFromObject v
  | _ => Throw (TypeError "Buffer.from")
  end.

(** ToNumber, as the comparison [i < v] applies it. *)
Definition toNumber (v : JSValue) : float :=
  match v with
  | JUndefined => Num.NaN
  | JNull => 0%float
  | JBool b => if b then 1%float else 0%float
  | JNum x => x
  | _ => toNumberJS v
  end.

(** [error.message] *)
Definition messageOf (e : Exn) : string :=
  match e with
  | Error m => m
  | TypeError op => typeErrorMessage op
  | AxiosError m _ => m
  end.

End Monad.

Declare Scope monad_scope.
Delimit Scope monad_scope with monad.
Notation "x <- m ;; k" := (bind m (fun x => k))
  (at level 61, m at next level, right associativity) : monad_scope.
Notation "m ;;; k" := (bind m (fun _ => k))
  (at level 61, right associativity) : monad_scope.
Open Scope monad_scope.

(* ================================================================== *)
(** ** src/utils/params.ts: [resolveSaveDir] *)

Section ResolveSaveDir.
Context `{RT : Runtime}.

(** The [let resolvedPath] of the function: the current directory for an
    absent (or empty) argument, an absolute argument as it is, a relative
    one resolved against the current directory. *)
Definition resolvedPathOf (saveDir : option string) : string :=
  let baseDir := cwd in
  match saveDir with
  | None => baseDir
  | Some d =>
      if d =? "" then baseDir
      else if isAbsolute d then d
      else resolve baseDir d
  end.

Definition resolveSaveDir (saveDir : option string) : M string :=
  let baseDir := cwd in
  let resolvedPath := resolvedPathOf saveDir in
  created <- attempt (onFS (ensureDir resolvedPath)) ;;
  match created with
  | inr _ => ret baseDir
  | inl _ =>
      writable <- attempt (tryFS (access_W_OK resolvedPath)) ;;
      match writable with
      | inr _ => ret baseDir
      | inl _ => ret resolvedPath
      end
  end.

End ResolveSaveDir.

(* ================================================================== *)
(** ** src/services/dalle-service.ts: class [DalleService] *)

Record Options : Type := mkOptions {
  o_mask : option string;
  o_model : option string;
  o_size : option string;
  o_quality : option string;
  o_background : option string;
  o_moderation : option string;
  o_output_format : option string;
  o_output_compression : option float;
  o_n : option float;
  o_saveDirPath : option string;
  o_fileName : option string
}.

(** [options = {}] *)
Definition noOptions : Options :=
  mkOptions None None None None None None None None None None None.

Record Usage : Type := mkUsage {
  total_tokens : JSValue;
  input_tokens : JSValue;
  output_tokens : JSValue;
  input_tokens_details : JSValue
}.

Record ImageGenerationResult : Type := mkResult {
  success : bool;
  error : option string;
  imagePaths : option (list string);
  model : option string;
  prompt : option string;
  usage : option Usage
}.

Record DalleService : Type := mkService {
  apiKey : string
}.

Definition baseUrl : string := "https://api.openai.com/v1".

(** [{ success: false, error }] *)
Definition failure (message : string) : ImageGenerationResult :=
  mkResult false (Some message) None None None None.

(** [s || d] on an optional string, [x || d] on an optional number. *)
Definition orStr (s : option string) (d : string) : string :=
  match s with
  | Some s => if s =? "" then d else s
  | None => d
  end.

Definition orNum (x : option float) (d : float) : float :=
  match x with
  | Some x => if Num.truthy x then x else d
  | None => d
  end.

(** [s && list.includes(s)] *)
Definition oneOf (s : option string) (allowed : list string) : bool :=
  match s with
  | Some s => negb (s =? "") && existsb (String.eqb s) allowed
  | None => false
  end.

Section Service.
Context `{RT : Runtime}.

(** [new DalleService({ apiKey })] *)
Definition newDalleService (configApiKey : string) : DalleService :=
  mkService (orStr (Some configApiKey) (orStr env_OPENAI_API_KEY "")).

(** The file an item is saved to:
    [path.join(saveDir, `${fileName}${n > 1 ? `-${i + 1}` : ''}.${ext}`)],
    made absolute. *)
Definition imageFilePath (saveDir fileName : string) (n : float) (i : nat)
    (ext : string) : string :=
  let imagePath :=
    join saveDir
      (fileName ++ (if PrimFloat.ltb 1 n then "-" ++ Str.ofNat (i + 1) else "")
         ++ "." ++ ext) in
  if isAbsolute imagePath then imagePath else resolve cwd imagePath.

(** [options.fileName || `${prefix}${Date.now()}`] *)
Definition fileNameOr (fileName : option string) (prefix : string) : M string :=
  match fileName with
  | Some f => if f =? "" then t <- now ;; ret (prefix ++ numToString t) else ret f
  | None => t <- now ;; ret (prefix ++ numToString t)
  end.

(** The check every method makes on the resolved directory; [inr] is the
    error it caught. *)
Definition ensureWriteable (saveDir : string) : M (unit + Exn) :=
  attempt (onFS (ensureDir saveDir) ;;; tryFS (access_W_OK saveDir)).

Definition notWriteable (saveDir : string) (err : Exn) : ImageGenerationResult :=
  failure ("Save directory (" ++ saveDir
           ++ ") is not writeable or could not be created: " ++ messageOf err).

(** The message the outer [catch] builds. *)
Definition apiErrorMessage (e : Exn) : string :=
  match e with
  | AxiosError m responseData =>
      let apiError := optProp responseData "error" in
      if truthy apiError
      then "GPT-Image API Error: " ++ toStringJS (member apiError "message")
      else m
  | _ => messageOf e
  end.

(** [data.usage ? {...} : undefined], for a [data] that is not nullish. *)
Definition usageOf (data : JSValue) : option Usage :=
  let u := member data "usage" in
  if truthy u
  then Some (mkUsage (member u "total_tokens") (member u "input_tokens")
               (member u "output_tokens") (member u "input_tokens_details"))
  else None.

(** [for (let i = 0; i < items.length; i++)] over an array: [body] saves
    item [i] and returns its path, which is pushed on [imagePaths]. *)
Fixpoint saveEach (body : nat -> JSValue -> M string) (i : nat)
    (items : list JSValue) (imagePaths : list string) : M (list string) :=
  match items with
  | [] => ret imagePaths
  | item :: rest =>
      p <- body i item ;;
      saveEach body (S i) rest (imagePaths ++ [p])%list
  end.

(** *** [generateImage] *)

Definition generateParams (prompt : string) (options : Options)
    : list (string * JSValue) :=
  let n := orNum (o_n options) 1 in
  let output_format := orStr (o_output_format options) "png" in
  ([("model", JStr "gpt-image-1"); ("prompt", JStr prompt); ("n", JNum n);
   ("size", JStr (Params.normalizeSize (o_size options)))]
  ++ (if oneOf (o_quality options) ["auto"; "high"; "medium"; "low"]
      then [("quality", JStr (orStr (o_quality options) ""))] else [])
  ++ (if oneOf (o_background options) ["auto"; "transparent"; "opaque"]
      then [("background", JStr (orStr (o_background options) ""))] else [])
  ++ (if oneOf (o_moderation options) ["auto"; "low"]
      then [("moderation", JStr (orStr (o_moderation options) ""))] else [])
  ++ (if oneOf (o_output_format options) ["png"; "jpeg"; "webp"]
      then [("output_format", JStr (orStr (o_output_format options) ""))]
      else [])
  ++ (match o_output_compression options with
      | Some c =>
          if ((output_format =? "webp") || (output_format =? "jpeg"))
             && PrimFloat.leb 0 c && PrimFloat.leb c 100
          then [("output_compression", JNum c)] else []
      | None => []
      end))%list.

(** One turn of the loop of [generateImage]. *)
Definition generateItem (saveDir fileName : string) (n : float)
    (output_format : string) (i : nat) (item : JSValue) : M string :=
  url <- lift (getProp item "url") ;;
  if truthy url then
    buffer <- fetch url ;;
    let imagePath := imageFilePath saveDir fileName n i output_format in
    onFS (writeFile imagePath buffer) ;;;
    ret imagePath
  else
    base64Data <-
      (if truthy (member item "b64_json") then ret (member item "b64_json")
       else if truthy (member item "image") then ret (member item "image")
       else if truthy (member item "url") then
         throw (Error "API returned URL instead of base64 data. Update code to handle URL responses.")
       else
         throw (Error "Image data not found in expected formats in API response")) ;;
    if negb (truthy base64Data) then throw (Error "Base64 image data is empty")
    else
      match base64Data with
      | JStr _ =>
          imageBuffer <- lift (bufferFrom base64Data) ;;
          let imagePath := imageFilePath saveDir fileName n i output_format in
          onFS (writeFile imagePath imageBuffer) ;;;
          ret imagePath
      | _ =>
          (* the debug line [base64Data.substring(0, 50)] *)
          throw (TypeError "base64Data.substring")
      end.

(** What follows [const data = response.data]. *)
Definition generateReconcile (prompt saveDir fileName : string) (n : float)
    (output_format : string) (data : JSValue) : M ImageGenerationResult :=
  (* the debug line [Object.keys(data)] *)
  (if nullish data then throw (TypeError "Object.keys") else ret tt) ;;;
  let items := member data "data" in
  match items with
  | JArr (item :: rest) =>
      imagePaths <- saveEach (generateItem saveDir fileName n output_format)
                      0 (item :: rest) [] ;;
      ret (mkResult true None (Some imagePaths) (Some "gpt-image-1")
             (Some prompt) (usageOf data))
  | _ =>
      throw (Error "Unexpected API response structure. Missing or empty data array.")
  end.

Definition generateImage (this : DalleService) (prompt : string)
    (options : Options) : M ImageGenerationResult :=
  let debugSuffix (debugData : JSValue) :=
    String (ascii_of_nat 10) "DEBUG_RESPONSE_DATA: " ++ jsonStringify debugData in
  let n := orNum (o_n options) 1 in
  let output_format := orStr (o_output_format options) "png" in
  (* up to [debugData = response.data] *)
  sent <- attempt (
    saveDir <- resolveSaveDir (o_saveDirPath options) ;;
    fileName <- fileNameOr (o_fileName options) "gpt-image-" ;;
    checked <- ensureWriteable saveDir ;;
    match checked with
    | inr err => ret (inl (notWriteable saveDir err))
    | inl _ =>
        data <- post (mkRequest (baseUrl ++ "/images/generations")
                        (JsonBody (generateParams prompt options))
                        "application/json" ("Bearer " ++ apiKey this)) ;;
        ret (inr (saveDir, fileName, data))
    end) ;;
  match sent with
  | inr e => ret (failure (apiErrorMessage e ++ debugSuffix JNull))
  | inl (inl early) => ret early
  | inl (inr (saveDir, fileName, data)) =>
      done <- attempt (generateReconcile prompt saveDir fileName n
                         output_format data) ;;
      match done with
      | inl result => ret result
      | inr e => ret (failure (apiErrorMessage e ++ debugSuffix data))
      end
  end.

(** *** The multipart form of the three edit methods *)

(** The text fields, in the order they are appended. *)
Definition editFields (prompt model : string) (options : Options)
    : list (string * FormValue) :=
  let size := Params.normalizeSize (o_size options) in
  let quality := orStr (o_quality options) "auto" in
  let background := orStr (o_background options) "auto" in
  let moderation := orStr (o_moderation options) "auto" in
  let output_format := orStr (o_output_format options) "png" in
  let output_compression := orNum (o_output_compression options) 100 in
  let n := orNum (o_n options) 1 in
  ([("prompt", FText prompt); ("model", FText model);
    ("n", FText (numToString n)); ("size", FText size)]
   ++ (if negb (quality =? "") then [("quality", FText quality)] else [])
   ++ (if negb (background =? "") then [("background", FText background)]
       else [])
   ++ (if negb (moderation =? "") then [("moderation", FText moderation)]
       else [])
   ++ (if negb (output_format =? "")
       then [("output_format", FText output_format)] else [])
   ++ (if ((output_format =? "webp") || (output_format =? "jpeg"))
          && Num.truthy output_compression
       then [("output_compression", FText (numToString output_compression))]
       else []))%list.

(** [formData.append(field, await fs.readFile(p),
      { filename: path.basename(p), contentType: 'image/png' })] *)
Definition fileField (field p : string) : M (string * FormValue) :=
  buffer <- tryFS (readFile p) ;;
  ret (field, FFile buffer (basename p) "image/png").

Definition postEdits (this : DalleService)
    (fields : list (string * FormValue)) : M JSValue :=
  post (mkRequest (baseUrl ++ "/images/edits") (FormBody fields)
          "multipart/form-data" ("Bearer " ++ apiKey this)).

(** *** [editImage] *)

Definition editItem (saveDir fileName : string) (n : float)
    (output_format : string) (i : nat) (item : JSValue) : M string :=
  let imagePath := imageFilePath saveDir fileName n i (orStr (Some output_format) "png") in
  (* the debug line [Object.keys(item)] *)
  (if nullish item then throw (TypeError "Object.keys") else ret tt) ;;;
  imageBuffer <-
    (if truthy (member item "url") then
       got <- attempt (fetch (member item "url")) ;;
       match got with
       | inl buffer => ret buffer
       | inr _ =>
           throw (Error ("Failed to download edited image from URL: "
                         ++ toStringJS (member item "url")))
       end
     else
       base64Data <-
         (if truthy (member item "b64_json") then ret (member item "b64_json")
          else if truthy (member item "image") then ret (member item "image")
          else
            throw (Error "Image data not found in expected formats (url, b64_json, image) in edit API response")) ;;
       if negb (truthy base64Data)
       then throw (Error "Base64 image data is empty for edit")
       else
         match bufferFrom base64Data with
         | Ok buffer => ret buffer
         | Throw _ =>
             throw (Error "Failed to create image buffer from base64 data.")
         end) ;;
  onFS (writeFile imagePath imageBuffer) ;;;
  ret imagePath.

Definition editReconcile (prompt saveDir fileName : string) (n : float)
    (output_format : string) (data : JSValue) : M ImageGenerationResult :=
  items <- lift (getProp data "data") ;;
  match items with
  | JArr (item :: rest) =>
      imagePaths <- saveEach (editItem saveDir fileName n output_format)
                      0 (item :: rest) [] ;;
      ret (mkResult true None (Some imagePaths) (Some "gpt-image-1")
             (Some prompt) (usageOf data))
  | _ =>
      throw (Error "Unexpected API response structure. Missing or empty data array.")
  end.

Definition editImage (this : DalleService) (prompt imagePath : string)
    (options : Options) : M ImageGenerationResult :=
  let model := "gpt-image-1" in
  let output_format := orStr (o_output_format options) "png" in
  let n := orNum (o_n options) 1 in
  done <- attempt (
    saveDir <- resolveSaveDir (o_saveDirPath options) ;;
    fileName <- fileNameOr (o_fileName options) "gpt-image-edit-" ;;
    checked <- ensureWriteable saveDir ;;
    match checked with
    | inr err => ret (notWriteable saveDir err)
    | inl _ =>
        imageExists <- readFS (pathExists imagePath) ;;
        if negb imageExists
        then ret (failure ("Image file not found: " ++ imagePath))
        else
          let mask := orStr (o_mask options) "" in
          maskExists <- (if mask =? "" then ret true
                         else readFS (pathExists mask)) ;;
          if negb maskExists
          then ret (failure ("Mask file not found: " ++ mask))
          else
            image <- fileField "image" imagePath ;;
            maskPart <- (if mask =? "" then ret []
                         else m <- fileField "mask" mask ;; ret [m]) ;;
            data <- postEdits this
                      (editFields prompt model options ++ [image] ++ maskPart)%list ;;
            editReconcile prompt saveDir fileName n output_format data
    end) ;;
  match done with
  | inl result => ret result
  | inr e => ret (failure (apiErrorMessage e))
  end.

(** *** [imageToImage] and [editMultipleImages]

    Their loop reads [data.data.length] and [data.data[i]] without
    looking at what [data.data] is. *)

Definition plainItem (saveDir fileName : string) (n : float)
    (output_format : string) (i : nat) (item : JSValue) : M string :=
  image <- lift (getProp item "image") ;;
  resultBuffer <- lift (bufferFrom image) ;;
  let resultPath := imageFilePath saveDir fileName n i (orStr (Some output_format) "png") in
  onFS (writeFile resultPath resultBuffer) ;;;
  ret resultPath.

(** The values [props[0], props[1], ...] of an object, up to the first
    index it has no property for; at most one per property. *)
Fixpoint denseItems (props : list (string * JSValue)) (fuel i : nat)
    : list JSValue :=
  match fuel with
  | 0 => []
  | S fuel' =>
      match lookup (Str.ofNat i) props with
      | Some x => x :: denseItems props fuel' (S i)
      | None => []
      end
  end.

(** The loop over an object: [items] are the values at [i], [i + 1], ...;
    once they are used up [data.data[i]] is [undefined], and reading its
    [image] throws. *)
Fixpoint saveWhile (body : nat -> JSValue -> M string) (len : JSValue)
    (i : nat) (items : list JSValue) (imagePaths : list string)
    : M (list string) :=
  if negb (PrimFloat.ltb (Num.ofNat i) (toNumber len)) then ret imagePaths
  else
    match items with
    | [] => p <- body i JUndefined ;; throw (TypeError "read image")
    | item :: rest =>
        p <- body i item ;;
        saveWhile body len (S i) rest (imagePaths ++ [p])%list
    end.

Definition plainLoop (body : nat -> JSValue -> M string) (items : JSValue)
    : M (list string) :=
  match items with
  | JUndefined | JNull => throw (TypeError "read length")
  | JArr l => saveEach body 0 l []
  | JStr s => saveEach body 0 (chars s) []
  | JObj props =>
      saveWhile body (member items "length") 0
        (denseItems props (List.length props) 0) []
  | JBool _ | JNum _ => ret []       (* [0 < undefined] is false *)
  end.

(** What follows [const data = response.data] in both methods; only
    [editMultipleImages] reports the usage. *)
Definition plainReconcile (model prompt saveDir fileName : string)
    (n : float) (output_format : string) (withUsage : bool)
    (data : JSValue) : M ImageGenerationResult :=
  items <- lift (getProp data "data") ;;
  imagePaths <- plainLoop (plainItem saveDir fileName n output_format)
                  items ;;
  ret (mkResult true None (Some imagePaths) (Some model) (Some prompt)
         (if withUsage then usageOf data else None)).

Definition imageToImage (this : DalleService) (imagePath prompt : string)
    (options : Options) : M ImageGenerationResult :=
  let model := "gpt-image-1" in
  let output_format := orStr (o_output_format options) "png" in
  let n := orNum (o_n options) 1 in
  done <- attempt (
    saveDir <- resolveSaveDir (o_saveDirPath options) ;;
    fileName <- fileNameOr (o_fileName options) "gpt-img2img-" ;;
    checked <- ensureWriteable saveDir ;;
    match checked with
    | inr err => ret (notWriteable saveDir err)
    | inl _ =>
        imageExists <- readFS (pathExists imagePath) ;;
        if negb imageExists
        then ret (failure ("Image file not found: " ++ imagePath))
        else
          image <- fileField "image" imagePath ;;
          data <- postEdits this
                    (editFields prompt model options ++ [image])%list ;;
          plainReconcile model prompt saveDir fileName n output_format
            false data
    end) ;;
  match done with
  | inl result => ret result
  | inr e => ret (failure (apiErrorMessage e))
  end.

(** [for (const imagePath of imagePaths)
      if (!await fs.pathExists(imagePath)) return ...]: the first path
    that does not exist. *)
Fixpoint firstMissing (imagePaths : list string) : M (option string) :=
  match imagePaths with
  | [] => ret None
  | p :: rest =>
      e <- readFS (pathExists p) ;;
      if negb e then ret (Some p) else firstMissing rest
  end.

Fixpoint fileFields (field : string) (imagePaths : list string)
    : M (list (string * FormValue)) :=
  match imagePaths with
  | [] => ret []
  | p :: rest =>
      f <- fileField field p ;;
      fs <- fileFields field rest ;;
      ret (f :: fs)
  end.

Definition editMultipleImages (this : DalleService) (prompt : string)
    (imagePaths : list string) (options : Options)
    : M ImageGenerationResult :=
  let model := orStr (o_model options) "gpt-image-1" in
  let output_format := orStr (o_output_format options) "png" in
  let n := orNum (o_n options) 1 in
  done <- attempt (
    saveDir <- resolveSaveDir (o_saveDirPath options) ;;
    fileName <- fileNameOr (o_fileName options) "image-edit-" ;;
    checked <- ensureWriteable saveDir ;;
    match checked with
    | inr err => ret (notWriteable saveDir err)
    | inl _ =>
        missing <- firstMissing imagePaths ;;
        match missing with
        | Some p => ret (failure ("Image file not found: " ++ p))
        | None =>
            images <- fileFields "image[]" imagePaths ;;
            data <- postEdits this
                      (editFields prompt model options ++ images)%list ;;
            plainReconcile model prompt saveDir fileName n output_format
              true data
        end
    end) ;;
  match done with
  | inl result => ret result
  | inr e => ret (failure (apiErrorMessage e))
  end.

End Service.

(* ================================================================== *)
(** ** src/tools/index.ts: the [edit_image] tool *)

Record ToolResponse : Type := mkResponse {
  content : list string     (* the [text] of each [{ type: "text", text }] *)
}.

Definition textResponse (text : string) : ToolResponse := mkResponse [text].

Record EditImageArgs : Type := mkEditArgs {
  a_prompt : string;
  a_imagePath : string;
  a_mask : option string;
  a_mask_shapes : option (list JSValue);
  a_size : option string;
  a_quality : option string;
  a_background : option string;
  a_moderation : option string;
  a_output_format : option string;
  a_output_compression : option float;
  a_n : option float;
  a_saveDirPath : option string;
  a_fileName : option string
}.

Definition dq : string := String (ascii_of_nat 34) EmptyString.
Definition nl : string := String (ascii_of_nat 10) EmptyString.

(** [name="value"] *)
Definition attr (name value : string) : string :=
  name ++ "=" ++ dq ++ value ++ dq.

Definition typeIs (v : JSValue) (tag : string) : bool :=
  match v with
  | JStr t => t =? tag
  | _ => false
  end.

(** A point of a polygon: an array of exactly two numbers. *)
Definition pointOf (p : JSValue) : option (float * float) :=
  match p with
  | JArr [JNum x; JNum y] => Some (x, y)
  | _ => None
  end.

Fixpoint pointsOf (points : list JSValue) : option (list (float * float)) :=
  match points with
  | [] => Some []
  | p :: rest =>
      match pointOf p, pointsOf rest with
      | Some xy, Some xys => Some (xy :: xys)
      | _, _ => None
      end
  end.

Section Mask.
Context `{RT : Runtime}.

Definition num (x : float) : string := numToString x.

(** The callback of [args.mask_shapes.map(shape => ...)]: the SVG element
    of a shape, or the empty string for a shape that is skipped. *)
Definition shapeSvg (imgWidth imgHeight : float) (shape : JSValue)
    : Outcome string :=
  if nullish shape then Throw (TypeError "read details")
  else
    let details := member shape "details" in
    if negb (truthy details) then Ok ""
    else if typeIs (member shape "type") "rectangle" then
      match member details "x", member details "y",
            member details "width", member details "height" with
      | JNum x, JNum y, JNum width, JNum height =>
          Ok ("<rect " ++ attr "x" (num (x * imgWidth))
              ++ " " ++ attr "y" (num (y * imgHeight))
              ++ " " ++ attr "width" (num (width * imgWidth))
              ++ " " ++ attr "height" (num (height * imgHeight))
              ++ " " ++ attr "fill" "white" ++ " />")
      | _, _, _, _ => Ok ""
      end
    else if typeIs (member shape "type") "circle" then
      match member details "cx", member details "cy",
            member details "radius" with
      | JNum cx, JNum cy, JNum r =>
          let radius := (r * Num.min imgWidth imgHeight)%float in
          Ok ("<circle " ++ attr "cx" (num (cx * imgWidth))
              ++ " " ++ attr "cy" (num (cy * imgHeight))
              ++ " " ++ attr "r" (num radius)
              ++ " " ++ attr "fill" "white" ++ " />")
      | _, _, _ => Ok ""
      end
    else if typeIs (member shape "type") "polygon" then
      match member details "points" with
      | JArr points =>
          match pointsOf points with
          | Some xys =>
              let pointsStr :=
                String.concat " "
                  (map (fun p => num (fst p * imgWidth) ++ ","
                                 ++ num (snd p * imgHeight)) xys) in
              Ok ("<polygon " ++ attr "points" pointsStr
                  ++ " " ++ attr "fill" "white" ++ " />")
          | None => Ok ""
          end
      | _ => Ok ""
      end
    else Ok "".

(** [shapes.map(...)]: the elements in order; the first exception ends
    the traversal. *)
Fixpoint mapShapes (imgWidth imgHeight : float) (shapes : list JSValue)
    : Outcome (list string) :=
  match shapes with
  | [] => Ok []
  | shape :: rest =>
      match shapeSvg imgWidth imgHeight shape with
      | Throw e => Throw e
      | Ok s =>
          match mapShapes imgWidth imgHeight rest with
          | Throw e => Throw e
          | Ok ss => Ok (s :: ss)
          end
      end
  end.

(** [const shapesSvg = args.mask_shapes.map(...).join('')] *)
Definition shapesSvg (imgWidth imgHeight : float) (shapes : list JSValue)
    : Outcome string :=
  match mapShapes imgWidth imgHeight shapes with
  | Ok ss => Ok (String.concat "" ss)
  | Throw e => Throw e
  end.

(** The text of [svgBuffer]: a black canvas with the shapes in white. *)
Definition maskSvg (imgWidth imgHeight : float) (shapes : list JSValue)
    : Outcome string :=
  match shapesSvg imgWidth imgHeight shapes with
  | Ok body =>
      Ok ("<svg " ++ attr "width" (num imgWidth) ++ " "
          ++ attr "height" (num imgHeight) ++ "><rect "
          ++ attr "width" "100%" ++ " " ++ attr "height" "100%" ++ " "
          ++ attr "fill" "black" ++ "/>" ++ body ++ "</svg>")
  | Throw e => Throw e
  end.

End Mask.

Section Tools.
Context `{RT : Runtime}.

(** [const dalleService = new DalleService({
      apiKey: process.env.OPENAI_API_KEY || '' })] *)
Definition dalleService : DalleService :=
  newDalleService (orStr env_OPENAI_API_KEY "").

Definition absolute (p : string) : string :=
  if isAbsolute p then p else resolve cwd p.

Definition mutuallyExclusive : string :=
  "Error: 'mask' (image path) and 'mask_shapes' (geometric shapes) are mutually exclusive. Provide one or the other, not both.".

Definition plural (count : nat) : string :=
  if Nat.eqb count 1 then "" else "s".

Definition usageText (u : option Usage) : string :=
  match u with
  | None => ""
  | Some u =>
      "Token usage:" ++ nl
      ++ "- Total tokens: " ++ toStringJS (total_tokens u) ++ nl
      ++ "- Input tokens: " ++ toStringJS (input_tokens u) ++ nl
      ++ "- Output tokens: " ++ toStringJS (output_tokens u) ++ nl
      ++ (if truthy (input_tokens_details u) then
            "- Text tokens: "
            ++ toStringJS (member (input_tokens_details u) "text_tokens") ++ nl
            ++ "- Image tokens: "
            ++ toStringJS (member (input_tokens_details u) "image_tokens") ++ nl
          else "")
      ++ nl
  end.

(** From [const result = await dalleService.editImage(...)] to the
    [return] of the handler. *)
Definition editAndReport (args : EditImageArgs) (imagePathAbs : string)
    (maskPathToUse tempMaskPath : option string) : M ToolResponse :=
  result <- editImage dalleService (a_prompt args) imagePathAbs
              (mkOptions maskPathToUse None (a_size args) (a_quality args)
                 (a_background args) (a_moderation args)
                 (a_output_format args) (a_output_compression args)
                 (a_n args) (a_saveDirPath args) (a_fileName args)) ;;
  if negb (success result) then
    ret (textResponse ("Error editing image: "
                       ++ match error result with
                          | Some e => e
                          | None => "undefined"
                          end))
  else
    let paths := match imagePaths result with Some l => l | None => [] end in
    let imageCount := List.length paths in
    ret (textResponse (
      "Successfully edited " ++ Str.ofNat imageCount ++ " image"
      ++ plural imageCount ++ " using gpt-image-1." ++ nl ++ nl
      ++ "Original image: " ++ imagePathAbs ++ nl
      ++ (if negb (orStr maskPathToUse "" =? "") then
            if negb (orStr tempMaskPath "" =? "")
            then "Mask generated from shapes." ++ nl
            else "Mask image: " ++ orStr maskPathToUse "" ++ nl
          else "")
      ++ "Prompt: " ++ dq
      ++ match prompt result with Some p => p | None => "undefined" end
      ++ dq ++ nl ++ nl
      ++ usageText (usage result)
      ++ "Edited image" ++ plural imageCount ++ " saved to:" ++ nl
      ++ String.concat "" (map (fun p => "- " ++ p ++ nl) paths))).

(** The [handler] of the tool [edit_image]. *)
Definition edit_image (args : EditImageArgs) : M ToolResponse :=
  let imagePathAbs := absolute (a_imagePath args) in
  let mask := orStr (a_mask args) "" in
  let shapes := match a_mask_shapes args with Some l => l | None => [] end in
  if negb (mask =? "") && Nat.ltb 0 (List.length shapes) then
    ret (textResponse mutuallyExclusive)
  else if Nat.ltb 0 (List.length shapes) then
    (* no temporary file is named yet: the [finally] has nothing to do *)
    dims <- tryFS (sharpMetadata imagePathAbs) ;;
    let imgWidth := orNum (fst dims) 0 in
    let imgHeight := orNum (snd dims) 0 in
    if negb (Num.truthy imgWidth) || negb (Num.truthy imgHeight)
    then throw (Error "Could not read image dimensions.")
    else
      svg <- lift (maskSvg imgWidth imgHeight shapes) ;;
      t <- now ;;
      let tempMaskPath := join tmpdir ("mask-" ++ numToString t ++ ".png") in
      finally
        (onFS (sharpSvgToPngFile svg tempMaskPath) ;;;
         editAndReport args imagePathAbs (Some tempMaskPath) (Some tempMaskPath))
        (if tempMaskPath =? "" then ret tt
         else attempt (onFS (unlink tempMaskPath)) ;;; ret tt)
  else if negb (mask =? "") then
    editAndReport args imagePathAbs (Some (absolute mask)) None
  else
    editAndReport args imagePathAbs None None.

End Tools.

(* ================================================================== *)
(** ** src/services/dalle-service.ts: [validateApiKey] *)

Section ValidateApiKey.
Context `{RT : Runtime}.

(** [axios.get(url, { headers: { Authorization } })], whose answer
    depends on the key presented. *)
Variable axiosGetAuthorized : string -> string -> Outcome JSValue.

Definition getAuthorized (url authorization : string) : M JSValue :=
  fun w => (axiosGetAuthorized url authorization,
            mkWorld (w_fs w) (w_posted w) (w_fetched w ++ [JStr url])%list
              (w_clock w)).

Definition validateApiKey (this : DalleService) : M bool :=
  got <- attempt (getAuthorized (baseUrl ++ "/models")
                    ("Bearer " ++ apiKey this)) ;;
  match got with
  | inl _ => ret true
  | inr _ => ret false
  end.

End ValidateApiKey.

(* ================================================================== *)
(** ** src/tools/index.ts: the other tools *)

Record GenerateImageArgs : Type := mkGenerateArgs {
  g_prompt : string;
  g_size : option string;
  g_quality : option string;
  g_background : option string;
  g_moderation : option string;
  g_output_format : option string;
  g_output_compression : option float;
  g_n : option float;
  g_saveDirPath : option string;
  g_fileName : option string
}.

(** The arguments of [image_to_image] and of [multi_image_edit].  The
    server hands a handler the arguments as they came, checked only for
    the presence of the required names: [imagePath] and [imagePaths],
    which the handlers themselves inspect, are values of any kind.  The
    other fields only travel into the service. *)
Record ImageToImageArgs : Type := mkImageToImageArgs {
  i_imagePath : JSValue;
  i_prompt : string;
  i_size : option string;
  i_quality : option string;
  i_background : option string;
  i_moderation : option string;
  i_output_format : option string;
  i_output_compression : option float;
  i_n : option float;
  i_saveDirPath : option string;
  i_fileName : option string
}.

Record MultiImageEditArgs : Type := mkMultiImageEditArgs {
  m_prompt : string;
  m_imagePaths : JSValue;
  m_size : option string;
  m_quality : option string;
  m_background : option string;
  m_moderation : option string;
  m_output_format : option string;
  m_output_compression : option float;
  m_n : option float;
  m_saveDirPath : option string;
  m_fileName : option string
}.

(** [`${s}`] of an optional string. *)
Definition orUndefined (s : option string) : string :=
  match s with
  | Some s => s
  | None => "undefined"
  end.

(** [paths.forEach(p => { responseText += `- ${p}\n` })] *)
Definition bulletLines (paths : list string) : string :=
  String.concat "" (map (fun p => "- " ++ p ++ nl) paths).

Section OtherTools.
Context `{RT : Runtime}.

(** The [handler] of the tool [generate_image]. *)
Definition generate_image (args : GenerateImageArgs) : M ToolResponse :=
  result <- generateImage dalleService (g_prompt args)
              (mkOptions None None (g_size args) (g_quality args)
                 (g_background args) (g_moderation args)
                 (g_output_format args) (g_output_compression args)
                 (g_n args) (g_saveDirPath args) (g_fileName args)) ;;
  if negb (success result) then
    ret (textResponse ("Error generating image: " ++ orUndefined (error result)))
  else
    let paths := match imagePaths result with Some l => l | None => [] end in
    let imageCount := List.length paths in
    ret (textResponse (
      "Successfully generated " ++ Str.ofNat imageCount ++ " image"
      ++ plural imageCount ++ " using gpt-image-1." ++ nl ++ nl
      ++ "Prompt: " ++ dq ++ orUndefined (prompt result) ++ dq ++ nl ++ nl
      ++ usageText (usage result)
      ++ "Generated image" ++ plural imageCount ++ " saved to:" ++ nl
      ++ bulletLines paths)).

(** [path.isAbsolute(p) ? p : path.resolve(process.cwd(), p)] on a value
    as it came: [path.isAbsolute] throws on what is not a string. *)
Definition absoluteOf (p : JSValue) : Outcome string :=
  match p with
  | JStr s => Ok (absolute s)
  | _ => Throw (TypeError "path.isAbsolute")
  end.

(** [items.map(imgPath => ...)]: the first exception ends the
    traversal. *)
Fixpoint mapAbsolute (items : list JSValue) : Outcome (list string) :=
  match items with
  | [] => Ok []
  | imgPath :: rest =>
      match absoluteOf imgPath with
      | Throw e => Throw e
      | Ok p =>
          match mapAbsolute rest with
          | Throw e => Throw e
          | Ok ps => Ok (p :: ps)
          end
      end
  end.

(** [args.imagePaths.map(...)]: only an array has a [map] to call. *)
Definition resolvedPathsOf (imagePaths : JSValue) : Outcome (list string) :=
  match imagePaths with
  | JArr items => mapAbsolute items
  | JUndefined | JNull => Throw (TypeError "read map")
  | _ => Throw (TypeError "imagePaths.map")
  end.

(** The [handler] of the tool [image_to_image]. *)
Definition image_to_image (args : ImageToImageArgs) : M ToolResponse :=
  imagePath <- lift (absoluteOf (i_imagePath args)) ;;
  result <- imageToImage dalleService imagePath (i_prompt args)
              (mkOptions None None (i_size args) (i_quality args)
                 (i_background args) (i_moderation args)
                 (i_output_format args) (i_output_compression args)
                 (i_n args) (i_saveDirPath args) (i_fileName args)) ;;
  if negb (success result) then
    ret (textResponse ("Error generating image from input image: "
                       ++ orUndefined (error result)))
  else
    let paths := match imagePaths result with Some l => l | None => [] end in
    let imageCount := List.length paths in
    ret (textResponse (
      "Successfully generated " ++ Str.ofNat imageCount ++ " image"
      ++ plural imageCount ++ " from input image using gpt-image-1."
      ++ nl ++ nl
      ++ "Input image: " ++ imagePath ++ nl
      ++ "Prompt: " ++ dq ++ orUndefined (prompt result) ++ dq ++ nl ++ nl
      ++ "Generated image" ++ plural imageCount ++ " saved to:" ++ nl
      ++ bulletLines paths)).

(** The [handler] of the tool [multi_image_edit]. *)
Definition multi_image_edit (args : MultiImageEditArgs) : M ToolResponse :=
  resolvedImagePaths <- lift (resolvedPathsOf (m_imagePaths args)) ;;
  result <- editMultipleImages dalleService (m_prompt args) resolvedImagePaths
              (mkOptions None None (m_size args) (m_quality args)
                 (m_background args) (m_moderation args)
                 (m_output_format args) (m_output_compression args)
                 (m_n args) (m_saveDirPath args) (m_fileName args)) ;;
  if negb (success result) then
    ret (textResponse ("Error editing multiple images: "
                       ++ orUndefined (error result)))
  else
    let paths := match imagePaths result with Some l => l | None => [] end in
    let imageCount := List.length paths in
    ret (textResponse (
      "Successfully created " ++ Str.ofNat imageCount ++ " composite image"
      ++ plural imageCount ++ " using gpt-image-1." ++ nl ++ nl
      ++ "Input images:" ++ nl
      ++ bulletLines resolvedImagePaths
      ++ nl ++ "Prompt: " ++ dq ++ orUndefined (prompt result) ++ dq
      ++ nl ++ nl
      ++ usageText (usage result)
      ++ "Generated image" ++ plural imageCount ++ " saved to:" ++ nl
      ++ bulletLines paths)).

(** The [handler] of the tool [validate_api_key]. *)
Definition validate_api_key
    (axiosGetAuthorized : string -> string -> Outcome JSValue)
    : M ToolResponse :=
  isValid <- validateApiKey axiosGetAuthorized dalleService ;;
  if isValid then ret (textResponse "API key is valid.")
  else ret (textResponse
              "API key is invalid or there was an error validating it.").

End OtherTools.

(* ================================================================== *)
(** ** src/index.ts: the handler of tool calls *)

(** What the server reads of a tool: its name, the names its schema
    requires, and its handler, which is given the arguments as they
    came. *)
Record Tool `{Runtime} : Type := mkTool {
  t_name : string;
  t_required : list string;
  t_handler : list (string * JSValue) -> M ToolResponse
}.

(** [request.params] *)
Record CallToolParams : Type := mkParams {
  p_name : string;
  p_arguments : option (list (string * JSValue));
  p_meta : JSValue
}.

(** A response, with the [_meta] added to it if any. *)
Record CallToolResult : Type := mkCallResult {
  r_response : ToolResponse;
  r_meta : option JSValue
}.

(** The properties every object inherits from [Object.prototype]. *)
Definition objectPrototype : list string :=
  ["constructor"; "__defineGetter__"; "__defineSetter__"; "hasOwnProperty";
   "__lookupGetter__"; "__lookupSetter__"; "isPrototypeOf";
   "propertyIsEnumerable"; "toString"; "valueOf"; "__proto__";
   "toLocaleString"].

(** [arg in args] *)
Definition hasProperty (arg : string) (args : list (string * JSValue)) : bool :=
  existsb (String.eqb arg) (map fst args)
  || existsb (String.eqb arg) objectPrototype.

(** The names the [switch] has a case for. *)
Definition dispatched : list string :=
  ["generate_image"; "edit_image"; "create_variation"; "image_to_image";
   "multi_image_edit"; "validate_api_key"].

Section Server.
Context `{RT : Runtime}.

(** The message of [new McpError(ErrorCode.MethodNotFound, text)]. *)
Variable methodNotFound : string -> string.

Definition callTool (tools : list Tool) (params : CallToolParams)
    : M CallToolResult :=
  done <- attempt (
    match find (fun t => t_name t =? p_name params) tools with
    | None =>
        ret (mkCallResult (textResponse ("Unknown tool: " ++ p_name params))
               None)
    | Some tool =>
        let args := match p_arguments params with Some a => a | None => [] end in
        let missingArgs :=
          filter (fun arg => negb (hasProperty arg args)) (t_required tool) in
        if Nat.ltb 0 (List.length (t_required tool))
           && Nat.ltb 0 (List.length missingArgs)
        then
          ret (mkCallResult
                 (textResponse ("Missing required arguments: "
                                ++ String.concat ", " missingArgs)) None)
        else
          response <-
            (if t_name tool =? "validate_api_key" then t_handler tool []
             else if existsb (String.eqb (t_name tool)) dispatched
                  then t_handler tool args
                  else throw (Error (methodNotFound
                                       ("Unknown tool: " ++ t_name tool)))) ;;
          if truthy (p_meta params)
          then ret (mkCallResult response (Some (p_meta params)))
          else ret (mkCallResult response None)
    end) ;;
  match done with
  | inl result => ret result
  | inr e => ret (mkCallResult (textResponse (messageOf e)) None)
  end.

End Server.

(** The names and required arguments of the tools of
    [src/tools/index.ts], in the order of the array. *)
Definition toolSchemas : list (string * list string) :=
  [("multi_image_edit", ["prompt"; "imagePaths"]);
   ("image_to_image", ["imagePath"; "prompt"]);
   ("generate_image", ["prompt"]);
   ("edit_image", ["prompt"; "imagePath"]);
   ("validate_api_key", [])].

(* ================================================================== *)
(** ** A test double for the collaborators

    An in-memory file system with POSIX paths, a provider and a web server
    that answer as two given functions say, and simple printers.  It is
    what the examples below run on; no general theorem depends on it. *)

Module TestDouble.

(** *** POSIX paths *)

Definition posixIsAbsolute (p : string) : bool :=
  match p with
  | String c _ => Ascii.eqb c "/"
  | EmptyString => false
  end.

(** [normalizeString]: drop empty and "." segments, let ".." remove the
    segment before it. *)
Fixpoint normalizeSegments (allowAboveRoot : bool) (done todo : list string)
    : list string :=
  match todo with
  | [] => rev done
  | seg :: rest =>
      if (seg =? "") || (seg =? ".") then
        normalizeSegments allowAboveRoot done rest
      else if seg =? ".." then
        match done with
        | [] => normalizeSegments allowAboveRoot
                  (if allowAboveRoot then [".."] else []) rest
        | top :: below =>
            if top =? ".."
            then normalizeSegments allowAboveRoot (seg :: done) rest
            else normalizeSegments allowAboveRoot below rest
        end
      else normalizeSegments allowAboveRoot (seg :: done) rest
  end.

Definition segments (p : string) : list string := Str.split "/" p.

Definition posixResolve (base p : string) : string :=
  if p =? "" then
    String "/" (String.concat "/" (normalizeSegments false [] (segments base)))
  else if posixIsAbsolute p then
    String "/" (String.concat "/" (normalizeSegments false [] (segments p)))
  else
    String "/" (String.concat "/"
                  (normalizeSegments false [] (segments base ++ segments p)%list)).

Definition endsWithSlash (p : string) : bool :=
  match rev (segments p) with
  | last :: _ :: _ => last =? ""
  | _ => false
  end.

Definition posixNormalize (p : string) : string :=
  if p =? "" then "."
  else
    let isAbs := posixIsAbsolute p in
    let body := String.concat "/" (normalizeSegments (negb isAbs) [] (segments p)) in
    if body =? "" then
      if isAbs then "/" else if endsWithSlash p then "./" else "."
    else
      (if isAbs then "/" else "") ++ body
      ++ (if endsWithSlash p then "/" else "").

Definition posixJoin (a b : string) : string :=
  if a =? "" then posixNormalize b
  else if b =? "" then posixNormalize a
  else posixNormalize (a ++ "/" ++ b).

Definition posixBasename (p : string) : string :=
  match rev (normalizeSegments true [] (segments p)) with
  | last :: _ => last
  | [] => ""
  end.

Definition posixDirname (p : string) : string :=
  match rev (normalizeSegments true [] (segments p)) with
  | _ :: before =>
      (if posixIsAbsolute p then "/" else "")
      ++ String.concat "/" (rev before)
  | [] => if posixIsAbsolute p then "/" else "."
  end.

(** *** A file system in memory *)

Record Disk : Type := mkDisk {
  dirs : list string;           (* the directories that exist *)
  writable : list string;       (* those the process may write to *)
  files : list (string * bytes)
}.

Definition mem (p : string) (l : list string) : bool :=
  existsb (String.eqb p) l.

Fixpoint fileAt (p : string) (fs : list (string * bytes)) : option bytes :=
  match fs with
  | [] => None
  | (q, b) :: rest => if q =? p then Some b else fileAt p rest
  end.

Definition denied (what p : string) : Exn :=
  Error ("EACCES: permission denied, " ++ what ++ " '" ++ p ++ "'").

Definition missing (what p : string) : Exn :=
  Error ("ENOENT: no such file or directory, " ++ what ++ " '" ++ p ++ "'").

(** A directory that does not exist is created when its parent exists
    and is writable. *)
Definition diskEnsureDir (p : string) (d : Disk) : Outcome unit * Disk :=
  if mem p (dirs d) then (Ok tt, d)
  else if mem (posixDirname p) (dirs d) && mem (posixDirname p) (writable d)
  then (Ok tt, mkDisk (p :: dirs d) (p :: writable d) (files d))
  else (Throw (denied "mkdir" p), d).

Definition diskAccess (p : string) (d : Disk) : Outcome unit :=
  if mem p (writable d) then Ok tt else Throw (denied "access" p).

Definition diskPathExists (p : string) (d : Disk) : bool :=
  mem p (dirs d) || match fileAt p (files d) with Some _ => true | None => false end.

Definition diskReadFile (p : string) (d : Disk) : Outcome bytes :=
  match fileAt p (files d) with
  | Some b => Ok b
  | None => Throw (missing "open" p)
  end.

Definition diskWriteFile (p : string) (b : bytes) (d : Disk)
    : Outcome unit * Disk :=
  if mem (posixDirname p) (dirs d) && mem (posixDirname p) (writable d)
  then (Ok tt, mkDisk (dirs d) (writable d) ((p, b) :: files d))
  else (Throw (denied "open" p), d).

Definition diskUnlink (p : string) (d : Disk) : Outcome unit * Disk :=
  match fileAt p (files d) with
  | Some _ =>
      (Ok tt, mkDisk (dirs d) (writable d)
                (filter (fun f => negb (fst f =? p)) (files d)))
  | None => (Throw (missing "unlink" p), d)
  end.

(** *** Base64 *)

Definition sextet (c : ascii) : option N :=
  let n := N_of_ascii c in
  if (65 <=? n)%N && (n <=? 90)%N then Some (n - 65)%N
  else if (97 <=? n)%N && (n <=? 122)%N then Some (n - 71)%N
  else if (48 <=? n)%N && (n <=? 57)%N then Some (n + 4)%N
  else if (n =? 43)%N || (n =? 45)%N then Some 62%N
  else if (n =? 47)%N || (n =? 95)%N then Some 63%N
  else None.

(** The sextets up to the first padding character; characters outside
    the alphabet are passed over. *)
Fixpoint sextets (s : string) : list N :=
  match s with
  | EmptyString => []
  | String c r =>
      if Ascii.eqb c "=" then []
      else match sextet c with
           | Some v => v :: sextets r
           | None => sextets r
           end
  end.

Definition byteOf (n : N) : Byte.byte := byte_of_ascii (ascii_of_N (n mod 256)).

Fixpoint packSextets (fuel : nat) (l : list N) : bytes :=
  match fuel with
  | 0 => []
  | S fuel' =>
      match l with
      | a :: b :: c :: d :: rest =>
          let v := (a * 262144 + b * 4096 + c * 64 + d)%N in
          byteOf (v / 65536) :: byteOf (v / 256) :: byteOf v
            :: packSextets fuel' rest
      | [a; b; c] =>
          let v := (a * 4096 + b * 64 + c)%N in
          [byteOf (v / 1024); byteOf (v / 4)]
      | [a; b] => [byteOf ((a * 64 + b) / 16)]
      | _ => []
      end
  end.

Definition decodeBase64 (s : string) : bytes :=
  let l := sextets s in packSextets (S (List.length l)) l.

(** *** Printers *)

(** The decimal numeral of an integer-valued number; other numbers are
    not printed by the examples. *)
Definition printNumber (x : float) : string :=
  match Prim2SF x with
  | S754_zero _ => "0"
  | S754_infinity s => if s then "-Infinity" else "Infinity"
  | S754_nan => "NaN"
  | S754_finite s m e =>
      let v := match e with
               | Z0 => Zpos m
               | Zpos k => (Zpos m * 2 ^ Zpos k)%Z
               | Zneg k => (Zpos m / 2 ^ Zpos k)%Z
               end in
      (if s then "-" else "") ++ NilZero.string_of_uint (N.to_uint (Z.to_N v))
      ++ match e with
         | Zneg k => if (Zpos m mod 2 ^ Zpos k =? 0)%Z then "" else ".?"
         | _ => ""
         end
  end.

Fixpoint printValue (v : JSValue) : string :=
  match v with
  | JUndefined => "undefined"
  | JNull => "null"
  | JBool b => if b then "true" else "false"
  | JNum x => printNumber x
  | JStr s => s
  | JArr items =>
      String.concat ","
        (map (fun x => if nullish x then "" else printValue x) items)
  | JObj _ => "[object Object]"
  end.

(** Scalars as JSON prints them; the content of arrays and objects is
    elided. *)
Definition printJson (v : JSValue) : string :=
  match v with
  | JUndefined => "undefined"
  | JStr s => dq ++ s ++ dq
  | JArr _ => "[...]"
  | JObj _ => "{...}"
  | _ => printValue v
  end.

(** *** The runtime

    [workdir] is the current directory; [provider] answers the requests
    posted to the image API and [web] the downloads.  Every image is
    reported as 64 by 48 pixels, and the rasterised mask is stored as the
    text of its SVG. *)
Definition runtime (workdir : string)
    (provider : Request -> Outcome JSValue)
    (web : JSValue -> Outcome bytes) : Runtime :=
  {| FS := Disk;
     cwd := workdir;
     env_OPENAI_API_KEY := Some "sk-test";
     dateNow := fun k => Num.ofZ (1700000000000 + Z.of_nat k);
     tmpdir := "/tmp";
     isAbsolute := posixIsAbsolute;
     resolve := posixResolve;
     join := posixJoin;
     basename := posixBasename;
     ensureDir := diskEnsureDir;
     access_W_OK := diskAccess;
     pathExists := diskPathExists;
     readFile := diskReadFile;
     writeFile := diskWriteFile;
     unlink := diskUnlink;
     axiosPost := provider;
     axiosGet := web;
     base64Decode := decodeBase64;
     bufferFromObject := fun _ => Throw (TypeError "Buffer.from");
     numToString := printNumber;
     toStringJS := printValue;
     toNumberJS := fun _ => Num.NaN;
     jsonStringify := printJson;
     typeErrorMessage := fun op => "TypeError: " ++ op;
     sharpMetadata := fun p d =>
       match fileAt p (files d) with
       | Some _ => Ok (Some 64%float, Some 48%float)
       | None => Throw (Error "Input file is missing")
       end;
     sharpSvgToPngFile := fun svg p d =>
       diskWriteFile p (list_byte_of_string svg) d |}.

Definition noWeb : JSValue -> Outcome bytes :=
  fun _ => Throw (AxiosError "Network Error" JUndefined).

(** A world on a given disk in which nothing has happened yet. *)
Definition start `{Runtime} (d : FS) : World := mkWorld d [] [] 0.
Arguments start {H} d.

End TestDouble.


(* ================================================================== *)
(** ** Notions the specification uses *)

Module Spec.

(** [r] is the candidate of least score, the first one among equals. *)
Definition firstMinimizer (score : string -> float)
    (candidates : list string) (r : string) : Prop :=
  exists before after,
    candidates = (before ++ r :: after)%list /\
    (forall c, In c before -> PrimFloat.ltb (score r) (score c) = true) /\
    (forall c, In c after -> PrimFloat.leb (score r) (score c) = true).

(** The aspect ratio of a supported size. *)
Definition aspectRatio (supportedSize : string) : float :=
  let (supportedWidth, supportedHeight) := Params.dimsOf supportedSize in
  (supportedWidth / supportedHeight)%float.

Fixpoint allDigits (s : string) : bool :=
  match s with
  | EmptyString => true
  | String c r => Str.isDigit c && allDigits r
  end.



End Spec.

(** ** Notions about requests and shapes *)

Module SpecRequest.

Fixpoint formField (k : string) (fields : list (string * FormValue))
    : option FormValue :=
  match fields with
  | [] => None
  | (k', v) :: rest => if k' =? k then Some v else formField k rest
  end.

(** The output format in force is jpeg or webp (png when none is given). *)
Definition jpegOrWebp (options : Options) : bool :=
  let output_format := orStr (o_output_format options) "png" in
  (output_format =? "webp") || (output_format =? "jpeg").

Definition inRange (c : float) : bool :=
  PrimFloat.leb 0 c && PrimFloat.leb c 100.

(** A number that is a mathematical integer. *)
Definition isInteger (x : float) : bool :=
  match Prim2SF x with
  | S754_zero _ => true
  | S754_finite _ m e =>
      match e with
      | Zneg k => (Zpos m mod 2 ^ Zpos k =? 0)%Z
      | _ => true
      end
  | _ => false
  end.

(** A point (x, y) of a polygon. *)
Definition isPoint (p : JSValue) : bool :=
  match p with
  | JArr [JNum _; JNum _] => true
  | _ => false
  end.

Definition hasNumbers (details : JSValue) (keys : list string) : bool :=
  forallb (fun k => isNumber (member details k)) keys.

(** A shape record as the data model describes it: a known tag and, in
    [details], every field of that kind of shape with its type. *)
Definition wellFormedShape (shape : JSValue) : bool :=
  match shape, member shape "details" with
  | JObj _, JObj d =>
      let details := JObj d in
      (typeIs (member shape "type") "rectangle"
       && hasNumbers details ["x"; "y"; "width"; "height"])
      || (typeIs (member shape "type") "circle"
          && hasNumbers details ["cx"; "cy"; "radius"])
      || (typeIs (member shape "type") "polygon"
          && match member details "points" with
             | JArr points => forallb isPoint points
             | _ => false
             end)
  | _, _ => false
  end.

(** A malformed shape: an entry of the list that is not a well-formed
    shape record; a field is missing or has the wrong type, the tag is
    unknown, or the entry is no record at all. *)
Definition malformedShape (shape : JSValue) : bool :=
  negb (wellFormedShape shape).

End SpecRequest.

(** ** Notions about tool calls *)

(** [s.startsWith(pre)] *)
Fixpoint startsWith (pre s : string) : bool :=
  match pre with
  | EmptyString => true
  | String a pre' =>
      match s with
      | String b s' => Ascii.eqb a b && startsWith pre' s'
      | EmptyString => false
      end
  end.

(** A string; an array of strings. *)
Definition isString (v : JSValue) : bool :=
  match v with
  | JStr _ => true
  | _ => false
  end.

Definition isStringArray (v : JSValue) : bool :=
  match v with
  | JArr items => forallb isString items
  | _ => false
  end.

(** The text [t] has the line that names the file of the mask. *)
Definition namesMaskFile (maskPath t : string) : Prop :=
  exists before after,
    t = before ++ "Mask image: " ++ maskPath ++ nl ++ after.

(** The arguments [args] with [mask_shapes] left out. *)
Definition withoutShapes (args : EditImageArgs) : EditImageArgs :=
  mkEditArgs (a_prompt args) (a_imagePath args) (a_mask args) None
    (a_size args) (a_quality args) (a_background args) (a_moderation args)
    (a_output_format args) (a_output_compression args) (a_n args)
    (a_saveDirPath args) (a_fileName args).

(** ** Notions about the world *)

Section WorldNotions.
Context `{RT : Runtime}.

(** The world [w] with another file system. *)
Definition setFS (w : World) (fs : FS) : World :=
  mkWorld fs (w_posted w) (w_fetched w) (w_clock w).

(** [m] posts nothing to the provider. *)
Definition silent {A} (m : M A) : Prop :=
  forall w, w_posted (snd (m w)) = w_posted w.

End WorldNotions.

(** ** Notions about provider responses *)

Section ResponseNotions.
Context `{RT : Runtime}.

(** The inline data of an item: its [b64_json], else its [image]. *)
Definition base64Of (item : JSValue) : JSValue :=
  if truthy (member item "b64_json") then member item "b64_json"
  else member item "image".

(** [generateImage] goes on with a string only ([strict]); [editImage]
    with whatever [Buffer.from] accepts. *)
Definition decodable (strict : bool) (v : JSValue) : bool :=
  if strict then match v with JStr _ => true | _ => false end
  else match bufferFrom v with Ok _ => true | Throw _ => false end.

(** An item of the response that cannot be processed: it is not a
    record at all, its remote reference cannot be fetched, it carries no
    inline data under a recognised name (or empty data), or its data
    cannot be decoded. *)
Inductive ItemFails (strict : bool) (item : JSValue) : Prop :=
| item_not_a_record :
    nullish item = true -> ItemFails strict item
| item_fetch_failed (e : Exn) :
    nullish item = false ->
    truthy (member item "url") = true ->
    axiosGet (member item "url") = Throw e ->
    ItemFails strict item
| item_without_data :
    nullish item = false ->
    truthy (member item "url") = false ->
    truthy (base64Of item) = false ->
    ItemFails strict item
| item_not_decodable :
    nullish item = false ->
    truthy (member item "url") = false ->
    truthy (base64Of item) = true ->
    decodable strict (base64Of item) = false ->
    ItemFails strict item.

(** An item [imageToImage] and [editMultipleImages] cannot process: it
    is not a record, or its [image] cannot be decoded (a missing [image]
    cannot). *)
Definition PlainItemFails (item : JSValue) : Prop :=
  nullish item = true \/
  exists e, bufferFrom (member item "image") = Throw e.

(** The result [res] reports failure and no path. *)
Definition reportsFailure (res : ImageGenerationResult) : Prop :=
  success res = false /\ (exists message, error res = Some message) /\
  imagePaths res = None.

(** The outcome of a call started in [w]: a result; when it reports
    success its paths are as many as the items of the [data] array of
    the answer to the request the call has posted; when it reports
    failure it has no paths. *)
Definition countsItems (w : World)
    (out : Outcome ImageGenerationResult * World) : Prop :=
  exists res,
    fst out = Ok res /\
    if success res then
      exists paths req data,
        imagePaths res = Some paths /\
        w_posted (snd out) = (w_posted w ++ [req])%list /\
        axiosPost req = Ok data /\
        forall items, member data "data" = JArr items ->
                      List.length paths = List.length items
    else reportsFailure res.

(** The outcome of a call started in [w] with respect to an item that
    fails: whenever the call has posted a request whose answer holds
    such an item, the result reports failure and no path. *)
Definition allOrNothing (fails : JSValue -> Prop) (w : World)
    (out : Outcome ImageGenerationResult * World) : Prop :=
  exists res,
    fst out = Ok res /\
    forall req data items,
      w_posted (snd out) = (w_posted w ++ [req])%list ->
      axiosPost req = Ok data ->
      member data "data" = JArr items ->
      Exists fails items ->
      reportsFailure res.

(** The outcome of a method that posts at most one request and hands
    the answer to [reconcile] with the directory and the file name it
    has settled on: either nothing was posted and the result reports
    failure, or one request [req] was posted and the result is that of
    [reconcile] on the answer, an exception of either being reported as
    failure. *)
Definition postsThenReconciles
    (reconcile : string -> string -> JSValue -> M ImageGenerationResult)
    (w : World) (out : Outcome ImageGenerationResult * World) : Prop :=
  exists res w',
    out = (Ok res, w') /\
    ((reportsFailure res /\ w_posted w' = w_posted w) \/
     exists req wa,
       w_posted wa = (w_posted w ++ [req])%list /\
       match axiosPost req with
       | Throw _ => reportsFailure res /\ w' = wa
       | Ok data =>
           exists saveDir fileName,
             match reconcile saveDir fileName data wa with
             | (Ok r, w2) => res = r /\ w' = w2
             | (Throw _, w2) => reportsFailure res /\ w' = w2
             end
       end).

(** A computation that posts at most one request: from any world it
    either ends without posting, with an exception or with a value that
    [quiet] accepts, or posts one request [req] and goes on as [next]
    says with the answer. *)
Definition sends {A} (quiet : A -> Prop)
    (next : string -> string -> JSValue -> M A) (m : M A) : Prop :=
  forall w,
    (exists r w', m w = (r, w') /\ w_posted w' = w_posted w /\
                  forall a, r = Ok a -> quiet a)
    \/
    (exists req wa saveDir fileName,
       w_posted wa = (w_posted w ++ [req])%list /\
       m w = match axiosPost req with
             | Throw e => (Throw e, wa)
             | Ok data => next saveDir fileName data wa
             end).

(** Reconciliation leaves on disk what the items before a failing one
    have written: it ends in the file system their turns of the loop
    have produced. *)
Definition keepsEarlierFiles (fails : JSValue -> Prop)
    (body : nat -> JSValue -> M string)
    (reconcile : JSValue -> M ImageGenerationResult) : Prop :=
  forall data good bad rest w paths w1,
    member data "data" = JArr (good ++ bad :: rest) ->
    saveEach body 0 good [] w = (Ok paths, w1) ->
    fails bad ->
    exists e w2, reconcile data w = (Throw e, w2) /\ w_fs w2 = w_fs w1.

End ResponseNotions.

(** ** Notions about sizes and file names *)

(** No character of [s] is a decimal digit. *)
Fixpoint noDigits (s : string) : bool :=
  match s with
  | EmptyString => true
  | String c r => negb (Str.isDigit c) && noDigits r
  end.

Definition startsWithDigit (s : string) : bool :=
  match s with
  | String c _ => Str.isDigit c
  | EmptyString => false
  end.

(** The name of the file of item [i]:
    [`${fileName}${n > 1 ? `-${i + 1}` : ''}.${ext}`]. *)
Definition itemFileName (fileName : string) (n : float) (i : nat)
    (ext : string) : string :=
  fileName ++ (if PrimFloat.ltb 1 n then "-" ++ Str.ofNat (i + 1) else "")
  ++ "." ++ ext.

(** ** More notions about runs *)

Section RunNotions.
Context `{RT : Runtime}.

(** Whatever [m] returns satisfies [Q]. *)
Definition yields {A} (Q : A -> Prop) (m : M A) : Prop :=
  forall w a w', m w = (Ok a, w') -> Q a.

(** Every request [m] posts satisfies [P]. *)
Definition postsOnly {A} (P : Request -> Prop) (m : M A) : Prop :=
  forall w, exists l,
    w_posted (snd (m w)) = (w_posted w ++ l)%list /\ Forall P l.

(** From a file system [fs] that it leaves as it is, whatever [m] returns
    satisfies [Q]. *)
Definition yieldsOn {A} (fs : FS) (Q : A -> Prop) (m : M A) : Prop :=
  forall w a w', w_fs w = fs -> m w = (Ok a, w') -> Q a /\ w_fs w' = fs.

(** Started on the file system [fs], every request [m] posts satisfies
    [P]. *)
Definition postsOnlyOn {A} (fs : FS) (P : Request -> Prop) (m : M A) : Prop :=
  forall w, w_fs w = fs ->
    exists l, w_posted (snd (m w)) = (w_posted w ++ l)%list /\ Forall P l.

(** The file system as a method finds it once the directory to save to
    has been resolved and checked: the files it sends are read from it. *)
Definition checkedFS (options : Options) (w : World) : FS :=
  match resolveSaveDir (o_saveDirPath options) w with
  | (Ok saveDir, w1) => w_fs (snd (ensureWriteable saveDir w1))
  | (Throw _, w1) => w_fs w1
  end.

(** The run [out] of a call started in [w] has posted at most one
    request, and it satisfies [P]. *)
Definition postsAtMostOne {A} (P : Request -> Prop) (w : World)
    (out : Outcome A * World) : Prop :=
  exists l,
    w_posted (snd out) = (w_posted w ++ l)%list /\
    List.length l <= 1 /\ Forall P l.

(** The request of [generateImage]. *)
Definition generationRequest (this : DalleService) (prompt : string)
    (options : Options) : Request :=
  mkRequest (baseUrl ++ "/images/generations")
    (JsonBody (generateParams prompt options))
    "application/json" ("Bearer " ++ apiKey this).

(** A part of a multipart form that holds the file [p], with the content
    it has on [fs], as a PNG. *)
Definition pngPart (fs : FS) (field p : string) (part : string * FormValue)
    : Prop :=
  exists content,
    readFile p fs = Ok content /\
    part = (field, FFile content (basename p) "image/png").

(** A request to the edits endpoint whose form holds the text fields of
    [editFields] followed by the file parts [files] accepts. *)
Definition editsRequest (this : DalleService) (prompt model : string)
    (options : Options) (files : list (string * FormValue) -> Prop)
    (req : Request) : Prop :=
  req_url req = baseUrl ++ "/images/edits" /\
  req_contentType req = "multipart/form-data" /\
  req_authorization req = "Bearer " ++ apiKey this /\
  exists parts,
    req_body req = FormBody (editFields prompt model options ++ parts)%list /\
    files parts.

End RunNotions.

(** ** More notions about tool calls *)

Section ToolNotions.
Context `{RT : Runtime}.

(** The run [out] of a call started in [w] has posted nothing or one
    request. *)
Definition postedAtMostOnce {A} (w : World) (out : Outcome A * World) : Prop :=
  w_posted (snd out) = w_posted w \/
  exists req, w_posted (snd out) = (w_posted w ++ [req])%list.

(** The run [out] of a handler answers with one text, which starts as
    an error report or as a report of success, and has posted at most one
    request. *)
Definition answers (errorPrefix okPrefix : string) (w : World)
    (out : Outcome ToolResponse * World) : Prop :=
  (exists t, fst out = Ok (textResponse t) /\
             (startsWith errorPrefix t = true \/
              startsWith okPrefix t = true)) /\
  postedAtMostOnce w out.

(** The file parts of [editImage]: the image, then the mask if one is
    given. *)
Definition editImageParts (fs : FS) (imagePath : string) (options : Options)
    (parts : list (string * FormValue)) : Prop :=
  exists image,
    pngPart fs "image" imagePath image /\
    match o_mask options with
    | None => parts = [image]
    | Some m =>
        if m =? "" then parts = [image]
        else exists part, pngPart fs "mask" m part /\ parts = [image; part]
    end.

(** The run [out] of a handler started in [w] ends at once with a
    [TypeError]: nothing is read, written or posted. *)
Definition rejectsAtOnce (w : World) (out : Outcome ToolResponse * World)
    : Prop :=
  exists operation, out = (Throw (TypeError operation), w).

End ToolNotions.

(** A parameter that is sent only with a value of its list, as given. *)
Definition enumParam (given : option string) (allowed : list string)
    (sent : option JSValue) : Prop :=
  forall v, sent = Some v <->
            exists q, given = Some q /\ In q allowed /\ v = JStr q.

(** A result as the callers read it: a success carries no error, the
    prompt it was asked with, its paths and the name of a model; a failure
    carries an error message and nothing else. *)
Definition wellShaped (asked : string) (res : ImageGenerationResult) : Prop :=
  if success res
  then error res = None /\ prompt res = Some asked /\
       (exists paths, imagePaths res = Some paths) /\
       (exists name, model res = Some name)
  else exists message, res = failure message.

(** The tools of [toolSchemas] with the handlers [handlers] gives them,
    by name. *)
Definition toolsWith `{Runtime}
    (handlers : string -> list (string * JSValue) -> M ToolResponse)
    : list Tool :=
  map (fun schema => mkTool (fst schema) (snd schema) (handlers (fst schema)))
    toolSchemas.

(** ** Scenarios on the test double *)

Module Scenario.
Import TestDouble.

(** A provider that answers every request with the body [data]. *)
Definition answering (data : JSValue) : Request -> Outcome JSValue :=
  fun _ => Ok data.

(** A disk with a writable working directory [/work] and an input
    image in it. *)
Definition workDisk : Disk :=
  mkDisk ["/"; "/work"; "/tmp"] ["/work"; "/tmp"]
    [("/work/in.png", [Byte.x89; Byte.x50; Byte.x4e; Byte.x47])].

(** The working disk with a mask file next to the input image. *)
Definition maskedDisk : Disk :=
  mkDisk ["/"; "/work"; "/tmp"] ["/work"; "/tmp"]
    [("/work/in.png", [Byte.x89; Byte.x50; Byte.x4e; Byte.x47]);
     ("/work/mask.png", [Byte.xff; Byte.x00])].

(** A disk on which the process may write nowhere. *)
Definition readOnlyDisk : Disk := mkDisk ["/"; "/srv"] [] [].

(** The base64 text of the three bytes "ABC". *)
Definition abc : JSValue := JStr "QUJD".

(** Answers of the provider: one image; an image followed by an item
    without data; no image at all. *)
Definition oneImage : JSValue :=
  JObj [("data", JArr [JObj [("b64_json", abc)]])].

Definition imageThenNothing : JSValue :=
  JObj [("data", JArr [JObj [("b64_json", abc)]; JObj []])].

Definition noImage : JSValue := JObj [("data", JArr [])].

(** Two images asked for, to be saved as [ball-1.png], [ball-2.png]. *)
Definition twoBalls : Options :=
  mkOptions None None None None None None None None (Some 2%float) None
    (Some "ball").

Definition service : DalleService := mkService "sk-test".

(** A rectangle over the whole image, a rectangle without its height,
    and a shape of an unknown kind. *)
Definition fullRectangle : JSValue :=
  JObj [("type", JStr "rectangle");
        ("details", JObj [("x", JNum 0); ("y", JNum 0);
                          ("width", JNum 1); ("height", JNum 1)])].



(** [edit_image] called on [in.png] with a mask and some shapes. *)
Definition editArgs (mask : option string) (shapes : option (list JSValue))
    : EditImageArgs :=
  mkEditArgs "add a hat" "in.png" mask shapes None None None None None
    None None None (Some "edited").

End Scenario.

(* ================================================================== *)
(** * Properties *)

(** ** [normalizeSize] *)

Section NormalizeSize.
Import Params Spec.



Lemma isSep_not_digit (c : ascii) : isSep c = true -> Str.isDigit c = false.
Proof.
  unfold isSep. intros H. apply orb_true_iff in H.
  destruct H as [H|H]; apply Ascii.eqb_eq in H; subst; reflexivity.
Qed.


Lemma append_assoc (a b c : string) : (a ++ b) ++ c = a ++ (b ++ c).
Proof. induction a; simpl; congruence. Qed.






(** The loop returns the initial candidate or a member of the list. *)
Lemma closest_in (w h : float) (sizes : list string) (init : string * float) :
  fst (closest w h sizes init) = fst init \/ In (fst (closest w h sizes init)) sizes.
Proof.
  unfold closest. revert init.
  induction sizes as [|c rest IH]; intros init; simpl; [now left|].
  destruct (IH (step w h init c)) as [E|I]; [|now right; right].
  rewrite E. unfold step.
  destruct (PrimFloat.ltb _ _); simpl; [right; now left|now left].
Qed.



(** C1, where the code departs from the claim: for the request
    1536x1536 the code returns 1024x1536.  The candidate 1024x1024 has
    exactly the aspect ratio asked for and 1024x1536 has not, yet the
    score of 1024x1536 is the lower one: the difference of the areas,
    counted in pixels, outweighs the difference of the ratios times
    1000, which the comments of the loop mean to give priority. *)
Theorem C1_exact_ratio_match_not_chosen :
  normalizeSize (Some "1024x1024") = "1024x1024" /\
  normalizeSize (Some "1536x1536") = "1024x1536" /\
  PrimFloat.eqb (aspectRatio "1024x1024") (1536 / 1536) = true /\
  PrimFloat.eqb (aspectRatio "1024x1536") (1536 / 1536) = false /\
  PrimFloat.ltb (combinedScore 1536 1536 "1024x1536")
                (combinedScore 1536 1536 "1024x1024") = true.
Proof. repeat split; vm_compute; reflexivity. Qed.



End NormalizeSize.

(* ================================================================== *)
(** ** [resolveSaveDir] *)

Section ResolveSaveDirFacts.
Context `{RT : Runtime}.

(** What [resolveSaveDir] does, case by case. *)
Lemma resolveSaveDir_run (saveDir : option string) (w : World) :
  let target := resolvedPathOf saveDir in
  resolveSaveDir saveDir w =
    (Ok match fst (ensureDir target (w_fs w)) with
        | Ok _ =>
            match access_W_OK target (snd (ensureDir target (w_fs w))) with
            | Ok _ => target
            | Throw _ => cwd
            end
        | Throw _ => cwd
        end,
     setFS w (snd (ensureDir target (w_fs w)))).
Proof.
  intros target. unfold resolveSaveDir, bind, attempt, onFS, tryFS, ret, setFS.
  fold target. destruct (ensureDir target (w_fs w)) as [[u|e] fs']; simpl.
  - destruct (access_W_OK target fs'); reflexivity.
  - reflexivity.
Qed.

Lemma resolveSaveDir_silent (saveDir : option string) :
  silent (resolveSaveDir saveDir).
Proof. intros w. now rewrite resolveSaveDir_run. Qed.

(** C5, as amended: [resolveSaveDir] always returns an absolute path.
    When the resolved form of the input can be created and passes the
    write check, that resolved form is returned, confirmed writable;
    when it cannot be created or is not writable, the current directory
    is returned, and nothing checks that the current directory is
    writable. *)
Theorem C5_resolveSaveDir (saveDir : option string) (w : World)
    (Hcwd : isAbsolute cwd = true)
    (Hresolve : forall d, isAbsolute (resolve cwd d) = true) :
  let target := resolvedPathOf saveDir in
  let created := ensureDir target (w_fs w) in
  exists p,
    resolveSaveDir saveDir w = (Ok p, setFS w (snd created)) /\
    isAbsolute p = true /\
    (fst created = Ok tt -> access_W_OK target (snd created) = Ok tt ->
     p = target /\ access_W_OK p (snd created) = Ok tt) /\
    ((exists e, fst created = Throw e) \/
     (exists e, access_W_OK target (snd created) = Throw e) ->
     p = cwd).
Proof.
  intros target created.
  assert (Habs : isAbsolute target = true).
  { unfold target, resolvedPathOf. destruct saveDir as [d|]; [|assumption].
    destruct (d =? ""); [assumption|].
    destruct (isAbsolute d) eqn:E; [assumption|apply Hresolve]. }
  rewrite resolveSaveDir_run. fold target created.
  eexists. split; [reflexivity|].
  destruct (fst created) as [[]|e] eqn:Ec.
  - destruct (access_W_OK target (snd created)) as [[]|e] eqn:Ea.
    + repeat split; try assumption. intros [[e He]|[e He]]; discriminate.
    + repeat split; try assumption; try discriminate.
  - repeat split; try assumption; try discriminate.
Qed.

End ResolveSaveDirFacts.

(** C5, the claim as stated fails: on a disk where the process may write
    nowhere, the requested directory cannot be created and the function
    returns the current directory, which is not writable. *)
Lemma C5_fallback_not_writable :
  let RT := TestDouble.runtime "/srv" (Scenario.answering JNull) TestDouble.noWeb in
  let out := resolveSaveDir (Some "out") (TestDouble.start (H:=RT) Scenario.readOnlyDisk) in
  fst out = Ok "/srv" /\
  access_W_OK "/srv" (w_fs (snd out))
    = Throw (TestDouble.denied "access" "/srv").
Proof. split; vm_compute; reflexivity. Qed.

(** C5, an instance of the amended statement: with POSIX paths and
    [/work] writable, "out" resolves to [/work/out]. *)
Lemma C5_resolveSaveDir_witness :
  let RT := TestDouble.runtime "/work" (Scenario.answering JNull) TestDouble.noWeb in
  exists p,
    resolveSaveDir (Some "out") (TestDouble.start (H:=RT) Scenario.workDisk)
      = (Ok p, setFS (TestDouble.start (H:=RT) Scenario.workDisk)
                 (snd (TestDouble.diskEnsureDir "/work/out" Scenario.workDisk))) /\
    isAbsolute p = true /\
    p = "/work/out".
Proof.
  intros RT.
  destruct (@C5_resolveSaveDir RT (Some "out")
              (TestDouble.start (H:=RT) Scenario.workDisk)) as (p & Hrun & Habs & Hok & _).
  - reflexivity.
  - intros d. cbn. unfold TestDouble.posixResolve.
    destruct (d =? ""); [reflexivity|].
    destruct (TestDouble.posixIsAbsolute d); reflexivity.
  - exists p. split; [exact Hrun|]. split; [exact Habs|].
    apply Hok; vm_compute; reflexivity.
Defined.

(* ================================================================== *)
(** ** The request payload *)

Section RequestFacts.
Context `{RT : Runtime}.
Import SpecRequest.

Lemma lookup_app (k : string) (l1 l2 : list (string * JSValue)) :
  lookup k (l1 ++ l2) =
    match lookup k l1 with
    | Some v => Some v
    | None => lookup k l2
    end.
Proof.
  induction l1 as [|[k' v] l1 IH]; simpl; [reflexivity|].
  destruct (k' =? k); [reflexivity|exact IH].
Qed.

Lemma formField_app (k : string) (l1 l2 : list (string * FormValue)) :
  formField k (l1 ++ l2) =
    match formField k l1 with
    | Some v => Some v
    | None => formField k l2
    end.
Proof.
  induction l1 as [|[k' v] l1 IH]; simpl; [reflexivity|].
  destruct (k' =? k); [reflexivity|exact IH].
Qed.

Lemma generateParams_compression (prompt : string) (options : Options) :
  lookup "output_compression" (generateParams prompt options) =
    match o_output_compression options with
    | Some c =>
        if jpegOrWebp options && inRange c then Some (JNum c) else None
    | None => None
    end.
Proof.
  unfold generateParams, jpegOrWebp, inRange.
  repeat rewrite lookup_app.
  destruct (oneOf (o_quality options) _), (oneOf (o_background options) _),
    (oneOf (o_moderation options) _), (oneOf (o_output_format options) _);
    cbn [lookup String.eqb Ascii.eqb Bool.eqb];
    (destruct (o_output_compression options) as [c|]; [|reflexivity];
     rewrite <- andb_assoc;
     destruct (_ && (PrimFloat.leb 0 c && PrimFloat.leb c 100));
     reflexivity).
Qed.

Lemma editFields_compression (prompt model : string) (options : Options) :
  formField "output_compression" (editFields prompt model options) =
    if jpegOrWebp options
       && Num.truthy (orNum (o_output_compression options) 100)
    then Some (FText (numToString (orNum (o_output_compression options) 100)))
    else None.
Proof.
  unfold editFields, jpegOrWebp.
  repeat rewrite formField_app.
  destruct (negb (orStr (o_quality options) "auto" =? "")),
    (negb (orStr (o_background options) "auto" =? "")),
    (negb (orStr (o_moderation options) "auto" =? "")),
    (negb (orStr (o_output_format options) "png" =? ""));
    cbn [formField String.eqb Ascii.eqb Bool.eqb];
    destruct (_ && Num.truthy _); reflexivity.
Qed.

(** C7, as amended.  In [generateImage] the payload carries
    [output_compression] exactly when the output format in force is jpeg
    or webp and the option is a number between 0 and 100, whole or not.
    In the three edit methods the field is never sent for another
    format; for jpeg or webp it is sent with the given value when that
    is a number between 0 and 100 other than 0, and with 100 when no
    value is given. *)
Theorem C7_output_compression (prompt model : string) (options : Options) :
  lookup "output_compression" (generateParams prompt options) =
    match o_output_compression options with
    | Some c =>
        if jpegOrWebp options && inRange c then Some (JNum c) else None
    | None => None
    end
  /\
  if jpegOrWebp options then
    match o_output_compression options with
    | None =>
        formField "output_compression" (editFields prompt model options)
          = Some (FText (numToString 100))
    | Some c =>
        if inRange c && Num.truthy c then
          formField "output_compression" (editFields prompt model options)
            = Some (FText (numToString c))
        else True
    end
  else
    formField "output_compression" (editFields prompt model options) = None.
Proof.
  split; [apply generateParams_compression|].
  rewrite editFields_compression.
  destruct (jpegOrWebp options); [|reflexivity].
  destruct (o_output_compression options) as [c|]; cbn [orNum andb].
  - destruct (inRange c); [|exact I]. cbn [andb].
    destruct (Num.truthy c) eqn:T; [|exact I]. now rewrite T.
  - reflexivity.
Qed.

End RequestFacts.

(** C7, the claim as stated fails: [generateImage] forwards a compression
    that is not an integer, and [editImage] (as the other edit methods)
    forwards one that is out of range. *)
Lemma C7_compression_sent_outside_the_rule :
  let RT := TestDouble.runtime "/work" (Scenario.answering JNull) TestDouble.noWeb in
  let jpeg c := mkOptions None None None None None None (Some "jpeg") (Some c)
                  None None None in
  SpecRequest.isInteger 50.5 = false /\
  lookup "output_compression" (generateParams "p" (jpeg 50.5%float))
    = Some (JNum 50.5) /\
  SpecRequest.inRange 500 = false /\
  SpecRequest.formField "output_compression"
    (editFields "p" "gpt-image-1" (jpeg 500%float)) = Some (FText "500").
Proof. repeat split; vm_compute; reflexivity. Qed.

(* ================================================================== *)
(** ** The mask rasteriser *)

Section MaskFacts.
Context `{RT : Runtime}.
Import SpecRequest.

Lemma concat_empty_cons (s : string) (ss : list string) :
  String.concat "" (s :: ss) = s ++ String.concat "" ss.
Proof.
  destruct ss as [|t ss]; simpl; [|reflexivity].
  induction s as [|c s IH]; simpl; congruence.
Qed.

Lemma shapesSvg_cons (w h : float) (shape : JSValue) (rest : list JSValue) :
  shapesSvg w h (shape :: rest) =
    match shapeSvg w h shape with
    | Throw e => Throw e
    | Ok x =>
        match shapesSvg w h rest with
        | Throw e => Throw e
        | Ok y => Ok (x ++ y)
        end
    end.
Proof.
  unfold shapesSvg. cbn [mapShapes].
  destruct (shapeSvg w h shape) as [x|e]; [|reflexivity].
  destruct (mapShapes w h rest) as [ss|e]; [|reflexivity].
  now rewrite concat_empty_cons.
Qed.






End MaskFacts.

(* ================================================================== *)
(** ** The [edit_image] tool *)

Section ToolFacts.
Context `{RT : Runtime}.

Lemma nonempty_eqb (m : string) : m <> "" -> (m =? "") = false.
Proof. intros H. now apply String.eqb_neq. Qed.

(** The methods of the service catch everything. *)
Lemma editImage_returns (this : DalleService) (prompt imagePath : string)
    (options : Options) (w : World) :
  exists res w', editImage this prompt imagePath options w = (Ok res, w').
Proof.
  unfold editImage, bind at 1, attempt at 1.
  match goal with |- context [match ?m w with _ => _ end] =>
    destruct (m w) as [[r|e] w'] end; unfold ret; eauto.
Qed.

(** [editAndReport] answers with a text that starts as a report of
    success or as an error of the edit. *)
Lemma editAndReport_text (args : EditImageArgs) (imagePathAbs : string)
    (maskPathToUse tempMaskPath : option string) (w : World) :
  exists t w',
    editAndReport args imagePathAbs maskPathToUse tempMaskPath w
      = (Ok (textResponse t), w') /\
    (startsWith "Error editing image: " t = true \/
     startsWith "Successfully edited " t = true).
Proof.
  unfold editAndReport, bind.
  match goal with |- context [editImage ?a ?b ?c ?d w] =>
    destruct (editImage_returns a b c d w) as (res & w' & E); rewrite E end.
  destruct (success res); cbn [negb]; unfold ret; do 2 eexists;
    (split; [reflexivity|]); [right|left]; reflexivity.
Qed.

(** C8: when [mask] is a path and [mask_shapes] is a non-empty array,
    the handler answers at once with the error about mutually exclusive
    arguments and leaves the world as it was: nothing is posted to the
    provider, nothing is read or written. *)
Theorem C8_mask_and_shapes_rejected (args : EditImageArgs) (w : World)
    (m : string) (shape : JSValue) (rest : list JSValue) :
  a_mask args = Some m -> m <> "" ->
  a_mask_shapes args = Some (shape :: rest) ->
  edit_image args w = (Ok (textResponse mutuallyExclusive), w) /\
  w_posted (snd (edit_image args w)) = w_posted w.
Proof.
  intros Hm Hne Hs. unfold edit_image. rewrite Hm, Hs.
  cbn [orStr].
  repeat (rewrite (nonempty_eqb Hne);
          cbn [negb andb List.length Nat.ltb Nat.leb]).
  split; reflexivity.
Qed.

End ToolFacts.

(** C8, an instance: a mask file and one rectangle. *)
Lemma C8_witness :
  let RT := TestDouble.runtime "/work" (Scenario.answering JNull) TestDouble.noWeb in
  let w := TestDouble.start (H:=RT) Scenario.workDisk in
  let args := Scenario.editArgs (Some "mask.png") (Some [Scenario.fullRectangle]) in
  edit_image args w = (Ok (textResponse mutuallyExclusive), w) /\
  w_posted (snd (edit_image args w)) = w_posted w.
Proof.
  intros RT w args.
  apply (@C8_mask_and_shapes_rejected RT args w "mask.png"
           Scenario.fullRectangle []);
    [reflexivity|discriminate|reflexivity].
Defined.

(** C9, where the code departs from the claim: an entry of the list
    that is [null] is not skipped.  A rectangle alone is drawn and the
    edit is made; the same rectangle followed by [null] is not drawn:
    reading [shape.details] throws, no mask is made, the handler throws
    and nothing is posted. *)
Theorem C9_null_shape_aborts_mask :
  let RT := TestDouble.runtime "/work" (Scenario.answering Scenario.oneImage)
              TestDouble.noWeb in
  let w := TestDouble.start (H:=RT) Scenario.workDisk in
  let rectangle := Scenario.fullRectangle in
  let edit shapes := edit_image (Scenario.editArgs None (Some shapes)) w in
  SpecRequest.malformedShape JNull = true /\
  filter (fun s => negb (SpecRequest.malformedShape s)) [rectangle; JNull]
    = [rectangle] /\
  maskSvg 64 48 [rectangle]
    = Ok ("<svg " ++ attr "width" "64" ++ " " ++ attr "height" "48"
          ++ "><rect " ++ attr "width" "100%" ++ " " ++ attr "height" "100%"
          ++ " " ++ attr "fill" "black" ++ "/>"
          ++ "<rect " ++ attr "x" "0" ++ " " ++ attr "y" "0" ++ " "
          ++ attr "width" "64" ++ " " ++ attr "height" "48" ++ " "
          ++ attr "fill" "white" ++ " />" ++ "</svg>") /\
  maskSvg 64 48 [rectangle; JNull] = Throw (TypeError "read details") /\
  (exists t, fst (edit [rectangle]) = Ok (textResponse t) /\
             startsWith "Successfully edited 1 image" t = true) /\
  List.length (w_posted (snd (edit [rectangle]))) = 1 /\
  fst (edit [rectangle; JNull]) = Throw (TypeError "read details") /\
  w_posted (snd (edit [rectangle; JNull])) = [].
Proof.
  cbv zeta.
  split; [reflexivity|]. split; [reflexivity|].
  split; [vm_compute; reflexivity|]. split; [vm_compute; reflexivity|].
  split; [eexists; split; vm_compute; reflexivity|].
  repeat split; vm_compute; reflexivity.
Qed.

(* ================================================================== *)
(** ** The methods of [DalleService] *)

Section MonadFacts.
Context `{RT : Runtime}.

Lemma silent_ret {A} (a : A) : silent (ret a).
Proof. intros w. reflexivity. Qed.

Lemma silent_throw {A} (e : Exn) : silent (@throw _ A e).
Proof. intros w. reflexivity. Qed.

Lemma silent_lift {A} (o : Outcome A) : silent (lift o).
Proof. intros w. reflexivity. Qed.

Lemma silent_onFS {A} (op : FS -> Outcome A * FS) : silent (onFS op).
Proof. intros w. unfold onFS. now destruct (op (w_fs w)). Qed.

Lemma silent_readFS {A} (op : FS -> A) : silent (readFS op).
Proof. intros w. reflexivity. Qed.

Lemma silent_tryFS {A} (op : FS -> Outcome A) : silent (tryFS op).
Proof. intros w. reflexivity. Qed.

Lemma silent_now : silent now.
Proof. intros w. reflexivity. Qed.

Lemma silent_fetch (url : JSValue) : silent (fetch url).
Proof. intros w. reflexivity. Qed.

Lemma silent_bind {A B} (m : M A) (k : A -> M B) :
  silent m -> (forall a, silent (k a)) -> silent (bind m k).
Proof.
  intros Hm Hk w. unfold bind. specialize (Hm w).
  destruct (m w) as [[a|e] w1]; cbn [snd] in *.
  - now rewrite Hk.
  - exact Hm.
Qed.

Lemma silent_attempt {A} (m : M A) : silent m -> silent (attempt m).
Proof.
  intros Hm w. unfold attempt. specialize (Hm w).
  destruct (m w) as [[a|e] w1]; exact Hm.
Qed.

Lemma silent_finally {A} (m : M A) (f : M unit) :
  silent m -> silent f -> silent (finally m f).
Proof.
  intros Hm Hf w. unfold finally. specialize (Hm w).
  destruct (m w) as [r w1]; cbn [snd] in *. now rewrite Hf.
Qed.

(** A silent computation leaves the log of posted requests alone. *)
Lemma silent_run {A} (m : M A) (w : World) r w' :
  silent m -> m w = (r, w') -> w_posted w' = w_posted w.
Proof. intros Hm E. specialize (Hm w). now rewrite E in Hm. Qed.

End MonadFacts.

Ltac silent :=
  repeat first
    [ apply silent_ret | apply silent_throw | apply silent_lift
    | apply silent_onFS | apply silent_readFS | apply silent_tryFS
    | apply silent_now | apply silent_fetch
    | apply silent_attempt
    | apply silent_bind; [|intros ?]
    | match goal with
      | |- silent (if ?b then _ else _) => destruct b
      | |- silent (match ?x with _ => _ end) => destruct x
      end ].

Section LoopFacts.
Context `{RT : Runtime}.

Lemma generateItem_silent saveDir fileName n fmt i item :
  silent (generateItem saveDir fileName n fmt i item).
Proof. unfold generateItem. silent. Qed.

Lemma editItem_silent saveDir fileName n fmt i item :
  silent (editItem saveDir fileName n fmt i item).
Proof. unfold editItem. silent. Qed.

Lemma plainItem_silent saveDir fileName n fmt i item :
  silent (plainItem saveDir fileName n fmt i item).
Proof. unfold plainItem. silent. Qed.

Lemma saveEach_silent (body : nat -> JSValue -> M string) :
  (forall i item, silent (body i item)) ->
  forall items i acc, silent (saveEach body i items acc).
Proof.
  intros Hb. induction items as [|item rest IH]; intros i acc; cbn [saveEach].
  - apply silent_ret.
  - apply silent_bind; [apply Hb|]. intros p. apply IH.
Qed.

Lemma saveWhile_silent (body : nat -> JSValue -> M string) (len : JSValue) :
  (forall i item, silent (body i item)) ->
  forall items i acc, silent (saveWhile body len i items acc).
Proof.
  intros Hb. induction items as [|item rest IH]; intros i acc;
    cbn [saveWhile]; destruct (negb _); try apply silent_ret.
  - apply silent_bind; [apply Hb|]. intros p. apply silent_throw.
  - apply silent_bind; [apply Hb|]. intros p. apply IH.
Qed.

Lemma plainLoop_silent (body : nat -> JSValue -> M string) (items : JSValue) :
  (forall i item, silent (body i item)) -> silent (plainLoop body items).
Proof.
  intros Hb. unfold plainLoop.
  destruct items; try apply silent_throw; try apply silent_ret;
    try (apply saveEach_silent; assumption).
  apply saveWhile_silent; assumption.
Qed.

(** The loop pushes one path per item. *)
Lemma saveEach_length (body : nat -> JSValue -> M string) :
  forall items i acc w paths w',
    saveEach body i items acc w = (Ok paths, w') ->
    List.length paths = List.length acc + List.length items.
Proof.
  induction items as [|item rest IH]; intros i acc w paths w' H;
    cbn [saveEach] in H.
  - unfold ret in H. injection H as <- _. simpl. lia.
  - unfold bind in H. destruct (body i item w) as [[p|e] w1]; [|discriminate].
    apply IH in H. rewrite H, length_app. simpl. lia.
Qed.

(** An item whose turn throws ends the loop with that exception, in the
    world the items before it have left. *)
Lemma saveEach_throw (body : nat -> JSValue -> M string) :
  forall good i acc w paths w1 bad rest e w2,
    saveEach body i good acc w = (Ok paths, w1) ->
    body (i + List.length good) bad w1 = (Throw e, w2) ->
    saveEach body i (good ++ bad :: rest) acc w = (Throw e, w2).
Proof.
  induction good as [|g good IH]; intros i acc w paths w1 bad rest e w2 Hg Hb.
  - cbn [saveEach] in Hg. unfold ret in Hg. injection Hg as <- <-.
    cbn [app saveEach List.length] in *. rewrite Nat.add_0_r in Hb.
    unfold bind. now rewrite Hb.
  - cbn [app saveEach] in *. unfold bind in *.
    destruct (body i g w) as [[p|e'] w0]; [|discriminate].
    eapply IH; [eassumption|].
    cbn [List.length] in Hb. now rewrite Nat.add_succ_r in Hb.
Qed.

(** A loop that returns has saved every item: none of them threw. *)
Lemma saveEach_ok_prefix (body : nat -> JSValue -> M string) :
  forall good i acc w bad rest paths w',
    saveEach body i (good ++ bad :: rest) acc w = (Ok paths, w') ->
    exists paths1 w1,
      saveEach body i good acc w = (Ok paths1, w1) /\
      exists p w2, body (i + List.length good) bad w1 = (Ok p, w2).
Proof.
  induction good as [|g good IH]; intros i acc w bad rest paths w' H.
  - cbn [app saveEach List.length] in *. rewrite Nat.add_0_r.
    unfold bind in H. exists acc, w. split; [reflexivity|].
    destruct (body i bad w) as [[p|e] w2]; [eauto|discriminate].
  - cbn [app saveEach] in *. unfold bind in *.
    destruct (body i g w) as [[p|e] w0]; [|discriminate].
    destruct (IH _ _ _ _ _ _ _ H) as (paths1 & w1 & E1 & p' & w2 & E2).
    exists paths1, w1. split; [exact E1|].
    exists p', w2. cbn [List.length]. now rewrite Nat.add_succ_r.
Qed.

End LoopFacts.

(** *** The loop of [imageToImage] over an object

    [saveWhile] is given the values [denseItems] finds and treats the
    index after them as one the object has no property for.  That is so:
    the search stops early only where a property is missing, and it cannot
    find more values than the object has properties. *)

Section DenseFacts.
Context `{RT : Runtime}.

Lemma ofNat_inj (a b : nat) : Str.ofNat a = Str.ofNat b -> a = b.
Proof.
  unfold Str.ofNat. intros H.
  assert (N : forall n, Nat.to_uint n <> Decimal.Nil).
  { intros n E. pose proof (DecimalNat.Unsigned.of_to n) as O.
    rewrite E in O. cbn in O. subst n. discriminate. }
  apply DecimalNat.Unsigned.to_uint_inj.
  pose proof (NilZero.usu _ (N a)) as Ua.
  pose proof (NilZero.usu _ (N b)) as Ub.
  congruence.
Qed.

Lemma lookup_in (k : string) (props : list (string * JSValue)) v :
  lookup k props = Some v -> In k (map fst props).
Proof.
  induction props as [|[k' x] rest IH]; simpl; [discriminate|].
  destruct (k' =? k) eqn:E.
  - apply String.eqb_eq in E. now left.
  - intros H. right. now apply IH.
Qed.

Lemma denseItems_length props fuel i :
  List.length (denseItems props fuel i) <= fuel.
Proof.
  revert i. induction fuel as [|fuel IH]; intros i; cbn [denseItems].
  - simpl. lia.
  - destruct (lookup (Str.ofNat i) props); simpl; [|lia].
    specialize (IH (S i)). lia.
Qed.

Lemma denseItems_stop props fuel i :
  List.length (denseItems props fuel i) < fuel ->
  lookup (Str.ofNat (i + List.length (denseItems props fuel i))) props = None.
Proof.
  revert i. induction fuel as [|fuel IH]; intros i; cbn [denseItems].
  - simpl. lia.
  - destruct (lookup (Str.ofNat i) props) as [x|] eqn:E; cbn [List.length].
    + intros H. rewrite Nat.add_succ_r. apply (IH (S i)). lia.
    + intros _. now rewrite Nat.add_0_r.
Qed.

Lemma denseItems_full props fuel i :
  List.length (denseItems props fuel i) = fuel ->
  forall j, i <= j < i + fuel -> In (Str.ofNat j) (map fst props).
Proof.
  revert i. induction fuel as [|fuel IH]; intros i; cbn [denseItems].
  - intros _ j Hj. lia.
  - destruct (lookup (Str.ofNat i) props) as [x|] eqn:E; cbn [List.length];
      [|discriminate].
    intros H j Hj. destruct (Nat.eq_dec j i) as [->|Hne].
    + eapply lookup_in; eassumption.
    + apply (IH (S i)); lia.
Qed.

(** The index after the values found names no property. *)
Lemma denseItems_complete (props : list (string * JSValue)) :
  lookup (Str.ofNat (List.length (denseItems props (List.length props) 0)))
    props = None.
Proof.
  pose proof (denseItems_length props (List.length props) 0) as L.
  destruct (Nat.eq_dec (List.length (denseItems props (List.length props) 0))
              (List.length props)) as [E|N].
  - rewrite E.
    destruct (lookup (Str.ofNat (List.length props)) props) as [x|] eqn:K;
      [exfalso|reflexivity].
    pose proof (@denseItems_full props (List.length props) 0 E) as F.
    assert (I : incl (map Str.ofNat (seq 0 (S (List.length props))))
                  (map fst props)).
    { intros k Hk. apply in_map_iff in Hk. destruct Hk as (j & <- & Hj).
      apply in_seq in Hj.
      destruct (Nat.eq_dec j (List.length props)) as [->|Hne].
      - eapply lookup_in; eassumption.
      - apply F. lia. }
    apply NoDup_incl_length in I.
    + rewrite !length_map, length_seq in I. lia.
    + apply Injective_map_NoDup; [|apply seq_NoDup].
      intros a b. apply ofNat_inj.
  - apply (@denseItems_stop props (List.length props) 0). lia.
Qed.

(** Reading [image] off [undefined] throws before anything is done. *)
Lemma plainItem_undefined saveDir fileName n fmt i w :
  plainItem saveDir fileName n fmt i JUndefined w
    = (Throw (TypeError "read image"), w).
Proof. reflexivity. Qed.

End DenseFacts.

Section ItemFacts.
Context `{RT : Runtime}.

Lemma base64Of_falsy (item : JSValue) :
  truthy (base64Of item) = false ->
  truthy (member item "b64_json") = false /\
  truthy (member item "image") = false.
Proof.
  unfold base64Of. destruct (truthy (member item "b64_json")) eqn:B.
  - congruence.
  - now split.
Qed.

(** The turn of a failing item throws and writes nothing. *)
Lemma generateItem_fails saveDir fileName n fmt i item w :
  ItemFails true item ->
  exists e w',
    generateItem saveDir fileName n fmt i item w = (Throw e, w') /\
    w_fs w' = w_fs w.
Proof.
  intros F. unfold generateItem, bind at 1, lift, getProp.
  destruct F as [N|e N U G|N U D|N U D S]; rewrite N; cbv beta iota.
  - eauto.
  - rewrite U. unfold bind at 1, fetch. rewrite G. eauto.
  - rewrite U. apply base64Of_falsy in D. destruct D as [B I].
    rewrite B, I. unfold bind, throw. eauto.
  - rewrite U. unfold bind at 1.
    assert (E : (if truthy (member item "b64_json")
                 then ret (member item "b64_json")
                 else if truthy (member item "image")
                      then ret (member item "image")
                      else if false
                           then throw (Error "API returned URL instead of base64 data. Update code to handle URL responses.")
                           else throw (Error "Image data not found in expected formats in API response")) w
                = (Ok (base64Of item), w)).
    { unfold base64Of in *.
      destruct (truthy (member item "b64_json")); [reflexivity|].
      now rewrite D. }
    rewrite E, D. cbn [negb]. cbn [decodable] in S.
    destruct (base64Of item); try discriminate S; unfold throw; eauto.
Qed.

Lemma editItem_fails saveDir fileName n fmt i item w :
  ItemFails false item ->
  exists e w',
    editItem saveDir fileName n fmt i item w = (Throw e, w') /\
    w_fs w' = w_fs w.
Proof.
  intros F. unfold editItem, bind at 1.
  destruct F as [N|e N U G|N U D|N U D S]; rewrite N; cbv beta iota.
  - unfold throw. do 2 eexists. split; reflexivity.
  - unfold ret. rewrite U. unfold bind, attempt, fetch, throw. rewrite G.
    do 2 eexists. split; reflexivity.
  - unfold ret. rewrite U. apply base64Of_falsy in D. destruct D as [B I].
    rewrite B, I. unfold bind, throw. do 2 eexists. split; reflexivity.
  - unfold ret. rewrite U. unfold bind, throw, ret.
    unfold base64Of in D, S. cbn [decodable] in S.
    destruct (truthy (member item "b64_json")) eqn:B; cbv beta iota;
      rewrite D; cbv beta iota; rewrite ?D; cbn [negb];
      (destruct (bufferFrom _); [discriminate|]);
      do 2 eexists; split; reflexivity.
Qed.

End ItemFacts.

Ltac exec :=
  repeat (match goal with
          | |- context [match ?x with _ => _ end] =>
              lazymatch x with
              | context [match _ with _ => _ end] => fail
              | _ => destruct x eqn:?
              end
          end; cbv beta iota).

Section ReconcileFacts.
Context `{RT : Runtime}.

Lemma failure_reports (message : string) : reportsFailure (failure message).
Proof. repeat split. now exists message. Qed.

Lemma member_array_not_nullish (data : JSValue) (items : list JSValue) :
  member data "data" = JArr items -> nullish data = false.
Proof. destruct data; simpl; intros H; try discriminate; reflexivity. Qed.

Lemma Exists_split {A} (P : A -> Prop) (l : list A) :
  Exists P l -> exists good bad rest, l = (good ++ bad :: rest)%list /\ P bad.
Proof.
  intros H. apply Exists_exists in H. destruct H as (x & Hin & Hx).
  apply in_split in Hin. destruct Hin as (l1 & l2 & E). eauto.
Qed.

Lemma generateReconcile_silent prompt saveDir fileName n fmt data :
  silent (generateReconcile prompt saveDir fileName n fmt data).
Proof.
  unfold generateReconcile. silent.
  all: try (apply saveEach_silent; intros; apply generateItem_silent).
Qed.

Lemma editReconcile_silent prompt saveDir fileName n fmt data :
  silent (editReconcile prompt saveDir fileName n fmt data).
Proof.
  unfold editReconcile. silent.
  all: try (apply saveEach_silent; intros; apply editItem_silent).
Qed.

Lemma plainReconcile_silent model prompt saveDir fileName n fmt u data :
  silent (plainReconcile model prompt saveDir fileName n fmt u data).
Proof.
  unfold plainReconcile. silent.
  apply plainLoop_silent. intros; apply plainItem_silent.
Qed.

(** A reconciliation that returns reports success, with one path per
    item of the [data] array. *)
Lemma generateReconcile_ok prompt saveDir fileName n fmt data w r w' :
  generateReconcile prompt saveDir fileName n fmt data w = (Ok r, w') ->
  success r = true /\
  exists paths, imagePaths r = Some paths /\
    forall items, member data "data" = JArr items ->
                  List.length paths = List.length items.
Proof.
  unfold generateReconcile, bind at 1.
  destruct (nullish data); [discriminate|]. unfold ret at 1. cbv beta iota.
  destruct (member data "data") as [| | | | |[|item rest]|]; try discriminate.
  unfold bind.
  destruct (saveEach _ 0 (item :: rest) [] w) as [[paths|e] w1] eqn:E;
    [|discriminate].
  intros H. injection H as <- _. split; [reflexivity|].
  exists paths. split; [reflexivity|].
  intros items Hi. injection Hi as <-. now apply saveEach_length in E.
Qed.

Lemma editReconcile_ok prompt saveDir fileName n fmt data w r w' :
  editReconcile prompt saveDir fileName n fmt data w = (Ok r, w') ->
  success r = true /\
  exists paths, imagePaths r = Some paths /\
    forall items, member data "data" = JArr items ->
                  List.length paths = List.length items.
Proof.
  unfold editReconcile, bind at 1, lift, getProp.
  destruct (nullish data); [discriminate|]. cbv beta iota.
  destruct (member data "data") as [| | | | |[|item rest]|]; try discriminate.
  unfold bind.
  destruct (saveEach _ 0 (item :: rest) [] w) as [[paths|e] w1] eqn:E;
    [|discriminate].
  intros H. injection H as <- _. split; [reflexivity|].
  exists paths. split; [reflexivity|].
  intros items Hi. injection Hi as <-. now apply saveEach_length in E.
Qed.

Lemma plainReconcile_ok model prompt saveDir fileName n fmt u data w r w' :
  plainReconcile model prompt saveDir fileName n fmt u data w = (Ok r, w') ->
  success r = true /\
  exists paths, imagePaths r = Some paths /\
    forall items, member data "data" = JArr items ->
                  List.length paths = List.length items.
Proof.
  unfold plainReconcile, bind at 1, lift, getProp.
  destruct (nullish data); [discriminate|]. cbv beta iota.
  unfold bind.
  destruct (plainLoop _ (member data "data") w) as [[paths|e] w1] eqn:E;
    [|discriminate].
  intros H. injection H as <- _. split; [reflexivity|].
  exists paths. split; [reflexivity|].
  intros items Hi. rewrite Hi in E. cbn [plainLoop] in E.
  now apply saveEach_length in E.
Qed.

(** A failing item makes the reconciliation throw, in the file system
    the items before it have left. *)
Lemma generateReconcile_keeps prompt saveDir fileName n fmt :
  keepsEarlierFiles (ItemFails true) (generateItem saveDir fileName n fmt)
    (generateReconcile prompt saveDir fileName n fmt).
Proof.
  intros data good bad rest w paths w1 Hd Hg Hb.
  destruct (generateItem_fails saveDir fileName n fmt
              (0 + List.length good) w1 Hb) as (e & w2 & Eb & Efs).
  exists e, w2. split; [|exact Efs].
  pose proof (@saveEach_throw RT (generateItem saveDir fileName n fmt)
                good 0 [] w paths w1 bad rest e w2 Hg Eb) as T.
  unfold generateReconcile, bind at 1.
  rewrite (member_array_not_nullish _ Hd), Hd. unfold ret at 1.
  cbv beta iota.
  remember (good ++ bad :: rest)%list as items eqn:L in *.
  destruct items as [|item rest']; [destruct good; discriminate|].
  unfold bind. now rewrite T.
Qed.

Lemma editReconcile_keeps prompt saveDir fileName n fmt :
  keepsEarlierFiles (ItemFails false) (editItem saveDir fileName n fmt)
    (editReconcile prompt saveDir fileName n fmt).
Proof.
  intros data good bad rest w paths w1 Hd Hg Hb.
  destruct (editItem_fails saveDir fileName n fmt
              (0 + List.length good) w1 Hb) as (e & w2 & Eb & Efs).
  exists e, w2. split; [|exact Efs].
  pose proof (@saveEach_throw RT (editItem saveDir fileName n fmt)
                good 0 [] w paths w1 bad rest e w2 Hg Eb) as T.
  unfold editReconcile, bind at 1, lift, getProp.
  rewrite (member_array_not_nullish _ Hd), Hd.
  cbv beta iota.
  remember (good ++ bad :: rest)%list as items eqn:L in *.
  destruct items as [|item rest']; [destruct good; discriminate|].
  unfold bind. now rewrite T.
Qed.

(** A failing item anywhere in the array makes the reconciliation
    throw. *)
Lemma saveEach_fails (fails : JSValue -> Prop)
    (body : nat -> JSValue -> M string) :
  (forall i item w, fails item ->
     exists e w', body i item w = (Throw e, w')) ->
  forall items i acc w,
    Exists fails items ->
    exists e w', saveEach body i items acc w = (Throw e, w').
Proof.
  intros Hb items i acc w Hex.
  destruct (saveEach body i items acc w) as [[paths|e] w'] eqn:E; [|eauto].
  exfalso. apply Exists_split in Hex.
  destruct Hex as (good & bad & rest & -> & Hbad).
  apply saveEach_ok_prefix in E.
  destruct E as (paths1 & w1 & _ & p & w2 & Eb).
  destruct (Hb (i + List.length good) bad w1 Hbad) as (e & w3 & Et).
  congruence.
Qed.

Lemma generateReconcile_fails prompt saveDir fileName n fmt data items w :
  member data "data" = JArr items ->
  Exists (ItemFails true) items ->
  exists e w',
    generateReconcile prompt saveDir fileName n fmt data w = (Throw e, w').
Proof.
  intros Hd Hex.
  unfold generateReconcile, bind at 1.
  rewrite (member_array_not_nullish _ Hd), Hd. unfold ret at 1.
  cbv beta iota.
  destruct items as [|item rest]; [inversion Hex|].
  destruct (@saveEach_fails (ItemFails true)
              (generateItem saveDir fileName n fmt))
    with (items := item :: rest) (i := 0) (acc := @nil string) (w := w)
    as (e & w' & E); [|assumption|].
  - intros i it w0 F.
    destruct (generateItem_fails saveDir fileName n fmt i w0 F)
      as (e & w' & E & _). eauto.
  - unfold bind. rewrite E. eauto.
Qed.

Lemma editReconcile_fails prompt saveDir fileName n fmt data items w :
  member data "data" = JArr items ->
  Exists (ItemFails false) items ->
  exists e w',
    editReconcile prompt saveDir fileName n fmt data w = (Throw e, w').
Proof.
  intros Hd Hex.
  unfold editReconcile, bind at 1, lift, getProp.
  rewrite (member_array_not_nullish _ Hd), Hd.
  cbv beta iota.
  destruct items as [|item rest]; [inversion Hex|].
  destruct (@saveEach_fails (ItemFails false)
              (editItem saveDir fileName n fmt))
    with (items := item :: rest) (i := 0) (acc := @nil string) (w := w)
    as (e & w' & E); [|assumption|].
  - intros i it w0 F.
    destruct (editItem_fails saveDir fileName n fmt i w0 F)
      as (e & w' & E & _). eauto.
  - unfold bind. rewrite E. eauto.
Qed.

(** The same for the loop of [imageToImage] and [editMultipleImages]. *)
Lemma plainItem_fails saveDir fileName n fmt i item w :
  PlainItemFails item ->
  exists e w',
    plainItem saveDir fileName n fmt i item w = (Throw e, w') /\
    w_fs w' = w_fs w.
Proof.
  intros [N|[e E]]; unfold plainItem, bind, lift, getProp.
  - rewrite N. do 2 eexists. split; reflexivity.
  - destruct (nullish item); [do 2 eexists; split; reflexivity|].
    rewrite E. do 2 eexists. split; reflexivity.
Qed.

Lemma plainReconcile_fails model prompt saveDir fileName n fmt u data items w :
  member data "data" = JArr items ->
  Exists PlainItemFails items ->
  exists e w',
    plainReconcile model prompt saveDir fileName n fmt u data w = (Throw e, w').
Proof.
  intros Hd Hex.
  unfold plainReconcile, bind at 1, lift, getProp.
  rewrite (member_array_not_nullish _ Hd), Hd. cbn [plainLoop].
  destruct (@saveEach_fails PlainItemFails
              (plainItem saveDir fileName n fmt))
    with (items := items) (i := 0) (acc := @nil string) (w := w)
    as (e & w' & E); [|assumption|].
  - intros i it w0 F.
    destruct (plainItem_fails saveDir fileName n fmt i w0 F)
      as (e & w' & E & _). eauto.
  - unfold bind. rewrite E. eauto.
Qed.

Lemma plainReconcile_keeps model prompt saveDir fileName n fmt u :
  keepsEarlierFiles PlainItemFails (plainItem saveDir fileName n fmt)
    (plainReconcile model prompt saveDir fileName n fmt u).
Proof.
  intros data good bad rest w paths w1 Hd Hg Hb.
  destruct (plainItem_fails saveDir fileName n fmt
              (0 + List.length good) w1 Hb) as (e & w2 & Eb & Efs).
  exists e, w2. split; [|exact Efs].
  pose proof (@saveEach_throw RT (plainItem saveDir fileName n fmt)
                good 0 [] w paths w1 bad rest e w2 Hg Eb) as T.
  unfold plainReconcile, bind at 1, lift, getProp.
  rewrite (member_array_not_nullish _ Hd), Hd. cbn [plainLoop].
  unfold bind. now rewrite T.
Qed.

End ReconcileFacts.

Section RunFacts.
Context `{RT : Runtime}.

Lemma sends_ret {A} (quiet : A -> Prop) next (a : A) :
  quiet a -> sends quiet next (ret a).
Proof.
  intros Q w. left. exists (Ok a), w. repeat split.
  intros a' E. now injection E as <-.
Qed.

Lemma sends_throw {A} (quiet : A -> Prop) next (e : Exn) :
  sends quiet next (throw e).
Proof.
  intros w. left. exists (Throw e), w. repeat split. discriminate.
Qed.

Lemma sends_bind {A B} (quiet : B -> Prop) next (m : M A) (k : A -> M B) :
  silent m -> (forall a, sends quiet next (k a)) ->
  sends quiet next (bind m k).
Proof.
  intros Hm Hk w. unfold bind.
  destruct (m w) as [[a|e] w1] eqn:E.
  - pose proof (silent_run _ Hm E) as P.
    destruct (Hk a w1) as [(r & w' & Er & Ep & Hq)|(req & wa & sd & fn & Ep & Er)].
    + left. exists r, w'. repeat split; [assumption|congruence|assumption].
    + right. exists req, wa, sd, fn. split; [congruence|assumption].
  - left. exists (Throw e), w1. repeat split.
    + exact (silent_run _ Hm E).
    + discriminate.
Qed.

Lemma sends_post {A} (quiet : A -> Prop) next (req : Request)
    (k : JSValue -> M A) (saveDir fileName : string) :
  (forall data, k data = next saveDir fileName data) ->
  sends quiet next (bind (post req) k).
Proof.
  intros Hk w. right.
  exists req, (mkWorld (w_fs w) (w_posted w ++ [req]) (w_fetched w) (w_clock w)),
    saveDir, fileName.
  split; [reflexivity|]. unfold bind, post.
  destruct (axiosPost req); [now rewrite Hk|reflexivity].
Qed.

Lemma fileNameOr_silent (fileName : option string) (prefix : string) :
  silent (fileNameOr fileName prefix).
Proof. unfold fileNameOr. silent. Qed.

Lemma ensureWriteable_silent (saveDir : string) :
  silent (ensureWriteable saveDir).
Proof. unfold ensureWriteable. silent. Qed.

Lemma fileField_silent (field p : string) : silent (fileField field p).
Proof. unfold fileField. silent. Qed.

Lemma firstMissing_silent (imagePaths : list string) :
  silent (firstMissing imagePaths).
Proof.
  induction imagePaths as [|p rest IH]; cbn [firstMissing].
  - apply silent_ret.
  - apply silent_bind; [apply silent_readFS|intros e].
    destruct (negb e); [apply silent_ret|exact IH].
Qed.

Lemma fileFields_silent (field : string) (imagePaths : list string) :
  silent (fileFields field imagePaths).
Proof.
  induction imagePaths as [|p rest IH]; cbn [fileFields].
  - apply silent_ret.
  - apply silent_bind; [apply fileField_silent|intros f].
    apply silent_bind; [exact IH|intros fs]. apply silent_ret.
Qed.

(** The [try { ... } catch] around a method that posts once. *)
Lemma caught_runs
    (reconcile : string -> string -> JSValue -> M ImageGenerationResult)
    (m : M ImageGenerationResult) (message : Exn -> string) (w : World) :
  sends reportsFailure reconcile m ->
  postsThenReconciles reconcile w
    ((done <- attempt m ;;
      match done with
      | inl result => ret result
      | inr e => ret (failure (message e))
      end) w).
Proof.
  intros Hm. unfold postsThenReconciles, bind, attempt, ret.
  destruct (Hm w) as [(r & w' & Er & Ep & Hq)|(req & wa & sd & fn & Ep & Er)];
    rewrite Er.
  - destruct r as [res|e]; do 2 eexists; (split; [reflexivity|]); left;
      (split; [|exact Ep]).
    + now apply Hq.
    + apply failure_reports.
  - destruct (axiosPost req) as [data|e] eqn:Ea.
    + destruct (reconcile sd fn data wa) as [[res|e] w2] eqn:Erec;
        do 2 eexists; (split; [reflexivity|]); right;
        exists req, wa; (split; [exact Ep|]); rewrite Ea;
        exists sd, fn; rewrite Erec; split;
        try reflexivity; apply failure_reports.
    + do 2 eexists. split; [reflexivity|]. right.
      exists req, wa. split; [exact Ep|]. rewrite Ea.
      split; [apply failure_reports|reflexivity].
Qed.

End RunFacts.

Ltac sends :=
  repeat first
    [ eapply sends_post; intros ?; cbv beta; reflexivity
    | apply sends_throw
    | apply sends_ret; apply failure_reports
    | apply sends_bind;
      [ first [ apply resolveSaveDir_silent | apply fileNameOr_silent
              | apply ensureWriteable_silent | apply fileField_silent
              | apply firstMissing_silent | apply fileFields_silent
              | solve [silent] ]
      | intros ? ]
    | match goal with
      | |- sends _ _ (if ?b then _ else _) => destruct b
      | |- sends _ _ (match ?x with _ => _ end) => destruct x
      end ].

Section MethodFacts.
Context `{RT : Runtime}.

Lemma editImage_runs (this : DalleService) (prompt imagePath : string)
    (options : Options) (w : World) :
  postsThenReconciles
    (fun saveDir fileName =>
       editReconcile prompt saveDir fileName (orNum (o_n options) 1)
         (orStr (o_output_format options) "png"))
    w (editImage this prompt imagePath options w).
Proof.
  unfold editImage. apply caught_runs. unfold postEdits. sends.
Qed.

Lemma imageToImage_runs (this : DalleService) (imagePath prompt : string)
    (options : Options) (w : World) :
  postsThenReconciles
    (fun saveDir fileName =>
       plainReconcile "gpt-image-1" prompt saveDir fileName
         (orNum (o_n options) 1) (orStr (o_output_format options) "png")
         false)
    w (imageToImage this imagePath prompt options w).
Proof.
  unfold imageToImage. apply caught_runs. unfold postEdits. sends.
Qed.

Lemma editMultipleImages_runs (this : DalleService) (prompt : string)
    (imagePaths : list string) (options : Options) (w : World) :
  postsThenReconciles
    (fun saveDir fileName =>
       plainReconcile (orStr (o_model options) "gpt-image-1") prompt
         saveDir fileName (orNum (o_n options) 1)
         (orStr (o_output_format options) "png") true)
    w (editMultipleImages this prompt imagePaths options w).
Proof.
  unfold editMultipleImages. apply caught_runs. unfold postEdits. sends.
Qed.

Lemma generateImage_runs (this : DalleService) (prompt : string)
    (options : Options) (w : World) :
  postsThenReconciles
    (fun saveDir fileName =>
       generateReconcile prompt saveDir fileName (orNum (o_n options) 1)
         (orStr (o_output_format options) "png"))
    w (generateImage this prompt options w).
Proof.
  unfold generateImage.
  match goal with |- context [attempt ?A] => set (phase1 := A) end.
  assert (H1 : sends (fun a => exists early, a = inl early /\ reportsFailure early)
                 (fun saveDir fileName data => ret (inr (saveDir, fileName, data)))
                 phase1).
  { unfold phase1.
    apply sends_bind; [apply resolveSaveDir_silent|intros saveDir].
    apply sends_bind; [apply fileNameOr_silent|intros fileName].
    apply sends_bind; [apply ensureWriteable_silent|intros checked].
    destruct checked as [u|err].
    - eapply sends_post. intros data. reflexivity.
    - apply sends_ret. eexists. split; [reflexivity|apply failure_reports]. }
  unfold postsThenReconciles, bind, attempt, ret.
  destruct (H1 w) as [(r & w' & Er & Ep & Hq)|(req & wa & sd & fn & Ep & Er)];
    rewrite Er.
  - destruct r as [a|e].
    + destruct (Hq a eq_refl) as (early & -> & Hf).
      do 2 eexists. split; [reflexivity|]. left. now split.
    + do 2 eexists. split; [reflexivity|]. left.
      split; [apply failure_reports|assumption].
  - destruct (axiosPost req) as [data|e] eqn:Ea.
    + unfold ret.
      destruct (generateReconcile prompt sd fn (orNum (o_n options) 1)
                  (orStr (o_output_format options) "png") data wa)
        as [[res|e] w2] eqn:Erec;
        do 2 eexists; (split; [reflexivity|]); right;
        exists req, wa; (split; [exact Ep|]); rewrite Ea;
        exists sd, fn; rewrite Erec; split;
        try reflexivity; apply failure_reports.
    + do 2 eexists. split; [reflexivity|]. right.
      exists req, wa. split; [exact Ep|]. rewrite Ea.
      split; [apply failure_reports|reflexivity].
Qed.

(** From the shape of a run to the counting of items. *)
Lemma runs_countsItems reconcile (w : World) out :
  (forall saveDir fileName data, silent (reconcile saveDir fileName data)) ->
  (forall saveDir fileName data w0 r w',
     reconcile saveDir fileName data w0 = (Ok r, w') ->
     success r = true /\
     exists paths, imagePaths r = Some paths /\
       forall items, member data "data" = JArr items ->
                     List.length paths = List.length items) ->
  postsThenReconciles reconcile w out -> countsItems w out.
Proof.
  intros Hs Hok (res & w' & -> & [[Hf Hp]|(req & wa & Hp & Hrun)]);
    exists res; (split; [reflexivity|]); cbn [snd].
  - pose proof Hf as (Hf' & _). now rewrite Hf'.
  - destruct (axiosPost req) as [data|e] eqn:Ea.
    + destruct Hrun as (sd & fn & Hrun).
      destruct (reconcile sd fn data wa) as [[r|e] w2] eqn:Er.
      * destruct Hrun as [-> ->].
        destruct (Hok _ _ _ _ _ _ Er) as (Hsucc & paths & Hpaths & Hlen).
        rewrite Hsucc. exists paths, req, data. repeat split; try assumption.
        rewrite <- Hp. exact (silent_run _ (Hs sd fn data) Er).
      * destruct Hrun as [Hf _]. pose proof Hf as (Hf' & _). now rewrite Hf'.
    + destruct Hrun as [Hf _]. pose proof Hf as (Hf' & _). now rewrite Hf'.
Qed.

(** From the shape of a run to all-or-nothing. *)
Lemma runs_allOrNothing (fails : JSValue -> Prop) reconcile (w : World) out :
  (forall saveDir fileName data, silent (reconcile saveDir fileName data)) ->
  (forall saveDir fileName data items w0,
     member data "data" = JArr items ->
     Exists fails items ->
     exists e w', reconcile saveDir fileName data w0 = (Throw e, w')) ->
  postsThenReconciles reconcile w out -> allOrNothing fails w out.
Proof.
  intros Hs Hfail (res & w' & -> & [[Hf Hp]|(req & wa & Hp & Hrun)]);
    exists res; (split; [reflexivity|]); cbn [snd];
    intros req' data items Hposted Hanswer Hdata Hex.
  - exact Hf.
  - destruct (axiosPost req) as [data0|e] eqn:Ea.
    + destruct Hrun as (sd & fn & Hrun).
      destruct (Hfail sd fn data0 items wa) as (e & w2 & Er).
      * assert (req' = req).
        { destruct (reconcile sd fn data0 wa) as [[r|e] w3] eqn:Er;
            destruct Hrun as [_ ->];
            pose proof (silent_run _ (Hs sd fn data0) Er) as P;
            rewrite P, Hp in Hposted;
            apply app_inj_tail in Hposted; now destruct Hposted. }
        subst req'. congruence.
      * assumption.
      * rewrite Er in Hrun. now destruct Hrun.
    + now destruct Hrun.
Qed.

End MethodFacts.

(* ================================================================== *)
(** ** The results of the four methods *)

Section ResultFacts.
Context `{RT : Runtime}.

(** C2, as amended: every call returns a result; when it reports
    success, its saved paths are as many as the items of the [data]
    array in the answer to the request it has posted (whatever count
    [n] was asked for); when it reports failure it has no paths. *)
Theorem C2_paths_count_items (this : DalleService)
    (prompt imagePath : string) (imagePaths : list string)
    (options : Options) (w : World) :
  countsItems w (generateImage this prompt options w) /\
  countsItems w (editImage this prompt imagePath options w) /\
  countsItems w (imageToImage this imagePath prompt options w) /\
  countsItems w (editMultipleImages this prompt imagePaths options w).
Proof.
  split; [|split; [|split]].
  - eapply runs_countsItems; [| |apply generateImage_runs].
    + intros. apply generateReconcile_silent.
    + cbv beta. intros. eapply generateReconcile_ok; eassumption.
  - eapply runs_countsItems; [| |apply editImage_runs].
    + intros. apply editReconcile_silent.
    + cbv beta. intros. eapply editReconcile_ok; eassumption.
  - eapply runs_countsItems; [| |apply imageToImage_runs].
    + intros. apply plainReconcile_silent.
    + cbv beta. intros. eapply plainReconcile_ok; eassumption.
  - eapply runs_countsItems; [| |apply editMultipleImages_runs].
    + intros. apply plainReconcile_silent.
    + cbv beta. intros. eapply plainReconcile_ok; eassumption.
Qed.

(** C3, as amended: when the answer to the request a method has posted
    holds an item that fails (for [generateImage] and [editImage]: not a
    record, a reference that cannot be fetched, no data or empty data
    under a recognised name, data that cannot be decoded; for
    [imageToImage] and [editMultipleImages]: not a record, or an [image]
    that cannot be decoded), the result reports failure with a message
    and no path, also when earlier items were saved; the files written for
    those earlier items are not removed: reconciliation ends in the file
    system they have left. *)
Theorem C3_failing_item_fails_batch (this : DalleService)
    (prompt imagePath : string) (imagePaths : list string)
    (options : Options) (w : World) :
  (allOrNothing (ItemFails true) w (generateImage this prompt options w) /\
   allOrNothing (ItemFails false) w
     (editImage this prompt imagePath options w) /\
   allOrNothing PlainItemFails w
     (imageToImage this imagePath prompt options w) /\
   allOrNothing PlainItemFails w
     (editMultipleImages this prompt imagePaths options w)) /\
  (forall saveDir fileName n fmt,
     keepsEarlierFiles (ItemFails true) (generateItem saveDir fileName n fmt)
       (generateReconcile prompt saveDir fileName n fmt)) /\
  (forall saveDir fileName n fmt,
     keepsEarlierFiles (ItemFails false) (editItem saveDir fileName n fmt)
       (editReconcile prompt saveDir fileName n fmt)) /\
  (forall model saveDir fileName n fmt withUsage,
     keepsEarlierFiles PlainItemFails (plainItem saveDir fileName n fmt)
       (plainReconcile model prompt saveDir fileName n fmt withUsage)).
Proof.
  split; [split; [|split; [|split]]|split; [|split]].
  - eapply runs_allOrNothing; [| |apply generateImage_runs].
    + intros. apply generateReconcile_silent.
    + cbv beta. intros. eapply generateReconcile_fails; eassumption.
  - eapply runs_allOrNothing; [| |apply editImage_runs].
    + intros. apply editReconcile_silent.
    + cbv beta. intros. eapply editReconcile_fails; eassumption.
  - eapply runs_allOrNothing; [| |apply imageToImage_runs].
    + intros. apply plainReconcile_silent.
    + cbv beta. intros. eapply plainReconcile_fails; eassumption.
  - eapply runs_allOrNothing; [| |apply editMultipleImages_runs].
    + intros. apply plainReconcile_silent.
    + cbv beta. intros. eapply plainReconcile_fails; eassumption.
  - intros. apply generateReconcile_keeps.
  - intros. apply editReconcile_keeps.
  - intros. apply plainReconcile_keeps.
Qed.

(** With an empty [data] array the loop of [imageToImage] and of
    [editMultipleImages] has nothing to do and success is reported. *)
Lemma plainReconcile_empty model prompt saveDir fileName n fmt u data w :
  member data "data" = JArr [] ->
  exists res,
    plainReconcile model prompt saveDir fileName n fmt u data w = (Ok res, w)
    /\ success res = true /\ imagePaths res = Some [].
Proof.
  intros Hd. unfold plainReconcile, bind, lift, getProp.
  rewrite (member_array_not_nullish _ Hd), Hd. cbn [plainLoop saveEach].
  unfold ret. eexists. repeat split.
Qed.

(** [generateImage] and [editImage] do check: a [data] member that is
    missing or is not a non-empty array makes them throw. *)
Lemma checked_reconcile_empty prompt saveDir fileName n fmt data w :
  (forall item rest, member data "data" <> JArr (item :: rest)) ->
  (exists e w', generateReconcile prompt saveDir fileName n fmt data w
                = (Throw e, w')) /\
  (exists e w', editReconcile prompt saveDir fileName n fmt data w
                = (Throw e, w')).
Proof.
  intros Hd. unfold generateReconcile, editReconcile, bind, lift, getProp,
    throw, ret.
  destruct (nullish data); cbv beta iota;
    [split; do 2 eexists; reflexivity|].
  destruct (member data "data") as [| | | | |[|item rest]|];
    try (split; do 2 eexists; reflexivity).
  exfalso. now apply (Hd item rest).
Qed.

End ResultFacts.

(** C2, the claim as stated fails: two images are asked for, the provider
    returns one, and the call succeeds with one path. *)
Lemma C2_one_path_for_two :
  let RT := TestDouble.runtime "/work" (Scenario.answering Scenario.oneImage)
              TestDouble.noWeb in
  let out := generateImage Scenario.service "a red ball" Scenario.twoBalls
               (TestDouble.start (H:=RT) Scenario.workDisk) in
  o_n Scenario.twoBalls = Some 2%float /\
  exists res, fst out = Ok res /\ success res = true /\
              imagePaths res = Some ["/work/ball-1.png"].
Proof. split; [reflexivity|]. eexists. vm_compute. repeat split. Qed.

(** C3, the claim as stated fails: the second item of the answer carries
    no data, the call reports failure and no path, and the file written
    for the first item is on disk afterwards. *)
Lemma C3_partial_file_left :
  let RT := TestDouble.runtime "/work"
              (Scenario.answering Scenario.imageThenNothing) TestDouble.noWeb in
  let out := generateImage Scenario.service "a red ball" Scenario.twoBalls
               (TestDouble.start (H:=RT) Scenario.workDisk) in
  (exists res, fst out = Ok res /\ success res = false /\
               imagePaths res = None) /\
  TestDouble.fileAt "/work/ball-1.png" (TestDouble.files Scenario.workDisk)
    = None /\
  TestDouble.fileAt "/work/ball-1.png" (TestDouble.files (w_fs (snd out)))
    = Some [Byte.x41; Byte.x42; Byte.x43].
Proof.
  split; [eexists; vm_compute; repeat split|].
  split; vm_compute; reflexivity.
Qed.

(** C6, where the code departs from the claim: the provider answers with
    an empty [data] array; [imageToImage] and [editMultipleImages] report
    success with no path, where [generateImage] and [editImage] report
    failure. *)
Theorem C6_empty_data_reported_as_success :
  let RT := TestDouble.runtime "/work" (Scenario.answering Scenario.noImage)
              TestDouble.noWeb in
  let w := TestDouble.start (H:=RT) Scenario.workDisk in
  (exists res, fst (imageToImage Scenario.service "/work/in.png" "a hat"
                      noOptions w) = Ok res /\
               success res = true /\ imagePaths res = Some []) /\
  (exists res, fst (editMultipleImages Scenario.service "a hat"
                      ["/work/in.png"] noOptions w) = Ok res /\
               success res = true /\ imagePaths res = Some []) /\
  (exists res, fst (generateImage Scenario.service "a hat" noOptions w)
                 = Ok res /\ success res = false) /\
  (exists res, fst (editImage Scenario.service "a hat" "/work/in.png"
                      noOptions w) = Ok res /\ success res = false).
Proof.
  repeat split; eexists; vm_compute; repeat split.
Qed.

(* ================================================================== *)
(** ** More about [normalizeSize] *)

Section NormalizeSizeMore.
Import Params Spec.

Lemma existsb_eqb_In (s : string) (l : list string) :
  existsb (String.eqb s) l = true <-> In s l.
Proof.
  rewrite existsb_exists. split.
  - intros (x & Hin & E). apply String.eqb_eq in E. now subst x.
  - intros H. exists s. split; [assumption|apply String.eqb_refl].
Qed.

Lemma normalizeSize_range (size : option string) :
  normalizeSize size = "auto" \/ In (normalizeSize size) SUPPORTED_SIZES.
Proof.
  unfold normalizeSize. destruct size as [s|]; [|now left].
  destruct ((s =? "") || (s =? "auto")); [now left|].
  destruct (existsb (String.eqb s) SUPPORTED_SIZES) eqn:E.
  { right. now apply existsb_eqb_In. }
  destruct (matchDims s) as [[g1 g2]|]; [|now left].
  right.
  destruct (closest_in (Str.parseInt g1) (Str.parseInt g2) SUPPORTED_SIZES
              (hd "" SUPPORTED_SIZES, Num.MAX_VALUE)) as [F|F].
  - rewrite F. now left.
  - exact F.
Qed.

Lemma normalizeSize_fixed (s : string) :
  s = "auto" \/ In s SUPPORTED_SIZES -> normalizeSize (Some s) = s.
Proof.
  intros [->|[E|[E|[E|[]]]]]; subst; reflexivity.
Qed.

(** X1: [normalizeSize] returns "auto" or one of the three supported
    sizes, whatever it is given: a request is never forwarded as it
    came unless it is one of them. *)
Theorem X1_normalizeSize_supported_or_auto (size : option string) :
  normalizeSize size = "auto" \/ In (normalizeSize size) SUPPORTED_SIZES.
Proof. apply normalizeSize_range. Qed.

(** X2: [normalizeSize] is idempotent: normalising a size it has
    returned gives that size back. *)
Theorem X2_normalizeSize_idempotent (size : option string) :
  normalizeSize (Some (normalizeSize size)) = normalizeSize size.
Proof. apply normalizeSize_fixed, normalizeSize_range. Qed.

End NormalizeSizeMore.

(* ================================================================== *)
(** ** The order of binary64 numbers *)

Section FloatOrder.

Ltac compare_cases :=
  repeat match goal with
         | |- context [Pos.compare_cont Eq ?a ?b] =>
             change (Pos.compare_cont Eq a b) with (Pos.compare a b)
         end;
  repeat match goal with
         | |- context [(?a ?= ?b)%Z] => destruct (Z.compare_spec a b)
         | |- context [(?a ?= ?b)%positive] => destruct (Pos.compare_spec a b)
         end;
  simpl; try discriminate; try reflexivity; try lia;
  intros; try discriminate; try reflexivity; try lia.

Lemma SFltb_trans (a b c : spec_float) :
  SFltb a b = true -> SFltb b c = true -> SFltb a c = true.
Proof.
  unfold SFltb, SFcompare.
  destruct a as [[]|[]| |[] ma ea], b as [[]|[]| |[] mb eb],
    c as [[]|[]| |[] mc ec];
    try discriminate; try reflexivity; try (intros; discriminate);
    compare_cases.
Qed.

Lemma SFltb_leb_trans (a b c : spec_float) :
  SFltb a b = true -> SFleb b c = true -> SFltb a c = true.
Proof.
  unfold SFltb, SFleb, SFcompare.
  destruct a as [[]|[]| |[] ma ea], b as [[]|[]| |[] mb eb],
    c as [[]|[]| |[] mc ec];
    try discriminate; try reflexivity; try (intros; discriminate);
    compare_cases.
Qed.

Lemma SFltb_total (a b : spec_float) :
  a <> S754_nan -> b <> S754_nan -> SFltb a b = false -> SFleb b a = true.
Proof.
  unfold SFltb, SFleb, SFcompare.
  destruct a as [[]|[]| |[] ma ea], b as [[]|[]| |[] mb eb];
    try discriminate; try reflexivity; try congruence;
    try (intros; discriminate); intros _ _;
    compare_cases.
Qed.

Lemma isNaN_spec (x : float) : Num.isNaN x = false -> Prim2SF x <> S754_nan.
Proof.
  unfold Num.isNaN. rewrite eqb_spec. intros H E. rewrite E in H. discriminate.
Qed.

Lemma ltb_trans (x y z : float) :
  PrimFloat.ltb x y = true -> PrimFloat.ltb y z = true ->
  PrimFloat.ltb x z = true.
Proof. rewrite !ltb_spec. apply SFltb_trans. Qed.

Lemma ltb_leb_trans (x y z : float) :
  PrimFloat.ltb x y = true -> PrimFloat.leb y z = true ->
  PrimFloat.ltb x z = true.
Proof. rewrite !ltb_spec, leb_spec. apply SFltb_leb_trans. Qed.

Lemma ltb_total (x y : float) :
  Num.isNaN x = false -> Num.isNaN y = false ->
  PrimFloat.ltb x y = false -> PrimFloat.leb y x = true.
Proof.
  intros Hx Hy. rewrite ltb_spec, leb_spec.
  apply SFltb_total; now apply isNaN_spec.
Qed.

End FloatOrder.

Section ClosestFacts.
Import Params Spec.

Lemma closest_snoc (w h : float) (sizes : list string) (c : string)
    (init : string * float) :
  closest w h (sizes ++ [c]) init = step w h (closest w h sizes init) c.
Proof. unfold closest. now rewrite fold_left_app. Qed.

(** The state of the scoring loop after the candidates [sizes]: either
    no candidate scored below the initial bound and the state is the
    initial one, or the state holds the first minimiser and its score. *)
Lemma closest_spec (w h : float) (c0 : string) (B : float)
    (sizes : list string) :
  Num.isNaN B = false ->
  (forall c, In c sizes -> Num.isNaN (combinedScore w h c) = false) ->
  (closest w h sizes (c0, B) = (c0, B) /\
   forall c, In c sizes -> PrimFloat.ltb (combinedScore w h c) B = false)
  \/
  (exists r, closest w h sizes (c0, B) = (r, combinedScore w h r) /\
             firstMinimizer (combinedScore w h) sizes r /\
             PrimFloat.ltb (combinedScore w h r) B = true).
Proof.
  intros HB. induction sizes as [|c l IH] using rev_ind; intros Hn.
  - left. split; [reflexivity|]. intros c [].
  - rewrite closest_snoc.
    assert (Hc : Num.isNaN (combinedScore w h c) = false).
    { apply Hn. apply in_or_app. right. now left. }
    destruct IH as [[E None]|(r & E & (before & after & L & Hb & Ha) & Hr)].
    + intros d Hd. apply Hn. apply in_or_app. now left.
    + rewrite E. unfold step. cbn [snd].
      destruct (PrimFloat.ltb (combinedScore w h c) B) eqn:Lt.
      * right. exists c. split; [reflexivity|]. split; [|assumption].
        exists l, []. split; [reflexivity|]. split; [|intros d []].
        intros d Hd. eapply ltb_leb_trans; [eassumption|].
        apply ltb_total; [|assumption|now apply None].
        apply Hn. apply in_or_app. now left.
      * left. split; [reflexivity|]. intros d Hd.
        apply in_app_or in Hd. destruct Hd as [Hd|[<-|[]]];
          [now apply None|assumption].
    + rewrite E. unfold step. cbn [snd].
      assert (Hrn : Num.isNaN (combinedScore w h r) = false).
      { apply Hn. apply in_or_app. left. rewrite L. apply in_or_app.
        right. now left. }
      destruct (PrimFloat.ltb (combinedScore w h c) (combinedScore w h r))
        eqn:Lt.
      * right. exists c. split; [reflexivity|]. split.
        -- exists l, []. split; [reflexivity|]. split; [|intros d []].
           intros d Hd. rewrite L in Hd. apply in_app_or in Hd.
           destruct Hd as [Hd|[<-|Hd]].
           ++ eapply ltb_trans; [eassumption|now apply Hb].
           ++ assumption.
           ++ eapply ltb_leb_trans; [eassumption|now apply Ha].
        -- eapply ltb_trans; eassumption.
      * right. exists r. split; [reflexivity|]. split; [|assumption].
        exists before, (after ++ [c])%list. split.
        -- rewrite L, <- app_assoc. reflexivity.
        -- split; [assumption|]. intros d Hd. apply in_app_or in Hd.
           destruct Hd as [Hd|[<-|[]]]; [now apply Ha|].
           now apply ltb_total.
Qed.

End ClosestFacts.

Section NormalizeSizeScoring.
Import Params Spec.

Lemma normalizeSize_scored (s g1 g2 : string) :
  s <> "" -> s <> "auto" -> ~ In s SUPPORTED_SIZES ->
  matchDims s = Some (g1, g2) ->
  normalizeSize (Some s)
    = fst (closest (Str.parseInt g1) (Str.parseInt g2) SUPPORTED_SIZES
             ("1024x1024", Num.MAX_VALUE)).
Proof.
  intros He Ha Hs Hm. unfold normalizeSize.
  apply String.eqb_neq in He, Ha. rewrite He, Ha. cbn [orb].
  destruct (existsb (String.eqb s) SUPPORTED_SIZES) eqn:E.
  { exfalso. apply Hs. now apply existsb_eqb_In. }
  now rewrite Hm.
Qed.

(** X3: take a request that is not empty, not "auto" and not a supported
    size, in which the dimensions [g1] and [g2] are found, and for which
    the score 1000 * |ratio difference| + |area difference| of every
    supported size is a number.  If some score is below
    [Number.MAX_VALUE], [normalizeSize] returns the supported size of
    least score, the first one among equals; if none is (dimensions so
    large that every score is infinite), it returns the first supported
    size. *)
Theorem X3_normalizeSize_first_minimizer (s g1 g2 : string) :
  s <> "" -> s <> "auto" -> ~ In s SUPPORTED_SIZES ->
  matchDims s = Some (g1, g2) ->
  (forall c, In c SUPPORTED_SIZES ->
     Num.isNaN (combinedScore (Str.parseInt g1) (Str.parseInt g2) c) = false) ->
  let score := combinedScore (Str.parseInt g1) (Str.parseInt g2) in
  (firstMinimizer score SUPPORTED_SIZES (normalizeSize (Some s)) /\
   PrimFloat.ltb (score (normalizeSize (Some s))) Num.MAX_VALUE = true)
  \/
  (normalizeSize (Some s) = "1024x1024" /\
   forall c, In c SUPPORTED_SIZES -> PrimFloat.ltb (score c) Num.MAX_VALUE = false).
Proof.
  intros He Ha Hs Hm Hn score.
  rewrite (normalizeSize_scored He Ha Hs Hm).
  destruct (@closest_spec (Str.parseInt g1) (Str.parseInt g2) "1024x1024"
              Num.MAX_VALUE SUPPORTED_SIZES eq_refl Hn)
    as [[E None]|(r & E & Hmin & Hlt)]; rewrite E; cbn [fst].
  - right. now split.
  - left. now split.
Qed.

End NormalizeSizeScoring.

(** X3, an instance: 800 by 600, written with a capital X inside a
    sentence. *)
Lemma X3_witness :
  let score := Params.combinedScore 800 600 in
  (Spec.firstMinimizer score Params.SUPPORTED_SIZES
     (Params.normalizeSize (Some "about 800X600 pixels")) /\
   PrimFloat.ltb (score (Params.normalizeSize (Some "about 800X600 pixels")))
     Num.MAX_VALUE = true)
  \/
  (Params.normalizeSize (Some "about 800X600 pixels") = "1024x1024" /\
   forall c, In c Params.SUPPORTED_SIZES ->
             PrimFloat.ltb (score c) Num.MAX_VALUE = false).
Proof.
  apply (@X3_normalizeSize_first_minimizer "about 800X600 pixels" "800" "600").
  - discriminate.
  - discriminate.
  - intros [E|[E|[E|[]]]]; discriminate.
  - vm_compute. reflexivity.
  - intros c [<-|[<-|[<-|[]]]]; vm_compute; reflexivity.
Defined.


Section NormalizeSizeEmbedded.
Import Params Spec.

Lemma spanDigits_run (d rest : string) :
  allDigits d = true -> startsWithDigit rest = false ->
  Str.spanDigits (d ++ rest) = (d, rest).
Proof.
  intros Hd Hr. induction d as [|c d IH]; cbn [append].
  - destruct rest as [|c r]; [reflexivity|]. cbn in *. now rewrite Hr.
  - cbn [allDigits] in Hd. apply andb_true_iff in Hd. destruct Hd as [Hc Hd].
    cbn [Str.spanDigits]. rewrite Hc, (IH Hd). reflexivity.
Qed.

Lemma matchHere_run (W H post : string) (sep : ascii) :
  W <> "" -> allDigits W = true -> isSep sep = true ->
  H <> "" -> allDigits H = true -> startsWithDigit post = false ->
  matchHere (W ++ String sep (H ++ post)) = Some (W, H).
Proof.
  intros Wne Wd Hsep Hne Hd Hpost. unfold matchHere.
  rewrite (@spanDigits_run W (String sep (H ++ post)) Wd
             (isSep_not_digit _ Hsep)).
  destruct W as [|w0 W']; [congruence|]. rewrite Hsep.
  rewrite (@spanDigits_run H post Hd Hpost).
  destruct H as [|h0 H']; [congruence|reflexivity].
Qed.

Lemma matchDims_skip (pre t : string) :
  noDigits pre = true -> matchDims (pre ++ t) = matchDims t.
Proof.
  induction pre as [|c pre IH]; [reflexivity|]. cbn [noDigits append].
  intros Hn. apply andb_true_iff in Hn. destruct Hn as [Hc Hn].
  apply negb_true_iff in Hc.
  cbn [matchDims]. unfold matchHere at 1. cbn [Str.spanDigits].
  rewrite Hc. now apply IH.
Qed.

Lemma matchDims_run (pre W H post : string) (sep : ascii) :
  noDigits pre = true ->
  W <> "" -> allDigits W = true -> isSep sep = true ->
  H <> "" -> allDigits H = true -> startsWithDigit post = false ->
  matchDims (pre ++ W ++ String sep (H ++ post)) = Some (W, H).
Proof.
  intros Hpre Wne Wd Hsep Hne Hd Hpost. rewrite (@matchDims_skip pre _ Hpre).
  pose proof (@matchHere_run W H post sep Wne Wd Hsep Hne Hd Hpost) as E.
  destruct (W ++ String sep (H ++ post)); cbn [matchDims]; now rewrite E.
Qed.

Lemma append_nil (s : string) : s ++ "" = s.
Proof. induction s; simpl; congruence. Qed.

(** What [normalizeSize] returns on a string in which the dimensions
    [g1] and [g2] are found. *)
Lemma normalizeSize_found (s g1 g2 : string) :
  matchDims s = Some (g1, g2) ->
  normalizeSize (Some s)
    = if existsb (String.eqb s) SUPPORTED_SIZES then s
      else fst (closest (Str.parseInt g1) (Str.parseInt g2) SUPPORTED_SIZES
                  ("1024x1024", Num.MAX_VALUE)).
Proof.
  intros Hm. unfold normalizeSize.
  destruct (s =? "") eqn:Ee.
  { apply String.eqb_eq in Ee. subst s. discriminate. }
  destruct (s =? "auto") eqn:Ea.
  { apply String.eqb_eq in Ea. subst s. discriminate. }
  cbn [orb]. now rewrite Hm.
Qed.

(** A supported size is the closest one to its own dimensions. *)
Lemma supported_closest (s g1 g2 : string) :
  In s SUPPORTED_SIZES -> matchDims s = Some (g1, g2) ->
  fst (closest (Str.parseInt g1) (Str.parseInt g2) SUPPORTED_SIZES
         ("1024x1024", Num.MAX_VALUE)) = s /\
  s = g1 ++ String "x" g2.
Proof.
  intros [<-|[<-|[<-|[]]]] E; vm_compute in E; injection E as <- <-;
    split; vm_compute; reflexivity.
Qed.

(** X4: the text around the dimensions and the case of the separator do
    not count.  For a run of digits [W], an "x" or "X" and a run of
    digits [H], after a text [pre] without digits and before a text
    [post] that does not go on with a digit, [normalizeSize] returns what
    it returns for [W], "x", [H] alone. *)
Theorem X4_normalizeSize_embedded (pre W H post : string) (sep : ascii) :
  noDigits pre = true ->
  W <> "" -> allDigits W = true -> isSep sep = true ->
  H <> "" -> allDigits H = true -> startsWithDigit post = false ->
  normalizeSize (Some (pre ++ W ++ String sep (H ++ post)))
    = normalizeSize (Some (W ++ String "x" H)).
Proof.
  intros Hpre Wne Wd Hsep Hne Hd Hpost.
  pose proof (@matchDims_run pre W H post sep Hpre Wne Wd Hsep Hne Hd Hpost) as Es.
  pose proof (@matchDims_run "" W H "" "x" eq_refl Wne Wd eq_refl Hne Hd
                eq_refl) as Et.
  cbn [append] in Et. rewrite append_nil in Et.
  rewrite (@normalizeSize_found _ _ _ Es), (@normalizeSize_found _ _ _ Et).
  destruct (existsb (String.eqb (pre ++ W ++ String sep (H ++ post)))
              SUPPORTED_SIZES) eqn:Fs;
    destruct (existsb (String.eqb (W ++ String "x" H)) SUPPORTED_SIZES) eqn:Ft;
    try apply existsb_eqb_In in Fs; try apply existsb_eqb_In in Ft.
  - now destruct (@supported_closest _ _ _ Fs Es) as [_ ->].
  - now destruct (@supported_closest _ _ _ Fs Es) as [-> _].
  - now destruct (@supported_closest _ _ _ Ft Et) as [-> _].
  - reflexivity.
Qed.

End NormalizeSizeEmbedded.

(** X4, an instance: a landscape size with a capital X and a unit. *)
Lemma X4_witness :
  Params.normalizeSize (Some "size=1536X1024px")
    = Params.normalizeSize (Some "1536x1024").
Proof.
  apply (@X4_normalizeSize_embedded "size=" "1536" "1024" "px" "X");
    solve [reflexivity | discriminate].
Defined.


(* ================================================================== *)
(** ** More about [resolveSaveDir] *)

Section ResolveSaveDirMore.
Context `{RT : Runtime}.

(** X5: without a directory (the argument absent or empty)
    [resolveSaveDir] tries to create the current directory and returns
    the current directory in every case: whether it could be created or
    is writable changes nothing, and the empty string behaves as no
    argument. *)
Theorem X5_resolveSaveDir_default (w : World) :
  resolveSaveDir None w
    = (Ok cwd, setFS w (snd (ensureDir cwd (w_fs w)))) /\
  resolveSaveDir (Some "") w = resolveSaveDir None w.
Proof.
  split.
  - rewrite resolveSaveDir_run. cbn [resolvedPathOf].
    destruct (fst (ensureDir cwd (w_fs w))); [|reflexivity].
    destruct (access_W_OK cwd _); reflexivity.
  - now rewrite !resolveSaveDir_run.
Qed.

End ResolveSaveDirMore.

(* ================================================================== *)
(** ** The requests the methods post *)

Section PostFacts.
Context `{RT : Runtime}.

Lemma postsOnly_silent {A} (P : Request -> Prop) (m : M A) :
  silent m -> postsOnly P m.
Proof.
  intros H w. exists []. split; [|constructor].
  rewrite app_nil_r. apply H.
Qed.

Lemma postsOnly_bind {A B} (P : Request -> Prop) (Q : A -> Prop)
    (m : M A) (k : A -> M B) :
  silent m -> yields Q m -> (forall a, Q a -> postsOnly P (k a)) ->
  postsOnly P (bind m k).
Proof.
  intros Hs Hy Hk w. unfold bind.
  destruct (m w) as [[a|e] w1] eqn:E.
  - destruct (Hk a (Hy _ _ _ E) w1) as (l & El & Hl).
    exists l. split; [|assumption].
    rewrite El. now rewrite (silent_run _ Hs E).
  - exists []. split; [|constructor]. cbn [snd].
    rewrite app_nil_r. exact (silent_run _ Hs E).
Qed.

Lemma postsOnly_post {A} (P : Request -> Prop) (req : Request)
    (k : JSValue -> M A) :
  P req -> (forall data, silent (k data)) -> postsOnly P (bind (post req) k).
Proof.
  intros Hp Hk w. exists [req]. split; [|now constructor].
  unfold bind, post. destruct (axiosPost req) as [data|e]; cbn [snd].
  - now rewrite Hk.
  - reflexivity.
Qed.

Lemma postsOnly_attempt {A} (P : Request -> Prop) (m : M A) :
  postsOnly P m -> postsOnly P (attempt m).
Proof.
  intros H w. destruct (H w) as (l & El & Hl). exists l.
  split; [|assumption]. unfold attempt.
  destruct (m w) as [[a|e] w1]; exact El.
Qed.

Lemma yields_any {A} (m : M A) : yields (fun _ => True) m.
Proof. intros w a w' _. exact I. Qed.

(** What a run has posted, from its shape. *)
Lemma runs_posted reconcile (w : World) out :
  (forall saveDir fileName data, silent (reconcile saveDir fileName data)) ->
  postsThenReconciles reconcile w out ->
  w_posted (snd out) = w_posted w \/
  exists req, w_posted (snd out) = (w_posted w ++ [req])%list.
Proof.
  intros Hs (res & w' & -> & [[_ Hp]|(req & wa & Hp & Hrun)]); cbn [snd].
  - now left.
  - right. exists req. destruct (axiosPost req) as [data|e].
    + destruct Hrun as (sd & fn & Hrun).
      destruct (reconcile sd fn data wa) as [[r|e] w2] eqn:Er;
        destruct Hrun as [_ ->];
        rewrite <- Hp; exact (silent_run _ (Hs sd fn data) Er).
    + now destruct Hrun as [_ ->].
Qed.

Lemma postsOnly_atMostOne {A} (P : Request -> Prop) (m : M A) (w : World) :
  postsOnly P m ->
  (w_posted (snd (m w)) = w_posted w \/
   exists req, w_posted (snd (m w)) = (w_posted w ++ [req])%list) ->
  postsAtMostOne P w (m w).
Proof.
  intros Ho Hone. destruct (Ho w) as (l & El & Hl). exists l.
  split; [assumption|]. split; [|assumption].
  destruct Hone as [E|(req & E)]; rewrite E in El.
  - rewrite <- (app_nil_r (w_posted w)) in El at 1.
    apply app_inv_head in El. subst l. simpl. lia.
  - apply app_inv_head in El. subst l. simpl. lia.
Qed.

End PostFacts.

Tactic Notation "quiet_step" ident(x) :=
  eapply postsOnly_bind with (Q := fun _ => True);
  [ first [ apply resolveSaveDir_silent | apply fileNameOr_silent
          | apply ensureWriteable_silent | apply firstMissing_silent
          | solve [silent] ]
  | apply yields_any
  | intros x _ ].

Ltac prepare_steps :=
  let saveDir := fresh "saveDir" in
  let fileName := fresh "fileName" in
  let checked := fresh "checked" in
  quiet_step saveDir; quiet_step fileName; quiet_step checked;
  destruct checked as [?|?].

Section RequestShape.
Context `{RT : Runtime}.

Lemma postsOnly_seq {A B} (P : Request -> Prop) (m : M A) (k : A -> M B) :
  postsOnly P m -> (forall a, postsOnly P (k a)) -> postsOnly P (bind m k).
Proof.
  intros Hm Hk w. unfold bind. destruct (Hm w) as (l1 & E1 & H1).
  destruct (m w) as [[a|e] w1]; cbn [snd] in *.
  - destruct (Hk a w1) as (l2 & E2 & H2). exists (l1 ++ l2)%list.
    split; [|now apply Forall_app]. now rewrite E2, E1, app_assoc.
  - exists l1. now split.
Qed.

Lemma generateImage_postsOnly (this : DalleService) (prompt : string)
    (options : Options) :
  postsOnly (eq (generationRequest this prompt options))
    (generateImage this prompt options).
Proof.
  unfold generateImage. apply postsOnly_seq.
  - apply postsOnly_attempt. prepare_steps.
    + apply postsOnly_post; [reflexivity|]. intros data. apply silent_ret.
    + apply postsOnly_silent, silent_ret.
  - intros [[early|[[saveDir fileName] data]]|e]; apply postsOnly_silent;
      try apply silent_ret.
    apply silent_bind; [apply silent_attempt, generateReconcile_silent|].
    intros [r|e]; apply silent_ret.
Qed.

End RequestShape.

Section Preparation.
Context `{RT : Runtime}.

Lemma fileNameOr_run (fileName : option string) (prefix : string) (w : World) :
  exists fn w', fileNameOr fileName prefix w = (Ok fn, w') /\
                w_fs w' = w_fs w /\ w_posted w' = w_posted w.
Proof.
  unfold fileNameOr, bind, now, ret.
  destruct fileName as [f|]; [destruct (f =? "")|];
    do 2 eexists; (split; [reflexivity|split; reflexivity]).
Qed.

(** The writability check reads and changes the file system only. *)
Lemma ensureWriteable_fs (saveDir : string) (w w' : World) checked w2 :
  ensureWriteable saveDir w = (Ok checked, w2) -> w_fs w' = w_fs w ->
  ensureWriteable saveDir w' = (Ok checked, setFS w' (w_fs w2)).
Proof.
  unfold ensureWriteable, attempt, bind, onFS, tryFS, setFS.
  intros H E. rewrite E.
  destruct (ensureDir saveDir (w_fs w)) as [[u|e] fs'].
  - destruct (access_W_OK saveDir _) as [u'|e]; cbn [w_fs] in *;
      injection H as <- <-; reflexivity.
  - injection H as <- <-. reflexivity.
Qed.

(** The steps every method starts with. *)
Lemma prepared {A} (o f : option string) (p : string)
    (k : string -> string -> unit + Exn -> M A) (w : World)
    saveDir w1 checked w2 :
  resolveSaveDir o w = (Ok saveDir, w1) ->
  ensureWriteable saveDir w1 = (Ok checked, w2) ->
  exists fileName w3,
    bind (resolveSaveDir o)
      (fun saveDir =>
         bind (fileNameOr f p)
           (fun fileName =>
              bind (ensureWriteable saveDir) (k saveDir fileName))) w
    = k saveDir fileName checked w3 /\
    w_fs w3 = w_fs w2 /\ w_posted w3 = w_posted w.
Proof.
  intros H1 H2.
  destruct (fileNameOr_run f p w1) as (fn & w1' & Ef & Efs & Ep).
  exists fn, (setFS w1' (w_fs w2)).
  unfold bind at 1. rewrite H1. unfold bind at 1. rewrite Ef.
  unfold bind at 1. rewrite (@ensureWriteable_fs saveDir w1 w1' checked w2 H2 Efs).
  split; [reflexivity|]. split; [reflexivity|].
  cbn [setFS w_posted]. rewrite Ep.
  exact (silent_run _ (resolveSaveDir_silent o) H1).
Qed.

End Preparation.

Ltac prepare H1 H2 :=
  match goal with
  | |- context [bind (resolveSaveDir ?o)
                  (fun saveDir =>
                     bind (fileNameOr ?f ?p)
                       (fun fileName =>
                          bind (ensureWriteable saveDir)
                            (@?k saveDir fileName))) ?w] =>
      let fn := fresh "fileName" in
      let w3 := fresh "w3" in
      let E := fresh "Erun" in
      let Efs := fresh "Efs" in
      let Ep := fresh "Eposted" in
      destruct (@prepared _ _ o f p k w _ _ _ _ H1 H2)
        as (fn & w3 & E & Efs & Ep);
      rewrite E; clear E; cbv beta iota
  end.

Section EarlyFailures.
Context `{RT : Runtime}.

(** X6: when the directory [resolveSaveDir] has returned cannot be
    created or written, each of the four methods returns the failure that
    names the directory and gives the message of the error, has posted
    nothing, and leaves the file system as the check has left it. *)
Theorem X6_unwriteable_directory_reported (this : DalleService)
    (prompt imagePath : string) (imagePaths : list string)
    (options : Options) (w : World) saveDir w1 err w2 :
  resolveSaveDir (o_saveDirPath options) w = (Ok saveDir, w1) ->
  ensureWriteable saveDir w1 = (Ok (inr err), w2) ->
  Forall (fun out : Outcome ImageGenerationResult * World =>
            exists w3, out = (Ok (notWriteable saveDir err), w3) /\
                       w_posted w3 = w_posted w /\ w_fs w3 = w_fs w2)
    [generateImage this prompt options w;
     editImage this prompt imagePath options w;
     imageToImage this imagePath prompt options w;
     editMultipleImages this prompt imagePaths options w].
Proof.
  intros H1 H2.
  repeat apply Forall_cons; [| | | |apply Forall_nil].
  - unfold generateImage, bind at 1, attempt at 1. prepare H1 H2.
    unfold ret. eauto.
  - unfold editImage, bind at 1, attempt at 1. prepare H1 H2.
    unfold ret. eauto.
  - unfold imageToImage, bind at 1, attempt at 1. prepare H1 H2.
    unfold ret. eauto.
  - unfold editMultipleImages, bind at 1, attempt at 1. prepare H1 H2.
    unfold ret. eauto.
Qed.

Lemma firstMissing_run (before after : list string) (p : string) (w : World) :
  forallb (fun q => pathExists q (w_fs w)) before = true ->
  pathExists p (w_fs w) = false ->
  firstMissing (before ++ p :: after) w = (Ok (Some p), w).
Proof.
  intros Hb Hp. induction before as [|q before IH]; cbn [app firstMissing].
  - unfold bind, readFS. rewrite Hp. reflexivity.
  - cbn [forallb] in Hb. apply andb_true_iff in Hb. destruct Hb as [Hq Hb].
    unfold bind at 1, readFS at 1. rewrite Hq. cbn [negb]. now apply IH.
Qed.

(** X7: when the save directory is writable and the input image does not
    exist, [editImage] and [imageToImage] return the failure "Image file
    not found" with its path and post nothing; [editMultipleImages] does
    so for the first of its paths that does not exist. *)
Theorem X7_missing_image_reported (this : DalleService)
    (prompt imagePath : string) (before after : list string)
    (options : Options) (w : World) saveDir w1 w2 :
  resolveSaveDir (o_saveDirPath options) w = (Ok saveDir, w1) ->
  ensureWriteable saveDir w1 = (Ok (inl tt), w2) ->
  forallb (fun q => pathExists q (w_fs w2)) before = true ->
  pathExists imagePath (w_fs w2) = false ->
  Forall (fun out : Outcome ImageGenerationResult * World =>
            exists w3,
              out = (Ok (failure ("Image file not found: " ++ imagePath)), w3) /\
              w_posted w3 = w_posted w /\ w_fs w3 = w_fs w2)
    [editImage this prompt imagePath options w;
     imageToImage this imagePath prompt options w;
     editMultipleImages this prompt (before ++ imagePath :: after) options w].
Proof.
  intros H1 H2 Hb Hp.
  repeat apply Forall_cons; [| | |apply Forall_nil].
  - unfold editImage, bind at 1, attempt at 1. prepare H1 H2.
    unfold bind at 1, readFS at 1. rewrite Efs, Hp. cbn [negb].
    unfold ret. eauto.
  - unfold imageToImage, bind at 1, attempt at 1. prepare H1 H2.
    unfold bind at 1, readFS at 1. rewrite Efs, Hp. cbn [negb].
    unfold ret. eauto.
  - unfold editMultipleImages, bind at 1, attempt at 1. prepare H1 H2.
    unfold bind at 1. rewrite <- Efs in Hb, Hp.
    rewrite (@firstMissing_run before after imagePath w3 Hb Hp).
    unfold ret. eauto.
Qed.

(** X8: when the save directory is writable, the image exists and a mask
    is given that does not exist, [editImage] returns the failure "Mask
    file not found" with the path of the mask and posts nothing. *)
Theorem X8_missing_mask_reported (this : DalleService)
    (prompt imagePath mask : string) (options : Options) (w : World)
    saveDir w1 w2 :
  resolveSaveDir (o_saveDirPath options) w = (Ok saveDir, w1) ->
  ensureWriteable saveDir w1 = (Ok (inl tt), w2) ->
  pathExists imagePath (w_fs w2) = true ->
  o_mask options = Some mask -> mask <> "" ->
  pathExists mask (w_fs w2) = false ->
  exists w3,
    editImage this prompt imagePath options w
      = (Ok (failure ("Mask file not found: " ++ mask)), w3) /\
    w_posted w3 = w_posted w /\ w_fs w3 = w_fs w2.
Proof.
  intros H1 H2 Hi Hm Hne Hp.
  unfold editImage, bind at 1, attempt at 1. prepare H1 H2.
  unfold bind at 1, readFS at 1. rewrite Efs, Hi. cbn [negb].
  rewrite Hm. cbn [orStr].
  repeat (rewrite (nonempty_eqb Hne); cbv beta iota).
  unfold bind at 1, readFS at 1. rewrite Efs, Hp. cbn [negb].
    unfold ret. eauto.
Qed.

End EarlyFailures.

(** X6, an instance: a working directory that is read-only. *)
Lemma X6_witness :
  let RT := TestDouble.runtime "/srv" (Scenario.answering JNull) TestDouble.noWeb in
  let w := TestDouble.start (H:=RT) Scenario.readOnlyDisk in
  Forall (fun out : Outcome ImageGenerationResult * World =>
            exists w3,
              out = (Ok (notWriteable "/srv"
                           (TestDouble.denied "access" "/srv")), w3) /\
              w_posted w3 = w_posted w /\ w_fs w3 = w_fs w)
    [generateImage Scenario.service "a hat" noOptions w;
     editImage Scenario.service "a hat" "/srv/in.png" noOptions w;
     imageToImage Scenario.service "/srv/in.png" "a hat" noOptions w;
     editMultipleImages Scenario.service "a hat" ["/srv/in.png"] noOptions w].
Proof.
  intros RT w.
  apply (@X6_unwriteable_directory_reported RT Scenario.service "a hat"
           "/srv/in.png" ["/srv/in.png"] noOptions w "/srv" w
           (TestDouble.denied "access" "/srv") w);
    reflexivity.
Defined.

(** X7, an instance: the second of two input images is missing. *)
Lemma X7_witness :
  let RT := TestDouble.runtime "/work" (Scenario.answering JNull) TestDouble.noWeb in
  let w := TestDouble.start (H:=RT) Scenario.workDisk in
  Forall (fun out : Outcome ImageGenerationResult * World =>
            exists w3,
              out = (Ok (failure "Image file not found: /work/no.png"), w3) /\
              w_posted w3 = w_posted w /\ w_fs w3 = w_fs w)
    [editImage Scenario.service "a hat" "/work/no.png" noOptions w;
     imageToImage Scenario.service "/work/no.png" "a hat" noOptions w;
     editMultipleImages Scenario.service "a hat"
       (["/work/in.png"] ++ "/work/no.png" :: ["/work/in.png"]) noOptions w].
Proof.
  intros RT w.
  apply (@X7_missing_image_reported RT Scenario.service "a hat" "/work/no.png"
           ["/work/in.png"] ["/work/in.png"] noOptions w "/work" w w);
    reflexivity.
Defined.

(** X8, an instance: the mask file is missing. *)
Lemma X8_witness :
  let RT := TestDouble.runtime "/work" (Scenario.answering JNull) TestDouble.noWeb in
  let w := TestDouble.start (H:=RT) Scenario.workDisk in
  let options := mkOptions (Some "/work/mask.png") None None None None None
                   None None None None None in
  exists w3,
    editImage Scenario.service "a hat" "/work/in.png" options w
      = (Ok (failure "Mask file not found: /work/mask.png"), w3) /\
    w_posted w3 = w_posted w /\ w_fs w3 = w_fs w.
Proof.
  intros RT w options.
  apply (@X8_missing_mask_reported RT Scenario.service "a hat" "/work/in.png"
           "/work/mask.png" options w "/work" w w);
    solve [reflexivity | discriminate].
Defined.

(** *** The files of the edit requests *)

Section PostFactsOn.
Context `{RT : Runtime}.

Lemma postsOnlyOn_silent {A} (fs : FS) (P : Request -> Prop) (m : M A) :
  silent m -> postsOnlyOn fs P m.
Proof.
  intros H w _. exists []. split; [|constructor].
  rewrite app_nil_r. apply H.
Qed.

Lemma postsOnlyOn_bind {A B} (fs : FS) (P : Request -> Prop) (Q : A -> Prop)
    (m : M A) (k : A -> M B) :
  silent m -> yieldsOn fs Q m -> (forall a, Q a -> postsOnlyOn fs P (k a)) ->
  postsOnlyOn fs P (bind m k).
Proof.
  intros Hs Hy Hk w Hw. unfold bind.
  destruct (m w) as [[a|e] w1] eqn:E.
  - destruct (Hy w a w1 Hw E) as [Ha Hw1].
    destruct (Hk a Ha w1 Hw1) as (l & El & Hl).
    exists l. split; [|assumption].
    rewrite El. now rewrite (silent_run _ Hs E).
  - exists []. split; [|constructor]. cbn [snd].
    rewrite app_nil_r. exact (silent_run _ Hs E).
Qed.

Lemma postsOnlyOn_post {A} (fs : FS) (P : Request -> Prop) (req : Request)
    (k : JSValue -> M A) :
  P req -> (forall data, silent (k data)) ->
  postsOnlyOn fs P (bind (post req) k).
Proof.
  intros Hp Hk w _. exists [req]. split; [|now constructor].
  unfold bind, post. destruct (axiosPost req) as [data|e]; cbn [snd].
  - now rewrite Hk.
  - reflexivity.
Qed.

Lemma readFS_yieldsOn {A} (fs : FS) (op : FS -> A) :
  yieldsOn fs (fun _ => True) (readFS op).
Proof.
  intros w a w' Hw E. unfold readFS in E. injection E as _ <-. now split.
Qed.

Lemma fileField_yieldsOn (fs : FS) (field p : string) :
  yieldsOn fs (pngPart fs field p) (fileField field p).
Proof.
  intros w a w' Hw. unfold fileField, bind, tryFS, ret. rewrite Hw.
  destruct (readFile p fs) as [content|e] eqn:Er; [|discriminate].
  intros E. injection E as <- <-. split; [|assumption]. now exists content.
Qed.

Lemma fileFields_yieldsOn (fs : FS) (field : string) (imagePaths : list string) :
  yieldsOn fs (Forall2 (fun p part => pngPart fs field p part) imagePaths)
    (fileFields field imagePaths).
Proof.
  induction imagePaths as [|p rest IH]; intros w a w' Hw; cbn [fileFields].
  - unfold ret. intros E. injection E as <- <-. split; [constructor|assumption].
  - unfold bind at 1.
    destruct (fileField field p w) as [[f|e] w1] eqn:Ef; [|discriminate].
    destruct (@fileField_yieldsOn fs field p w f w1 Hw Ef) as [Hf Hw1].
    unfold bind at 1.
    destruct (fileFields field rest w1) as [[fs'|e] w2] eqn:Er; [|discriminate].
    destruct (IH w1 fs' w2 Hw1 Er) as [Hr Hw2].
    unfold ret. intros E. injection E as <- <-.
    split; [now constructor|assumption].
Qed.

Lemma firstMissing_yieldsOn (fs : FS) (imagePaths : list string) :
  yieldsOn fs (fun _ => True) (firstMissing imagePaths).
Proof.
  induction imagePaths as [|p rest IH]; intros w a w' Hw; cbn [firstMissing].
  - unfold ret. intros E. injection E as _ <-. now split.
  - unfold bind, readFS. destruct (negb (pathExists p (w_fs w))).
    + unfold ret. intros E. injection E as _ <-. now split.
    + now apply IH.
Qed.

(** The part [editImage] appends for the mask. *)
Lemma maskPart_yieldsOn (fs : FS) (options : Options) :
  let mask := orStr (o_mask options) "" in
  yieldsOn fs
    (fun maskPart =>
       match o_mask options with
       | None => maskPart = []
       | Some m =>
           if m =? "" then maskPart = []
           else exists part, pngPart fs "mask" m part /\ maskPart = [part]
       end)
    (if mask =? "" then ret []
     else bind (fileField "mask" mask) (fun m => ret [m])).
Proof.
  intros mask. subst mask. intros w a w' Hw.
  destruct (o_mask options) as [m|]; cbn [orStr].
  - destruct (m =? "") eqn:Em; cbn [String.eqb]; [|rewrite Em].
    + unfold ret. intros E. injection E as <- <-. now split.
    + unfold bind.
      destruct (fileField "mask" m w) as [[part|e] w1] eqn:Ef; [|discriminate].
      destruct (@fileField_yieldsOn fs "mask" m w part w1 Hw Ef) as [Hp Hw1].
      unfold ret. intros E. injection E as <- <-. split; [|assumption].
      now exists part.
  - unfold ret. cbn [String.eqb]. intros E. injection E as <- <-. now split.
Qed.

Lemma checkedFS_run (options : Options) (w : World) saveDir w1 checked w2 :
  resolveSaveDir (o_saveDirPath options) w = (Ok saveDir, w1) ->
  ensureWriteable saveDir w1 = (checked, w2) ->
  checkedFS options w = w_fs w2.
Proof. intros H1 H2. unfold checkedFS. now rewrite H1, H2. Qed.

End PostFactsOn.

Tactic Notation "quiet_step_on" ident(x) :=
  eapply postsOnlyOn_bind with (Q := fun _ => True);
  [ first [ apply firstMissing_silent | solve [silent] ]
  | first [ apply readFS_yieldsOn | apply firstMissing_yieldsOn ]
  | intros x _ ].

Section PreparationOn.
Context `{RT : Runtime}.

(** The log of posted requests after the [try] and its [catch]. *)
Lemma caught_posted {A B} (m : M A) (k : A + Exn -> M B) (w : World) :
  (forall done, silent (k done)) ->
  w_posted (snd (bind (attempt m) k w)) = w_posted (snd (m w)).
Proof.
  intros Hk. unfold bind, attempt.
  destruct (m w) as [[a|e] w1]; cbn [snd]; apply Hk.
Qed.

Lemma ensureWriteable_ok (saveDir : string) (w : World) :
  exists checked w2, ensureWriteable saveDir w = (Ok checked, w2).
Proof.
  unfold ensureWriteable, attempt.
  match goal with |- context [match ?m w with _ => _ end] =>
    destruct (m w) as [[u|e] w2] end; eauto.
Qed.

(** The steps before the files are read, and the file system they
    leave. *)
Lemma prepared_on {A} (options : Options) (p : string)
    (k : string -> string -> unit + Exn -> M A) (w : World) :
  exists saveDir fileName checked w3,
    bind (resolveSaveDir (o_saveDirPath options))
      (fun saveDir =>
         bind (fileNameOr (o_fileName options) p)
           (fun fileName =>
              bind (ensureWriteable saveDir) (k saveDir fileName))) w
    = k saveDir fileName checked w3 /\
    w_fs w3 = checkedFS options w /\ w_posted w3 = w_posted w.
Proof.
  pose proof (resolveSaveDir_run (o_saveDirPath options) w) as H1.
  cbv zeta in H1.
  match type of H1 with _ = (Ok ?d, ?w1) =>
    destruct (ensureWriteable_ok d w1) as (checked & w2 & H2);
    destruct (@prepared _ _ (o_saveDirPath options) (o_fileName options) p k w
                d w1 checked w2 H1 H2) as (fileName & w3 & E & Efs & Ep);
    exists d, fileName, checked, w3
  end.
  split; [exact E|]. split; [|exact Ep].
  rewrite Efs. symmetry. eapply checkedFS_run; eassumption.
Qed.

Lemma posted_on {A} (fs : FS) (P : Request -> Prop) (m : M A) (w w3 : World) :
  postsOnlyOn fs P m -> w_fs w3 = fs -> w_posted w3 = w_posted w ->
  exists l, w_posted (snd (m w3)) = (w_posted w ++ l)%list /\ Forall P l.
Proof. intros H Hfs Hp. rewrite <- Hp. now apply H. Qed.

End PreparationOn.

Ltac prepare_on :=
  match goal with
  | |- context [bind (resolveSaveDir (o_saveDirPath ?options))
                  (fun saveDir =>
                     bind (fileNameOr (o_fileName ?options) ?p)
                       (fun fileName =>
                          bind (ensureWriteable saveDir)
                            (@?k saveDir fileName))) ?w] =>
      let saveDir := fresh "saveDir" in
      let fn := fresh "fileName" in
      let checked := fresh "checked" in
      let w3 := fresh "w3" in
      let E := fresh "Erun" in
      let Efs := fresh "Efs" in
      let Ep := fresh "Eposted" in
      destruct (@prepared_on _ _ options p k w)
        as (saveDir & fn & checked & w3 & E & Efs & Ep);
      rewrite E; clear E; cbv beta iota;
      apply (@posted_on _ _ (checkedFS options w) _ _ w w3);
      [|exact Efs|exact Ep];
      destruct checked as [?|?]; cbv beta iota;
      [|apply postsOnlyOn_silent, silent_ret]
  end.

Section RequestShapeOn.
Context `{RT : Runtime}.

Lemma editImage_posted (this : DalleService) (prompt imagePath : string)
    (options : Options) (w : World) :
  exists l,
    w_posted (snd (editImage this prompt imagePath options w))
      = (w_posted w ++ l)%list /\
    Forall (editsRequest this prompt "gpt-image-1" options
              (editImageParts (checkedFS options w) imagePath options)) l.
Proof.
  unfold editImage.
  rewrite caught_posted by (intros [r|e]; apply silent_ret).
  prepare_on.
  quiet_step_on imageExists.
  destruct (negb imageExists); [apply postsOnlyOn_silent, silent_ret|].
  eapply postsOnlyOn_bind with (Q := fun _ => True);
    [ destruct (_ =? _); solve [silent]
    | destruct (_ =? _);
      [intros w0 a w' Hw E; injection E as _ <-; now split
      |apply readFS_yieldsOn]
    | intros maskExists _ ].
  destruct (negb maskExists); [apply postsOnlyOn_silent, silent_ret|].
  eapply postsOnlyOn_bind;
    [apply fileField_silent|apply fileField_yieldsOn|intros image Hi].
  eapply postsOnlyOn_bind;
    [|apply maskPart_yieldsOn|].
  - destruct (orStr (o_mask options) "" =? ""); [apply silent_ret|].
    apply silent_bind; [apply fileField_silent|intros m; apply silent_ret].
  - cbv beta. intros maskPart Hm. unfold postEdits. apply postsOnlyOn_post.
    + repeat split. exists ([image] ++ maskPart)%list.
      split; [reflexivity|]. exists image. split; [assumption|].
      destruct (o_mask options) as [m|]; [destruct (m =? "")|].
      * now subst maskPart.
      * destruct Hm as (part & Hp & ->). now exists part.
      * now subst maskPart.
    + intros data. apply editReconcile_silent.
Qed.

Lemma imageToImage_posted (this : DalleService) (imagePath prompt : string)
    (options : Options) (w : World) :
  exists l,
    w_posted (snd (imageToImage this imagePath prompt options w))
      = (w_posted w ++ l)%list /\
    Forall (editsRequest this prompt "gpt-image-1" options
              (fun parts => exists image,
                   parts = [image] /\
                   pngPart (checkedFS options w) "image" imagePath image)) l.
Proof.
  unfold imageToImage.
  rewrite caught_posted by (intros [r|e]; apply silent_ret).
  prepare_on.
  quiet_step_on imageExists.
  destruct (negb imageExists); [apply postsOnlyOn_silent, silent_ret|].
  eapply postsOnlyOn_bind;
    [apply fileField_silent|apply fileField_yieldsOn|intros image Hi].
  unfold postEdits. apply postsOnlyOn_post.
  - repeat split. exists [image]. split; [reflexivity|]. now exists image.
  - intros data. apply plainReconcile_silent.
Qed.

Lemma editMultipleImages_posted (this : DalleService) (prompt : string)
    (imagePaths : list string) (options : Options) (w : World) :
  exists l,
    w_posted (snd (editMultipleImages this prompt imagePaths options w))
      = (w_posted w ++ l)%list /\
    Forall (editsRequest this prompt (orStr (o_model options) "gpt-image-1")
              options
              (Forall2 (fun p part =>
                          pngPart (checkedFS options w) "image[]" p part)
                 imagePaths)) l.
Proof.
  unfold editMultipleImages.
  rewrite caught_posted by (intros [r|e]; apply silent_ret).
  prepare_on.
  quiet_step_on missing.
  destruct missing as [p|]; [apply postsOnlyOn_silent, silent_ret|].
  eapply postsOnlyOn_bind;
    [apply fileFields_silent|apply fileFields_yieldsOn|intros images Hi].
  unfold postEdits. apply postsOnlyOn_post.
  - repeat split. now exists images.
  - intros data. apply plainReconcile_silent.
Qed.

(** At most one request, from what the method may post and the shape of
    its run. *)
Lemma posted_atMostOne {A} (P : Request -> Prop) (w : World)
    (out : Outcome A * World) :
  (exists l, w_posted (snd out) = (w_posted w ++ l)%list /\ Forall P l) ->
  (w_posted (snd out) = w_posted w \/
   exists req, w_posted (snd out) = (w_posted w ++ [req])%list) ->
  postsAtMostOne P w out.
Proof.
  intros (l & El & Hl) Hone. exists l.
  split; [assumption|]. split; [|assumption].
  destruct Hone as [E|(req & E)]; rewrite E in El.
  - rewrite <- (app_nil_r (w_posted w)) in El at 1.
    apply app_inv_head in El. subst l. simpl. lia.
  - apply app_inv_head in El. subst l. simpl. lia.
Qed.

End RequestShapeOn.

Section RequestTheorems.
Context `{RT : Runtime}.
Import SpecRequest.

(** X9: [generateImage] posts at most one request, and what it posts is
    the JSON request to the generations endpoint whose body is
    [generateParams prompt options], authorised with the key of the
    service. *)
Theorem X9_generateImage_request (this : DalleService) (prompt : string)
    (options : Options) (w : World) :
  postsAtMostOne (eq (generationRequest this prompt options)) w
    (generateImage this prompt options w).
Proof.
  apply postsOnly_atMostOne; [apply generateImage_postsOnly|].
  eapply runs_posted; [|apply generateImage_runs].
  intros. cbv beta. apply generateReconcile_silent.
Qed.

(** X10: each of [editImage], [imageToImage] and [editMultipleImages]
    posts at most one request, and what it posts is a multipart request to
    the edits endpoint, authorised with the key of the service, whose
    form holds the text fields of [editFields] followed by the files as
    PNG parts, each with the content the file has once the directory to
    save to has been checked and named after the base name of its path:
    the image and then, exactly when a mask is given, the mask; the image;
    one part named image[] for each input path, in order. *)
Theorem X10_edit_requests (this : DalleService) (prompt imagePath : string)
    (imagePaths : list string) (options : Options) (w : World) :
  let fs := checkedFS options w in
  postsAtMostOne
    (editsRequest this prompt "gpt-image-1" options
       (editImageParts fs imagePath options))
    w (editImage this prompt imagePath options w) /\
  postsAtMostOne
    (editsRequest this prompt "gpt-image-1" options
       (fun parts => exists image,
            parts = [image] /\ pngPart fs "image" imagePath image))
    w (imageToImage this imagePath prompt options w) /\
  postsAtMostOne
    (editsRequest this prompt (orStr (o_model options) "gpt-image-1") options
       (Forall2 (fun p part => pngPart fs "image[]" p part) imagePaths))
    w (editMultipleImages this prompt imagePaths options w).
Proof.
  intros fs. split; [|split].
  - apply posted_atMostOne; [apply editImage_posted|].
    eapply runs_posted; [|apply editImage_runs].
    intros. cbv beta. apply editReconcile_silent.
  - apply posted_atMostOne; [apply imageToImage_posted|].
    eapply runs_posted; [|apply imageToImage_runs].
    intros. cbv beta. apply plainReconcile_silent.
  - apply posted_atMostOne; [apply editMultipleImages_posted|].
    eapply runs_posted; [|apply editMultipleImages_runs].
    intros. cbv beta. apply plainReconcile_silent.
Qed.

Lemma oneOf_spec (s : option string) (allowed : list string) :
  ~ In "" allowed ->
  (oneOf s allowed = true <-> exists q, s = Some q /\ In q allowed).
Proof.
  intros Hne. unfold oneOf. destruct s as [q|].
  - rewrite andb_true_iff, existsb_eqb_In, negb_true_iff. split.
    + intros [_ Hin]. now exists q.
    + intros (q' & E & Hin). injection E as <-. split; [|assumption].
      apply String.eqb_neq. intros ->. now apply Hne.
  - split; [discriminate|]. intros (q & E & _). discriminate.
Qed.

Lemma orStr_some (q d : string) : q <> "" -> orStr (Some q) d = q.
Proof. intros H. cbn. now rewrite (nonempty_eqb H). Qed.

(** The optional parameters of [generateImage], by name. *)
Lemma generateParams_optional (prompt : string) (options : Options) :
  let params := generateParams prompt options in
  lookup "quality" params
    = (if oneOf (o_quality options) ["auto"; "high"; "medium"; "low"]
       then Some (JStr (orStr (o_quality options) "")) else None) /\
  lookup "background" params
    = (if oneOf (o_background options) ["auto"; "transparent"; "opaque"]
       then Some (JStr (orStr (o_background options) "")) else None) /\
  lookup "moderation" params
    = (if oneOf (o_moderation options) ["auto"; "low"]
       then Some (JStr (orStr (o_moderation options) "")) else None) /\
  lookup "output_format" params
    = (if oneOf (o_output_format options) ["png"; "jpeg"; "webp"]
       then Some (JStr (orStr (o_output_format options) "")) else None).
Proof.
  unfold generateParams. repeat rewrite lookup_app.
  destruct (oneOf (o_quality options) _), (oneOf (o_background options) _),
    (oneOf (o_moderation options) _), (oneOf (o_output_format options) _);
    (destruct (o_output_compression options) as [c|];
     [destruct (_ && _ && _)|]);
    cbn [lookup String.eqb Ascii.eqb Bool.eqb]; repeat split.
Qed.

Lemma enumParam_oneOf (given : option string) (allowed : list string) :
  ~ In "" allowed ->
  enumParam given allowed
    (if oneOf given allowed then Some (JStr (orStr given "")) else None).
Proof.
  intros Hne v. pose proof (@oneOf_spec given allowed Hne) as S.
  destruct (oneOf given allowed).
  - destruct (proj1 S eq_refl) as (q & -> & Hin).
    assert (Hq : q <> "") by (intros ->; now apply Hne).
    rewrite (@orStr_some q "" Hq). split.
    + intros E. injection E as <-. now exists q.
    + intros (q' & E & _ & ->). now injection E as <-.
  - split; [discriminate|]. intros (q & E & Hin & _).
    assert (F : false = true) by (apply S; now exists q). discriminate.
Qed.

(** X11: in the body of the request of [generateImage] every name occurs
    once; the model is always gpt-image-1, the prompt and the count
    ([options.n], or 1) are always there, the size is "auto" or a
    supported size, and each of quality, background, moderation and
    output_format is sent exactly when the option holds a value of its
    list, as given. *)
Theorem X11_generateParams_wellFormed (prompt : string) (options : Options) :
  let params := generateParams prompt options in
  NoDup (map fst params) /\
  lookup "model" params = Some (JStr "gpt-image-1") /\
  lookup "prompt" params = Some (JStr prompt) /\
  lookup "n" params = Some (JNum (orNum (o_n options) 1)) /\
  (exists size, lookup "size" params = Some (JStr size) /\
                (size = "auto" \/ In size Params.SUPPORTED_SIZES)) /\
  enumParam (o_quality options) ["auto"; "high"; "medium"; "low"]
    (lookup "quality" params) /\
  enumParam (o_background options) ["auto"; "transparent"; "opaque"]
    (lookup "background" params) /\
  enumParam (o_moderation options) ["auto"; "low"]
    (lookup "moderation" params) /\
  enumParam (o_output_format options) ["png"; "jpeg"; "webp"]
    (lookup "output_format" params).
Proof.
  intros params.
  destruct (generateParams_optional prompt options) as (Q & B & Mo & F).
  fold params in Q, B, Mo, F.
  split; [|split; [reflexivity|split; [reflexivity|split; [reflexivity|split]]]].
  - unfold params, generateParams.
    destruct (oneOf (o_quality options) _), (oneOf (o_background options) _),
      (oneOf (o_moderation options) _), (oneOf (o_output_format options) _),
      (o_output_compression options) as [c|];
      try destruct (_ && _ && _);
      cbn [app map fst];
      repeat (constructor; [cbn [In]; intuition discriminate|]);
      constructor.
  - exists (Params.normalizeSize (o_size options)). split; [reflexivity|].
    apply normalizeSize_range.
  - rewrite Q, B, Mo, F.
    repeat split; apply enumParam_oneOf; cbn [In]; intuition discriminate.
Qed.

Lemma orStr_default_nonempty (s : option string) (d : string) :
  d <> "" -> (orStr s d =? "") = false.
Proof.
  intros H. unfold orStr. destruct s as [q|]; [|now apply nonempty_eqb].
  destruct (q =? "") eqn:E; [now apply nonempty_eqb|exact E].
Qed.

(** X12: the form of the three edit methods always starts with the eight
    text fields prompt, model, n, size, quality, background, moderation
    and output_format, in this order, the last four with the value
    given or else auto, auto, auto and png: the tests before each
    [append] never fail, and a value is forwarded whether the provider
    knows it or not.  Only output_compression may follow. *)
Theorem X12_editFields_always (prompt model : string) (options : Options) :
  exists compression,
    editFields prompt model options
      = ([("prompt", FText prompt); ("model", FText model);
          ("n", FText (numToString (orNum (o_n options) 1)));
          ("size", FText (Params.normalizeSize (o_size options)));
          ("quality", FText (orStr (o_quality options) "auto"));
          ("background", FText (orStr (o_background options) "auto"));
          ("moderation", FText (orStr (o_moderation options) "auto"));
          ("output_format", FText (orStr (o_output_format options) "png"))]
         ++ compression)%list /\
    (compression = [] \/
     compression
       = [("output_compression",
           FText (numToString (orNum (o_output_compression options) 100)))]).
Proof.
  unfold editFields.
  rewrite !orStr_default_nonempty by discriminate. cbn [negb app].
  destruct (_ && _); eexists; (split; [reflexivity|]); [now right|now left].
Qed.

End RequestTheorems.

Section ProviderErrors.
Context `{RT : Runtime}.

Lemma app_tail_neq {A} (l : list A) (x : A) : l <> (l ++ [x])%list.
Proof.
  intros E. apply (f_equal (@List.length A)) in E.
  rewrite length_app in E. simpl in E. lia.
Qed.

(** A rejected request is reported with the message built from the
    exception. *)
Lemma caught_reports
    (reconcile : string -> string -> JSValue -> M ImageGenerationResult)
    (m : M ImageGenerationResult) (message : Exn -> string) (w : World)
    (req : Request) (e : Exn) :
  sends reportsFailure reconcile m ->
  (forall saveDir fileName data, silent (reconcile saveDir fileName data)) ->
  let out := (done <- attempt m ;;
              match done with
              | inl result => ret result
              | inr e => ret (failure (message e))
              end) w in
  w_posted (snd out) = (w_posted w ++ [req])%list ->
  axiosPost req = Throw e ->
  fst out = Ok (failure (message e)).
Proof.
  intros Hm Hs out. subst out. unfold bind, attempt, ret.
  destruct (Hm w) as [(r & w' & Er & Ep & Hq)|(req' & wa & sd & fn & Ep & Er)];
    rewrite Er.
  - destruct r as [res|e']; cbn [fst snd]; intros Hp; exfalso;
      rewrite Ep in Hp; now apply app_tail_neq in Hp.
  - destruct (axiosPost req') as [data|e'] eqn:Ea.
    + destruct (reconcile sd fn data wa) as [[res|e'] w2] eqn:Erec;
        cbn [fst snd]; intros Hp Ht; exfalso;
        rewrite (silent_run _ (Hs sd fn data) Erec), Ep in Hp;
        apply app_inj_tail in Hp; destruct Hp as [_ <-]; congruence.
    + cbn [fst snd]. intros Hp Ht. rewrite Ep in Hp.
      apply app_inj_tail in Hp. destruct Hp as [_ <-]. congruence.
Qed.

(** X13: when the request a method has posted is rejected (the call
    throws), the method returns a failure whose message is built from the
    exception: the message of the [error] member of the response body of
    the provider after "GPT-Image API Error: " if there is one, else the
    message of the exception; [generateImage] adds the debug line with
    [null]. *)
Theorem X13_provider_error_reported (this : DalleService)
    (prompt imagePath : string) (imagePaths : list string)
    (options : Options) (w : World) (req : Request) (e : Exn) :
  axiosPost req = Throw e ->
  (w_posted (snd (generateImage this prompt options w))
     = (w_posted w ++ [req])%list ->
   fst (generateImage this prompt options w)
     = Ok (failure (apiErrorMessage e ++ nl ++ "DEBUG_RESPONSE_DATA: "
                    ++ jsonStringify JNull))) /\
  (w_posted (snd (editImage this prompt imagePath options w))
     = (w_posted w ++ [req])%list ->
   fst (editImage this prompt imagePath options w)
     = Ok (failure (apiErrorMessage e))) /\
  (w_posted (snd (imageToImage this imagePath prompt options w))
     = (w_posted w ++ [req])%list ->
   fst (imageToImage this imagePath prompt options w)
     = Ok (failure (apiErrorMessage e))) /\
  (w_posted (snd (editMultipleImages this prompt imagePaths options w))
     = (w_posted w ++ [req])%list ->
   fst (editMultipleImages this prompt imagePaths options w)
     = Ok (failure (apiErrorMessage e))).
Proof.
  intros Ht. split; [|split; [|split]].
  - unfold generateImage.
    match goal with |- context [attempt ?A] => set (phase1 := A) end.
    assert (H1 : sends (fun a => exists early, a = inl early /\ reportsFailure early)
                   (fun saveDir fileName data => ret (inr (saveDir, fileName, data)))
                   phase1).
    { unfold phase1.
      apply sends_bind; [apply resolveSaveDir_silent|intros saveDir].
      apply sends_bind; [apply fileNameOr_silent|intros fileName].
      apply sends_bind; [apply ensureWriteable_silent|intros checked].
      destruct checked as [u|err].
      - eapply sends_post. intros data. reflexivity.
      - apply sends_ret. eexists. split; [reflexivity|apply failure_reports]. }
    unfold bind, attempt.
    destruct (H1 w) as [(r & w' & Er & Ep & Hq)|(req' & wa & sd & fn & Ep & Er)];
      rewrite Er.
    + destruct r as [a|e'].
      * destruct (Hq a eq_refl) as (early & -> & Hf). unfold ret.
        cbn [fst snd]. intros Hp. exfalso. rewrite Ep in Hp.
        now apply app_tail_neq in Hp.
      * unfold ret. cbn [fst snd]. intros Hp. exfalso. rewrite Ep in Hp.
        now apply app_tail_neq in Hp.
    + destruct (axiosPost req') as [data|e'] eqn:Ea.
      * unfold ret. cbv beta iota.
        destruct (generateReconcile prompt sd fn (orNum (o_n options) 1)
                    (orStr (o_output_format options) "png") data wa)
          as [[res|e'] w2] eqn:Erec;
          cbn [fst snd]; intros Hp; exfalso;
          rewrite (silent_run _ (generateReconcile_silent _ _ _ _ _ _) Erec), Ep
            in Hp;
          apply app_inj_tail in Hp; destruct Hp as [_ <-]; congruence.
      * unfold ret. cbn [fst snd]. intros Hp. rewrite Ep in Hp.
        apply app_inj_tail in Hp. destruct Hp as [_ <-].
        assert (e' = e) by congruence. subst e'. reflexivity.
  - unfold editImage. intros Hp.
    eapply caught_reports with
      (reconcile := fun saveDir fileName =>
         editReconcile prompt saveDir fileName (orNum (o_n options) 1)
           (orStr (o_output_format options) "png")); try eassumption.
    + unfold postEdits. sends.
    + intros. cbv beta. apply editReconcile_silent.
  - unfold imageToImage. intros Hp.
    eapply caught_reports with
      (reconcile := fun saveDir fileName =>
         plainReconcile "gpt-image-1" prompt saveDir fileName
           (orNum (o_n options) 1) (orStr (o_output_format options) "png")
           false); try eassumption.
    + unfold postEdits. sends.
    + intros. cbv beta. apply plainReconcile_silent.
  - unfold editMultipleImages. intros Hp.
    eapply caught_reports with
      (reconcile := fun saveDir fileName =>
         plainReconcile (orStr (o_model options) "gpt-image-1") prompt
           saveDir fileName (orNum (o_n options) 1)
           (orStr (o_output_format options) "png") true); try eassumption.
    + unfold postEdits. sends.
    + intros. cbv beta. apply plainReconcile_silent.
Qed.

End ProviderErrors.

(** X13, an instance: the provider rejects the key. *)
Lemma X13_witness :
  let rejected :=
    AxiosError "Request failed with status code 401"
      (JObj [("error", JObj [("message", JStr "Incorrect API key provided")])]) in
  let RT := TestDouble.runtime "/work" (fun _ => Throw rejected) TestDouble.noWeb in
  let w := TestDouble.start (H:=RT) Scenario.workDisk in
  fst (generateImage Scenario.service "a hat" noOptions w)
    = Ok (failure ("GPT-Image API Error: Incorrect API key provided" ++ nl
                   ++ "DEBUG_RESPONSE_DATA: null")).
Proof.
  intros rejected RT w.
  destruct (@X13_provider_error_reported RT Scenario.service "a hat" "/work/in.png"
              [] noOptions w
              (generationRequest Scenario.service "a hat" noOptions)
              rejected eq_refl) as (H & _).
  apply H. vm_compute. reflexivity.
Defined.

(* ================================================================== *)
(** ** The files of the items *)

Section FileNames.
Context `{RT : Runtime}.

Lemma append_inv_head (a b c : string) : a ++ b = a ++ c -> b = c.
Proof. induction a as [|x a IH]; simpl; [tauto|]. intros E. apply IH. congruence. Qed.

Lemma length_append (a b : string) :
  String.length (a ++ b) = String.length a + String.length b.
Proof. induction a as [|x a IH]; simpl; congruence. Qed.

Lemma append_inv_tail (a b c : string) : a ++ c = b ++ c -> a = b.
Proof.
  revert b. induction a as [|x a IH]; intros [|y b] E; cbn [append] in E.
  - reflexivity.
  - apply (f_equal String.length) in E. cbn [String.length] in E.
    rewrite length_append in E. lia.
  - apply (f_equal String.length) in E. cbn [String.length] in E.
    rewrite length_append in E. lia.
  - injection E as -> E. f_equal. now apply IH.
Qed.

(** X14: the file of item [i] is named by [itemFileName] in the save
    directory.  When more than one image was asked for, the names of two
    items are equal only if the items are the same; otherwise the index
    is not part of the name and every item of the response is saved to
    the same file. *)
Theorem X14_item_file_names (saveDir fileName : string) (n : float)
    (ext : string) (i j : nat) :
  imageFilePath saveDir fileName n i ext
    = (let imagePath := join saveDir (itemFileName fileName n i ext) in
       if isAbsolute imagePath then imagePath else resolve cwd imagePath) /\
  if PrimFloat.ltb 1 n
  then itemFileName fileName n i ext = itemFileName fileName n j ext <-> i = j
  else imageFilePath saveDir fileName n i ext
       = imageFilePath saveDir fileName n j ext.
Proof.
  split; [reflexivity|]. unfold imageFilePath, itemFileName.
  destruct (PrimFloat.ltb 1 n); [|reflexivity].
  split; [|now intros ->]. intros E.
  apply append_inv_head in E. cbn [append] in E. injection E as E.
  apply append_inv_tail in E. apply ofNat_inj in E. lia.
Qed.

(** A turn of a loop that returns names the file of its index. *)
Lemma generateItem_path saveDir fileName n fmt i item w p w' :
  generateItem saveDir fileName n fmt i item w = (Ok p, w') ->
  p = imageFilePath saveDir fileName n i fmt.
Proof.
  unfold generateItem, bind at 1, lift.
  destruct (getProp item "url") as [url|e]; [|discriminate].
  destruct (truthy url).
  - unfold bind, ret.
    destruct (fetch url w) as [[buffer|e] w1]; [|discriminate].
    destruct (onFS _ w1) as [[u|e] w2]; [|discriminate].
    now intros E; injection E as <- _.
  - unfold bind at 1.
    match goal with |- context [match ?m w with _ => _ end] =>
      destruct (m w) as [[base64Data|e] w1] end; [|discriminate].
    destruct (negb (truthy base64Data)); [discriminate|].
    destruct base64Data; try discriminate.
    unfold bind, lift, ret.
    destruct (bufferFrom _) as [buffer|e]; [|discriminate].
    destruct (onFS _ w1) as [[u|e] w2]; [|discriminate].
    now intros E; injection E as <- _.
Qed.

Lemma editItem_path saveDir fileName n fmt i item w p w' :
  editItem saveDir fileName n fmt i item w = (Ok p, w') ->
  p = imageFilePath saveDir fileName n i (orStr (Some fmt) "png").
Proof.
  unfold editItem, bind at 1.
  match goal with |- context [match ?m w with _ => _ end] =>
    destruct (m w) as [[u|e] w0] end; [|discriminate].
  unfold bind at 1.
  match goal with |- context [match ?m w0 with _ => _ end] =>
    destruct (m w0) as [[buffer|e] w1] end; [|discriminate].
  unfold bind, ret.
  destruct (onFS _ w1) as [[u'|e] w2]; [|discriminate].
  now intros E; injection E as <- _.
Qed.

Lemma plainItem_path saveDir fileName n fmt i item w p w' :
  plainItem saveDir fileName n fmt i item w = (Ok p, w') ->
  p = imageFilePath saveDir fileName n i (orStr (Some fmt) "png").
Proof.
  unfold plainItem, bind, lift, ret.
  destruct (getProp item "image") as [image|e]; [|discriminate].
  destruct (bufferFrom image) as [buffer|e]; [|discriminate].
  destruct (onFS _ w) as [[u|e] w2]; [|discriminate].
  now intros E; injection E as <- _.
Qed.

Lemma saveEach_paths (body : nat -> JSValue -> M string) (f : nat -> string) :
  (forall i item w p w', body i item w = (Ok p, w') -> p = f i) ->
  forall items i acc w paths w',
    saveEach body i items acc w = (Ok paths, w') ->
    paths = (acc ++ map f (seq i (List.length items)))%list.
Proof.
  intros Hb. induction items as [|item rest IH]; intros i acc w paths w' H;
    cbn [saveEach] in H.
  - unfold ret in H. injection H as <- _. simpl. now rewrite app_nil_r.
  - unfold bind in H. destruct (body i item w) as [[p|e] w1] eqn:E;
      [|discriminate].
    apply IH in H. rewrite H, <- app_assoc. cbn [List.length seq map app].
    now rewrite (Hb _ _ _ _ _ E).
Qed.

(** X15: when the reconciliation of a response whose [data] is an array
    returns, the paths it reports are the files of the indices 0, 1, ...
    in order, one for each item. *)
Theorem X15_reported_paths_in_order (prompt saveDir fileName : string) (n : float)
    (fmt : string) (data : JSValue) (items : list JSValue) (w : World)
    (r : ImageGenerationResult) (w' : World) :
  member data "data" = JArr items ->
  (generateReconcile prompt saveDir fileName n fmt data w = (Ok r, w') ->
   imagePaths r
     = Some (map (fun i => imageFilePath saveDir fileName n i fmt)
               (seq 0 (List.length items)))) /\
  (editReconcile prompt saveDir fileName n fmt data w = (Ok r, w') ->
   imagePaths r
     = Some (map (fun i => imageFilePath saveDir fileName n i
                             (orStr (Some fmt) "png"))
               (seq 0 (List.length items)))) /\
  (forall model withUsage,
     plainReconcile model prompt saveDir fileName n fmt withUsage data w
       = (Ok r, w') ->
     imagePaths r
       = Some (map (fun i => imageFilePath saveDir fileName n i
                               (orStr (Some fmt) "png"))
                 (seq 0 (List.length items)))).
Proof.
  intros Hd. pose proof (member_array_not_nullish _ Hd) as Hn.
  split; [|split].
  - unfold generateReconcile, bind at 1. rewrite Hn, Hd. unfold ret at 1.
    cbv beta iota. destruct items as [|item rest]; [discriminate|].
    unfold bind.
    destruct (saveEach _ 0 (item :: rest) [] w) as [[paths|e] w0] eqn:E;
      [|discriminate].
    unfold ret. intros H. injection H as <- _. cbn [imagePaths]. f_equal.
    eapply saveEach_paths in E; [exact E|].
    intros. eapply generateItem_path; eassumption.
  - unfold editReconcile, bind at 1, lift, getProp. rewrite Hn, Hd.
    cbv beta iota. destruct items as [|item rest]; [discriminate|].
    unfold bind.
    destruct (saveEach _ 0 (item :: rest) [] w) as [[paths|e] w0] eqn:E;
      [|discriminate].
    unfold ret. intros H. injection H as <- _. cbn [imagePaths]. f_equal.
    eapply saveEach_paths in E; [exact E|].
    intros. eapply editItem_path; eassumption.
  - intros model withUsage.
    unfold plainReconcile, bind at 1, lift, getProp. rewrite Hn, Hd.
    cbn [plainLoop]. unfold bind.
    destruct (saveEach _ 0 items [] w) as [[paths|e] w0] eqn:E;
      [|discriminate].
    unfold ret. intros H. injection H as <- _. cbn [imagePaths]. f_equal.
    eapply saveEach_paths in E; [exact E|].
    intros. eapply plainItem_path; eassumption.
Qed.

End FileNames.

(** X15, an instance: one image was asked for and the provider returns
    two; both are saved under the same name. *)
Lemma X15_witness :
  let RT := TestDouble.runtime "/work" (Scenario.answering JNull) TestDouble.noWeb in
  let w := TestDouble.start (H:=RT) Scenario.workDisk in
  let items := [JObj [("b64_json", Scenario.abc)];
                JObj [("b64_json", Scenario.abc)]] in
  let data := JObj [("data", JArr items)] in
  let r := mkResult true None (Some ["/work/ball.png"; "/work/ball.png"])
             (Some "gpt-image-1") (Some "two balls") None in
  generateReconcile "two balls" "/work" "ball" 1 "png" data w
    = (Ok r, snd (generateReconcile "two balls" "/work" "ball" 1 "png" data w)) /\
  imagePaths r
    = Some (map (fun i => imageFilePath "/work" "ball" 1 i "png") (seq 0 2)).
Proof.
  intros RT w items data r. split; [reflexivity|].
  apply (proj1 (@X15_reported_paths_in_order RT "two balls" "/work" "ball" 1%float
                  "png" data items w r
                  (snd (generateReconcile "two balls" "/work" "ball" 1 "png"
                          data w))
                  eq_refl)).
  reflexivity.
Defined.

(* ================================================================== *)
(** ** Items saved by [generateImage] and by [editImage] *)

Section ItemAgreement.
Context `{RT : Runtime}.

(** X16: an item that the loop of [generateImage] saves is saved by the
    loop of [editImage] under the same path with the same effects (the
    output format in force is never empty). *)
Theorem X16_editItem_agrees (saveDir fileName : string) (n : float)
    (fmt : string) (i : nat) (item : JSValue) (w : World)
    (p : string) (w' : World) :
  fmt <> "" ->
  generateItem saveDir fileName n fmt i item w = (Ok p, w') ->
  editItem saveDir fileName n fmt i item w = (Ok p, w').
Proof.
  intros Hf. unfold generateItem, editItem.
  rewrite (orStr_some "png" Hf).
  unfold bind, lift, getProp, ret, throw, attempt.
  destruct (nullish item); [discriminate|].
  destruct (truthy (member item "url")).
  - destruct (fetch (member item "url") w) as [[buffer|e] w1];
      [|discriminate].
    exact (fun H => H).
  - destruct (truthy (member item "b64_json")).
    + destruct (negb (truthy (member item "b64_json"))); [discriminate|].
      destruct (member item "b64_json"); try discriminate.
      exact (fun H => H).
    + destruct (truthy (member item "image")); [|discriminate].
      destruct (negb (truthy (member item "image"))); [discriminate|].
      destruct (member item "image"); try discriminate.
      exact (fun H => H).
Qed.

End ItemAgreement.

(** X16, an instance: an item with inline data. *)
Lemma X16_witness :
  let RT := TestDouble.runtime "/work" (Scenario.answering JNull) TestDouble.noWeb in
  let w := TestDouble.start (H:=RT) Scenario.workDisk in
  let item := JObj [("b64_json", Scenario.abc)] in
  editItem "/work" "ball" 1 "png" 0 item w
    = (Ok "/work/ball.png", snd (generateItem "/work" "ball" 1 "png" 0 item w)).
Proof.
  intros RT w item.
  apply (@X16_editItem_agrees RT "/work" "ball" 1%float "png" 0 item w);
    [discriminate|reflexivity].
Defined.

(* ================================================================== *)
(** ** More about the mask *)

Section MaskMore.
Context `{RT : Runtime}.
Import SpecRequest.

Lemma shapeSvg_total (w h : float) (shape : JSValue) :
  nullish shape = false -> exists t, shapeSvg w h shape = Ok t.
Proof.
  intros Hn. unfold shapeSvg. rewrite Hn.
  destruct (negb (truthy (member shape "details"))); [eauto|].
  destruct (typeIs (member shape "type") "rectangle").
  { destruct (member (member shape "details") "x"); eauto.
    destruct (member (member shape "details") "y"); eauto.
    destruct (member (member shape "details") "width"); eauto.
    destruct (member (member shape "details") "height"); eauto. }
  destruct (typeIs (member shape "type") "circle").
  { destruct (member (member shape "details") "cx"); eauto.
    destruct (member (member shape "details") "cy"); eauto.
    destruct (member (member shape "details") "radius"); eauto. }
  destruct (typeIs (member shape "type") "polygon"); [|eauto].
  destruct (member (member shape "details") "points"); eauto.
  destruct (pointsOf items); eauto.
Qed.

Lemma shapeSvg_nullish (w h : float) (shape : JSValue) :
  nullish shape = true ->
  shapeSvg w h shape = Throw (TypeError "read details").
Proof. intros Hn. unfold shapeSvg. now rewrite Hn. Qed.

(** X17: drawing the mask throws exactly when one of the shapes is [null]
    or [undefined]; every other value, however malformed, is drawn or
    skipped. *)
Theorem X17_maskSvg_throws_iff (w h : float) (shapes : list JSValue) :
  (exists e, maskSvg w h shapes = Throw e)
  <-> Exists (fun shape => nullish shape = true) shapes.
Proof.
  assert (S : (exists e, shapesSvg w h shapes = Throw e)
              <-> Exists (fun shape => nullish shape = true) shapes).
  { induction shapes as [|shape rest IH].
    - split; [intros (e & E); discriminate|intros H; inversion H].
    - rewrite shapesSvg_cons, Exists_cons, <- IH.
      destruct (nullish shape) eqn:Hn.
      + rewrite (shapeSvg_nullish w h _ Hn). split; [now left|eauto].
      + destruct (shapeSvg_total w h _ Hn) as (t & ->).
        destruct (shapesSvg w h rest) as [y|e].
        * split; [intros (e & E); discriminate|].
          intros [F|(e & E)]; discriminate.
        * split; [intros _; right; eauto|eauto]. }
  rewrite <- S. unfold maskSvg.
  destruct (shapesSvg w h shapes) as [body|e]; split; intros (e' & E);
    try discriminate; eauto.
Qed.

(** X18: the shapes are drawn one after the other in the order given: the
    text drawn for a list followed by another is the text of the first
    followed by the text of the second, and the first exception met is the
    one thrown. *)
Theorem X18_shapesSvg_app (w h : float) (first second : list JSValue) :
  shapesSvg w h (first ++ second)
    = match shapesSvg w h first with
      | Throw e => Throw e
      | Ok x =>
          match shapesSvg w h second with
          | Throw e => Throw e
          | Ok y => Ok (x ++ y)
          end
      end.
Proof.
  induction first as [|shape rest IH]; cbn [app].
  - change (shapesSvg w h []) with (@Ok string "").
    destruct (shapesSvg w h second); reflexivity.
  - rewrite !shapesSvg_cons, IH.
    destruct (shapeSvg w h shape) as [x|e]; [|reflexivity].
    destruct (shapesSvg w h rest) as [y|e]; [|reflexivity].
    destruct (shapesSvg w h second) as [z|e]; [|reflexivity].
    now rewrite append_assoc.
Qed.


End MaskMore.


(* ================================================================== *)
(** ** The tools *)

Section ToolsMore.
Context `{RT : Runtime}.

Lemma runs_return reconcile (w : World) out :
  (forall saveDir fileName data, silent (reconcile saveDir fileName data)) ->
  postsThenReconciles reconcile w out ->
  exists res w', out = (Ok res, w') /\ postedAtMostOnce w out.
Proof.
  intros Hs Hr. pose proof (runs_posted Hs Hr) as P.
  destruct Hr as (res & w' & -> & _). now exists res, w'.
Qed.

Lemma generateImage_returns (this : DalleService) (prompt : string)
    (options : Options) (w : World) :
  exists res w', generateImage this prompt options w = (Ok res, w') /\
                 postedAtMostOnce w (generateImage this prompt options w).
Proof.
  eapply runs_return; [|apply generateImage_runs].
  intros. cbv beta. apply generateReconcile_silent.
Qed.

Lemma editImage_returns_posted (this : DalleService)
    (prompt imagePath : string) (options : Options) (w : World) :
  exists res w', editImage this prompt imagePath options w = (Ok res, w') /\
                 postedAtMostOnce w (editImage this prompt imagePath options w).
Proof.
  eapply runs_return; [|apply editImage_runs].
  intros. cbv beta. apply editReconcile_silent.
Qed.

Lemma imageToImage_returns (this : DalleService) (imagePath prompt : string)
    (options : Options) (w : World) :
  exists res w', imageToImage this imagePath prompt options w = (Ok res, w') /\
                 postedAtMostOnce w (imageToImage this imagePath prompt options w).
Proof.
  eapply runs_return; [|apply imageToImage_runs].
  intros. cbv beta. apply plainReconcile_silent.
Qed.

Lemma editMultipleImages_returns (this : DalleService) (prompt : string)
    (imagePaths : list string) (options : Options) (w : World) :
  exists res w',
    editMultipleImages this prompt imagePaths options w = (Ok res, w') /\
    postedAtMostOnce w (editMultipleImages this prompt imagePaths options w).
Proof.
  eapply runs_return; [|apply editMultipleImages_runs].
  intros. cbv beta. apply plainReconcile_silent.
Qed.

Lemma absoluteOf_string (p : JSValue) :
  if isString p then exists s, p = JStr s /\ absoluteOf p = Ok (absolute s)
  else exists operation, absoluteOf p = Throw (TypeError operation).
Proof. destruct p; cbn; eauto. Qed.

Lemma mapAbsolute_strings (items : list JSValue) :
  if forallb isString items
  then exists paths, mapAbsolute items = Ok paths
  else exists operation, mapAbsolute items = Throw (TypeError operation).
Proof.
  induction items as [|p rest IH]; cbn [forallb mapAbsolute]; [eauto|].
  pose proof (absoluteOf_string p) as Hp.
  destruct (isString p); cbn [andb].
  - destruct Hp as (s & _ & ->).
    destruct (forallb isString rest).
    + destruct IH as (paths & ->). eauto.
    + destruct IH as (operation & ->). eauto.
  - destruct Hp as (operation & ->). eauto.
Qed.

Lemma resolvedPathsOf_strings (imagePaths : JSValue) :
  if isStringArray imagePaths
  then exists paths, resolvedPathsOf imagePaths = Ok paths
  else exists operation,
         resolvedPathsOf imagePaths = Throw (TypeError operation).
Proof.
  destruct imagePaths; cbn [isStringArray resolvedPathsOf]; eauto.
  apply mapAbsolute_strings.
Qed.

(** X19: the handler of generate_image never throws.  The handler of
    image_to_image throws a [TypeError] at once, the world untouched,
    exactly when [imagePath] is not a string, and the handler of
    multi_image_edit exactly when [imagePaths] is not an array of
    strings.  Otherwise each answers with one text, which starts as its
    error report or as its report of success, and has posted at most one
    request. *)
Theorem X19_tools_answer (g : GenerateImageArgs) (i : ImageToImageArgs)
    (m : MultiImageEditArgs) (w : World) :
  answers "Error generating image: " "Successfully generated " w
    (generate_image g w) /\
  (if isString (i_imagePath i)
   then answers "Error generating image from input image: "
          "Successfully generated " w (image_to_image i w)
   else rejectsAtOnce w (image_to_image i w)) /\
  (if isStringArray (m_imagePaths m)
   then answers "Error editing multiple images: " "Successfully created " w
          (multi_image_edit m w)
   else rejectsAtOnce w (multi_image_edit m w)).
Proof.
  split; [|split].
  - unfold generate_image, answers, postedAtMostOnce, bind.
    match goal with |- context [generateImage ?a ?b ?c w] =>
      destruct (generateImage_returns a b c w) as (res & w' & E & P);
      unfold postedAtMostOnce in P; rewrite E in *
    end.
    destruct (success res); cbn [negb]; unfold ret; cbn [fst snd] in *;
      (split; [eexists; split; [reflexivity|]|exact P]);
      [right|left]; reflexivity.
  - pose proof (absoluteOf_string (i_imagePath i)) as Hp.
    unfold image_to_image, bind at 1, lift at 1.
    destruct (isString (i_imagePath i)).
    + destruct Hp as (s & _ & ->).
      unfold answers, postedAtMostOnce, bind.
      match goal with |- context [imageToImage ?a ?b ?c ?d w] =>
        destruct (imageToImage_returns a b c d w) as (res & w' & E & P);
        unfold postedAtMostOnce in P; rewrite E in *
      end.
      destruct (success res); cbn [negb]; unfold ret; cbn [fst snd] in *;
        (split; [eexists; split; [reflexivity|]|exact P]);
        [right|left]; reflexivity.
    + destruct Hp as (operation & ->). now exists operation.
  - pose proof (resolvedPathsOf_strings (m_imagePaths m)) as Hp.
    unfold multi_image_edit, bind at 1, lift at 1.
    destruct (isStringArray (m_imagePaths m)).
    + destruct Hp as (paths & ->).
      unfold answers, postedAtMostOnce, bind.
      match goal with |- context [editMultipleImages ?a ?b ?c ?d w] =>
        destruct (editMultipleImages_returns a b c d w) as (res & w' & E & P);
        unfold postedAtMostOnce in P; rewrite E in *
      end.
      destruct (success res); cbn [negb]; unfold ret; cbn [fst snd] in *;
        (split; [eexists; split; [reflexivity|]|exact P]);
        [right|left]; reflexivity.
    + destruct Hp as (operation & ->). now exists operation.
Qed.

End ToolsMore.

(** *** An empty list of shapes *)

Lemma namesMaskFile_here (p after : string) :
  namesMaskFile p (("Mask image: " ++ p ++ nl) ++ after).
Proof.
  exists "", after. cbn [append]. now rewrite !append_assoc.
Qed.

Lemma namesMaskFile_skip (p a t : string) :
  namesMaskFile p t -> namesMaskFile p (a ++ t).
Proof.
  intros (before & after & ->). exists (a ++ before), after.
  now rewrite append_assoc.
Qed.

Section EmptyShapes.
Context `{RT : Runtime}.

(** C10: when [mask] is a path and [mask_shapes] is the empty array, the
    handler does what it does when [mask_shapes] is absent.  It is not the
    error about mutually exclusive arguments.  No mask is drawn:
    [editImage] is called on the world as it is, with the path of the
    mask file made absolute, and the handler leaves the world as
    [editImage] leaves it and reports its result, naming the mask file
    after a success.  At most one request is posted, and its form holds,
    after the text fields, the image and then the mask file, each with
    the content read from the file system.  ([path.resolve] never
    returns the empty string: the hypothesis on [absolute m].) *)
Theorem C10_empty_shapes_ignored (args : EditImageArgs) (w : World)
    (m : string) :
  a_mask args = Some m -> m <> "" -> a_mask_shapes args = Some [] ->
  absolute m <> "" ->
  let imagePathAbs := absolute (a_imagePath args) in
  let options :=
    mkOptions (Some (absolute m)) None (a_size args) (a_quality args)
      (a_background args) (a_moderation args) (a_output_format args)
      (a_output_compression args) (a_n args) (a_saveDirPath args)
      (a_fileName args) in
  let fs := checkedFS options w in
  edit_image args w = edit_image (withoutShapes args) w /\
  fst (edit_image args w) <> Ok (textResponse mutuallyExclusive) /\
  (exists result t,
     editImage dalleService (a_prompt args) imagePathAbs options w
       = (Ok result, snd (edit_image args w)) /\
     fst (edit_image args w) = Ok (textResponse t) /\
     if success result
     then startsWith "Successfully edited " t = true /\
          namesMaskFile (absolute m) t
     else t = "Error editing image: " ++ orUndefined (error result)) /\
  postsAtMostOne
    (fun req =>
       exists image part,
         pngPart fs "image" imagePathAbs image /\
         pngPart fs "mask" (absolute m) part /\
         req_url req = baseUrl ++ "/images/edits" /\
         req_body req
           = FormBody (editFields (a_prompt args) "gpt-image-1" options
                       ++ [image; part])%list)
    w (edit_image args w).
Proof.
  intros Hm Hne Hs Habs imagePathAbs options fs.
  assert (E : edit_image args w
              = editAndReport args imagePathAbs (Some (absolute m)) None w).
  { unfold edit_image. rewrite Hm, Hs. cbn [orStr].
    repeat (rewrite (nonempty_eqb Hne);
            cbn [negb andb List.length Nat.ltb Nat.leb]).
    reflexivity. }
  split; [|split; [|split]].
  - rewrite E. unfold edit_image, withoutShapes.
    cbn [a_mask a_mask_shapes a_imagePath]. rewrite Hm. cbn [orStr].
    repeat (rewrite (nonempty_eqb Hne);
            cbn [negb andb List.length Nat.ltb Nat.leb]).
    reflexivity.
  - rewrite E.
    destruct (editAndReport_text args imagePathAbs (Some (absolute m)) None w)
      as (t & w' & Et & Ht).
    rewrite Et. cbn [fst]. intros F. injection F as F. subst t.
    destruct Ht as [Ht|Ht]; vm_compute in Ht; discriminate.
  - rewrite E. unfold editAndReport, bind. fold options.
    destruct (editImage_returns dalleService (a_prompt args) imagePathAbs
                options w) as (res & w' & Er).
    rewrite Er. exists res.
    destruct (success res); cbn [negb]; unfold ret; cbn [fst snd];
      eexists; (split; [reflexivity|]); (split; [reflexivity|]);
      [|reflexivity].
    split; [reflexivity|].
    cbn [orStr].
    repeat (rewrite (nonempty_eqb Habs); cbv beta iota; cbn [negb]).
    do 10 apply namesMaskFile_skip. apply namesMaskFile_here.
  - assert (P : w_posted (snd (edit_image args w))
                = w_posted (snd (editImage dalleService (a_prompt args)
                                   imagePathAbs options w))).
    { rewrite E. unfold editAndReport, bind. fold options.
      destruct (editImage dalleService (a_prompt args) imagePathAbs options w)
        as [[res|e] w']; [|reflexivity].
      destruct (negb (success res)); reflexivity. }
    destruct (editImage_posted dalleService (a_prompt args) imagePathAbs
                options w) as (l & El & Hl).
    destruct (editImage_returns_posted dalleService (a_prompt args)
                imagePathAbs options w) as (res & w' & _ & Hone).
    unfold postedAtMostOnce in Hone.
    apply posted_atMostOne; [|rewrite P; exact Hone].
    exists l. rewrite P. split; [exact El|].
    eapply Forall_impl; [|exact Hl].
    intros req (Hu & _ & _ & parts & Hb & image & Hi & Hp).
    cbn [o_mask options] in Hp. rewrite (nonempty_eqb Habs) in Hp.
    destruct Hp as (part & Hpart & ->).
    exists image, part. repeat split; assumption.
Qed.

End EmptyShapes.

(** C10, an instance: a mask file and an empty array of shapes; the
    request posted carries both files. *)
Lemma C10_witness :
  let RT := TestDouble.runtime "/work" (Scenario.answering Scenario.oneImage)
              TestDouble.noWeb in
  let w := TestDouble.start (H:=RT) Scenario.maskedDisk in
  let args := Scenario.editArgs (Some "mask.png") (Some []) in
  let options :=
    mkOptions (Some "/work/mask.png") None None None None None None None
      None None (Some "edited") in
  let fs := checkedFS options w in
  (edit_image args w = edit_image (withoutShapes args) w /\
   fst (edit_image args w) <> Ok (textResponse mutuallyExclusive) /\
   (exists result t,
      editImage dalleService "add a hat" "/work/in.png" options w
        = (Ok result, snd (edit_image args w)) /\
      fst (edit_image args w) = Ok (textResponse t) /\
      if success result
      then startsWith "Successfully edited " t = true /\
           namesMaskFile "/work/mask.png" t
      else t = "Error editing image: " ++ orUndefined (error result)) /\
   postsAtMostOne
     (fun req =>
        exists image part,
          pngPart fs "image" "/work/in.png" image /\
          pngPart fs "mask" "/work/mask.png" part /\
          req_url req = baseUrl ++ "/images/edits" /\
          req_body req
            = FormBody (editFields "add a hat" "gpt-image-1" options
                        ++ [image; part])%list)
     w (edit_image args w)) /\
  w_posted (snd (edit_image args w))
  = [mkRequest "https://api.openai.com/v1/images/edits"
       (FormBody
          [("prompt", FText "add a hat"); ("model", FText "gpt-image-1");
           ("n", FText "1"); ("size", FText "auto");
           ("quality", FText "auto"); ("background", FText "auto");
           ("moderation", FText "auto"); ("output_format", FText "png");
           ("image",
            FFile [Byte.x89; Byte.x50; Byte.x4e; Byte.x47] "in.png"
              "image/png");
           ("mask", FFile [Byte.xff; Byte.x00] "mask.png" "image/png")])
       "multipart/form-data" "Bearer sk-test"].
Proof.
  intros RT w args options fs. split.
  - apply (@C10_empty_shapes_ignored RT args w "mask.png");
      [reflexivity|discriminate|reflexivity|discriminate].
  - vm_compute. reflexivity.
Defined.

Section EditImageMore.
Context `{RT : Runtime}.

Lemma editAndReport_answers (args : EditImageArgs) (imagePathAbs : string)
    (maskPathToUse tempMaskPath : option string) (w : World) :
  answers "Error editing image: " "Successfully edited " w
    (editAndReport args imagePathAbs maskPathToUse tempMaskPath w).
Proof.
  unfold editAndReport, answers, postedAtMostOnce, bind.
  match goal with |- context [editImage ?a ?b ?c ?d w] =>
    destruct (editImage_returns_posted a b c d w) as (res & w' & E & P);
    unfold postedAtMostOnce in P; rewrite E in *
  end.
  destruct (success res); cbn [negb]; unfold ret; cbn [fst snd] in *;
    (split; [eexists; split; [reflexivity|]|exact P]);
    [right|left]; reflexivity.
Qed.

(** The branch of [edit_image] taken with shapes and no mask. *)
Lemma edit_image_shapes (args : EditImageArgs) (shape : JSValue)
    (rest : list JSValue) :
  a_mask_shapes args = Some (shape :: rest) -> orStr (a_mask args) "" = "" ->
  edit_image args
    = (let imagePathAbs := absolute (a_imagePath args) in
       dims <- tryFS (sharpMetadata imagePathAbs) ;;
       let imgWidth := orNum (fst dims) 0 in
       let imgHeight := orNum (snd dims) 0 in
       if negb (Num.truthy imgWidth) || negb (Num.truthy imgHeight)
       then throw (Error "Could not read image dimensions.")
       else
         svg <- lift (maskSvg imgWidth imgHeight (shape :: rest)) ;;
         t <- now ;;
         let tempMaskPath := join tmpdir ("mask-" ++ numToString t ++ ".png") in
         finally
           (onFS (sharpSvgToPngFile svg tempMaskPath) ;;;
            editAndReport args imagePathAbs (Some tempMaskPath)
              (Some tempMaskPath))
           (if tempMaskPath =? "" then ret tt
            else attempt (onFS (unlink tempMaskPath)) ;;; ret tt)).
Proof.
  intros Hs Hm. unfold edit_image. rewrite Hs, Hm. reflexivity.
Qed.

(** X20: with shapes and no mask, the handler of edit_image throws and
    leaves the world untouched (nothing posted, nothing written, the clock
    not read) when the image cannot be inspected, when its width or height
    is missing or zero ("Could not read image dimensions."), and when
    drawing the shapes throws. *)
Theorem X20_edit_image_fails_early (args : EditImageArgs) (w : World)
    (shape : JSValue) (rest : list JSValue) :
  a_mask_shapes args = Some (shape :: rest) -> orStr (a_mask args) "" = "" ->
  match sharpMetadata (absolute (a_imagePath args)) (w_fs w) with
  | Throw e => edit_image args w = (Throw e, w)
  | Ok (width, height) =>
      if negb (Num.truthy (orNum width 0)) || negb (Num.truthy (orNum height 0))
      then edit_image args w
           = (Throw (Error "Could not read image dimensions."), w)
      else forall e,
          maskSvg (orNum width 0) (orNum height 0) (shape :: rest) = Throw e ->
          edit_image args w = (Throw e, w)
  end.
Proof.
  intros Hs Hm. rewrite (edit_image_shapes args Hs Hm). cbv zeta.
  destruct (sharpMetadata (absolute (a_imagePath args)) (w_fs w))
    as [[width height]|e] eqn:Hd.
  - destruct (negb (Num.truthy (orNum width 0))
              || negb (Num.truthy (orNum height 0))) eqn:Hz.
    + unfold bind, tryFS. rewrite Hd. cbn [fst snd]. now rewrite Hz.
    + intros e He. unfold bind at 1, tryFS. rewrite Hd. cbn [fst snd].
      rewrite Hz. unfold bind, lift. now rewrite He.
  - unfold bind, tryFS. now rewrite Hd.
Qed.

(** X21: with shapes, no mask and a readable image, the outcome of the
    handler of edit_image is the outcome of writing the mask to the
    temporary file and editing with it, an exception included, and the
    last thing done is to unlink the temporary file. *)
Theorem X21_edit_image_removes_mask (args : EditImageArgs) (w : World)
    (shape : JSValue) (rest : list JSValue) (width height : option float)
    (svg : string) :
  a_mask_shapes args = Some (shape :: rest) -> orStr (a_mask args) "" = "" ->
  sharpMetadata (absolute (a_imagePath args)) (w_fs w) = Ok (width, height) ->
  Num.truthy (orNum width 0) = true -> Num.truthy (orNum height 0) = true ->
  maskSvg (orNum width 0) (orNum height 0) (shape :: rest) = Ok svg ->
  let tempMaskPath :=
    join tmpdir ("mask-" ++ numToString (dateNow (w_clock w)) ++ ".png") in
  tempMaskPath <> "" ->
  exists r wB,
    (onFS (sharpSvgToPngFile svg tempMaskPath) ;;;
     editAndReport args (absolute (a_imagePath args)) (Some tempMaskPath)
       (Some tempMaskPath))
      (mkWorld (w_fs w) (w_posted w) (w_fetched w) (S (w_clock w)))
    = (r, wB) /\
    edit_image args w
    = (r, setFS wB (snd (unlink tempMaskPath (w_fs wB)))).
Proof.
  intros Hs Hm Hd Hw Hh Hsvg temp Hne.
  match goal with |- context [(?m ;;; ?k) ?w1] =>
    destruct ((m ;;; k) w1) as [r wB] eqn:E end.
  exists r, wB. split; [reflexivity|].
  rewrite (edit_image_shapes args Hs Hm).
  cbv zeta. unfold bind at 1, tryFS. rewrite Hd. cbn [fst snd].
  rewrite Hw, Hh. cbn [negb orb].
  unfold bind at 1, lift. rewrite Hsvg.
  unfold bind at 1, now. fold temp. unfold finally. rewrite E.
  rewrite (nonempty_eqb Hne). unfold bind, attempt, onFS, ret, setFS.
  destruct (unlink temp (w_fs wB)) as [[u|e] fs']; reflexivity.
Qed.

(** X22: the handler of edit_image posts at most one request.  When it
    throws it has posted nothing; when it returns it answers with one
    text: the error about mutually exclusive arguments, an error report of
    the edit, or a report of success. *)
Theorem X22_edit_image_outcome (args : EditImageArgs) (w : World) :
  postedAtMostOnce w (edit_image args w) /\
  match fst (edit_image args w) with
  | Throw _ => w_posted (snd (edit_image args w)) = w_posted w
  | Ok response =>
      exists t, response = textResponse t /\
                (t = mutuallyExclusive \/
                 startsWith "Error editing image: " t = true \/
                 startsWith "Successfully edited " t = true)
  end.
Proof.
  assert (R : forall imagePathAbs maskPathToUse tempMaskPath w0,
             postedAtMostOnce w0
               (editAndReport args imagePathAbs maskPathToUse tempMaskPath w0) /\
             match fst (editAndReport args imagePathAbs maskPathToUse
                          tempMaskPath w0) with
             | Throw _ => False
             | Ok response =>
                 exists t, response = textResponse t /\
                   (t = mutuallyExclusive \/
                    startsWith "Error editing image: " t = true \/
                    startsWith "Successfully edited " t = true)
             end).
  { intros p m t w0.
    destruct (editAndReport_answers args p m t w0) as ((x & E & Hx) & P).
    split; [exact P|]. rewrite E. exists x. split; [reflexivity|]. tauto. }
  enough (G : forall out, edit_image args w = out ->
              postedAtMostOnce w out /\
              match fst out with
              | Throw _ => w_posted (snd out) = w_posted w
              | Ok response =>
                  exists t, response = textResponse t /\
                    (t = mutuallyExclusive \/
                     startsWith "Error editing image: " t = true \/
                     startsWith "Successfully edited " t = true)
              end) by (now apply G).
  assert (Q : forall out : Outcome ToolResponse * World,
             postedAtMostOnce w out ->
             match fst out with
             | Throw _ => False
             | Ok response =>
                 exists t, response = textResponse t /\
                   (t = mutuallyExclusive \/
                    startsWith "Error editing image: " t = true \/
                    startsWith "Successfully edited " t = true)
             end ->
             postedAtMostOnce w out /\
             match fst out with
             | Throw _ => w_posted (snd out) = w_posted w
             | Ok response =>
                 exists t, response = textResponse t /\
                   (t = mutuallyExclusive \/
                    startsWith "Error editing image: " t = true \/
                    startsWith "Successfully edited " t = true)
             end).
  { intros out P T. split; [exact P|]. destruct (fst out); [exact T|destruct T]. }
  unfold edit_image.
  destruct (negb (orStr (a_mask args) "" =? "")
            && Nat.ltb 0 (List.length
                 match a_mask_shapes args with Some l => l | None => [] end)).
  { intros out <-. split; [now left|]. cbn [fst ret].
    exists mutuallyExclusive. split; [reflexivity|now left]. }
  destruct (Nat.ltb 0 (List.length
              match a_mask_shapes args with Some l => l | None => [] end)).
  2: { destruct (negb (orStr (a_mask args) "" =? "")); intros out <-;
         apply Q; apply R. }
  unfold bind at 1, tryFS.
  destruct (sharpMetadata (absolute (a_imagePath args)) (w_fs w))
    as [[width height]|e]; [|intros out <-; split; [now left|reflexivity]].
  cbn [fst snd].
  destruct (negb _ || negb _); [intros out <-; split; [now left|reflexivity]|].
  unfold bind at 1, lift.
  destruct (maskSvg _ _ _) as [svg|e];
    [|intros out <-; split; [now left|reflexivity]].
  unfold bind at 1, now.
  set (temp := join tmpdir _).
  set (w1 := mkWorld (w_fs w) (w_posted w) (w_fetched w) (S (w_clock w))).
  assert (F : forall wB,
             w_posted (snd ((if temp =? ""
                             then ret tt
                             else attempt (onFS (unlink temp)) ;;; ret tt) wB))
             = w_posted wB).
  { intros wB. destruct (temp =? ""); [reflexivity|].
    unfold bind, attempt, onFS, ret.
    destruct (unlink temp (w_fs wB)) as [[u|e] fs']; reflexivity. }
  unfold finally, bind at 1, onFS at 1.
  destruct (sharpSvgToPngFile svg temp (w_fs w1)) as [[u|e] fs1].
  - set (w2 := mkWorld fs1 (w_posted w1) (w_fetched w1) (w_clock w1)).
    destruct (R (absolute (a_imagePath args)) (Some temp) (Some temp) w2)
      as [P T].
    destruct (editAndReport args (absolute (a_imagePath args)) (Some temp)
                (Some temp) w2) as [r wB].
    intros out <-. apply Q.
    + unfold postedAtMostOnce in *. cbn [fst snd] in *. now rewrite F.
    + exact T.
  - intros out <-. unfold postedAtMostOnce. cbn [fst snd]. rewrite F.
    split; [now left|reflexivity].
Qed.

End EditImageMore.

(** X20, an instance: the image to edit does not exist. *)
Lemma X20_witness :
  let RT := TestDouble.runtime "/work" (Scenario.answering JNull) TestDouble.noWeb in
  let w := TestDouble.start (H:=RT) Scenario.workDisk in
  let args := mkEditArgs "add a hat" "no.png" None
                (Some [Scenario.fullRectangle]) None None None None None None
                None None None in
  edit_image args w = (Throw (Error "Input file is missing"), w).
Proof.
  intros RT w args.
  exact (@X20_edit_image_fails_early RT args w Scenario.fullRectangle []
           eq_refl eq_refl).
Defined.

(** X21, an instance: after an edit with one rectangle the temporary mask
    is gone. *)
Lemma X21_witness :
  let RT := TestDouble.runtime "/work" (Scenario.answering Scenario.oneImage)
              TestDouble.noWeb in
  let w := TestDouble.start (H:=RT) Scenario.workDisk in
  let args := Scenario.editArgs None (Some [Scenario.fullRectangle]) in
  (exists r wB,
     edit_image args w
       = (r, setFS wB (snd (unlink "/tmp/mask-1700000000000.png" (w_fs wB))))) /\
  TestDouble.fileAt "/tmp/mask-1700000000000.png"
    (TestDouble.files (w_fs (snd (edit_image args w)))) = None /\
  w_posted (snd (edit_image args w)) <> [].
Proof.
  intros RT w args. split; [|split].
  - edestruct (@X21_edit_image_removes_mask RT args w Scenario.fullRectangle []
                 (Some 64%float) (Some 48%float))
      as (r & wB & _ & E);
      [reflexivity|reflexivity|reflexivity|reflexivity|reflexivity|reflexivity
      |vm_compute; discriminate|].
    exists r, wB. exact E.
  - vm_compute. reflexivity.
  - vm_compute. discriminate.
Defined.

(* ================================================================== *)
(** ** The key and its validation *)

Section KeyFacts.
Context `{RT : Runtime}.

(** The key of the service the tools share. *)
Lemma apiKey_dalleService : apiKey dalleService = orStr env_OPENAI_API_KEY "".
Proof.
  unfold dalleService, newDalleService. cbn [apiKey].
  destruct env_OPENAI_API_KEY as [k|]; [|reflexivity].
  cbn [orStr]. destruct (k =? "") eqn:E; cbn [orStr String.eqb].
  - reflexivity.
  - now rewrite E.
Qed.

(** X23: the handler of validate_api_key never throws; it answers that
    the key is valid exactly when the GET of the models endpoint,
    authorised with the key of the environment (or the empty key),
    succeeds; it posts nothing and leaves the file system alone. *)
Theorem X23_validate_api_key_reports
    (axiosGetAuthorized : string -> string -> Outcome JSValue) (w : World) :
  exists w',
    validate_api_key axiosGetAuthorized w
    = (Ok (textResponse
             match axiosGetAuthorized (baseUrl ++ "/models")
                     ("Bearer " ++ orStr env_OPENAI_API_KEY "") with
             | Ok _ => "API key is valid."
             | Throw _ =>
                 "API key is invalid or there was an error validating it."
             end), w') /\
    w_posted w' = w_posted w /\ w_fs w' = w_fs w.
Proof.
  unfold validate_api_key, validateApiKey, bind, attempt, getAuthorized, ret.
  rewrite apiKey_dalleService.
  destruct (axiosGetAuthorized _ _); eexists; repeat split.
Qed.

End KeyFacts.

(* ================================================================== *)
(** ** The handler of tool calls *)

Section ServerFacts.
Context `{RT : Runtime}.
Variable methodNotFound : string -> string.

Lemma filter_none {A} (f : A -> bool) (l : list A) :
  (forall x, In x l -> f x = false) -> filter f l = [].
Proof.
  induction l as [|x l IH]; intros H; [reflexivity|]. cbn [filter].
  rewrite (H x (or_introl eq_refl)). apply IH. intros y Hy. apply H. now right.
Qed.

(** X24: the handler of tool calls always returns a response.  When the
    tool is known, no required argument is missing and the handler of the
    tool throws, the response is the message of the exception, without
    [_meta]. *)
Theorem X24_callTool_never_throws (tools : list Tool) (params : CallToolParams)
    (w : World) :
  (exists result w', callTool methodNotFound tools params w = (Ok result, w'))
  /\
  forall tool e w',
    let args := match p_arguments params with Some a => a | None => [] end in
    find (fun t => t_name t =? p_name params) tools = Some tool ->
    (forall arg, In arg (t_required tool) -> hasProperty arg args = true) ->
    existsb (String.eqb (t_name tool)) dispatched = true ->
    t_handler tool (if t_name tool =? "validate_api_key" then [] else args) w
    = (Throw e, w') ->
    callTool methodNotFound tools params w
    = (Ok (mkCallResult (textResponse (messageOf e)) None), w').
Proof.
  split.
  - unfold callTool, bind at 1, attempt at 1.
    match goal with |- context [match ?m w with _ => _ end] =>
      destruct (m w) as [[r|e] w'] end; unfold ret; eauto.
  - intros tool e w' args Hf Hr Hd Hh. unfold callTool. fold args.
    rewrite Hf.
    rewrite (@filter_none _ (fun arg => negb (hasProperty arg args))
               (t_required tool))
      by (intros arg Ha; now rewrite (Hr arg Ha)).
    cbn [List.length Nat.ltb Nat.leb]. rewrite andb_false_r.
    rewrite Hd. unfold bind, attempt.
    destruct (t_name tool =? "validate_api_key"); now rewrite Hh.
Qed.

(** X25: a call of an unknown tool is answered "Unknown tool" with its
    name; a call that lacks a required argument is answered "Missing
    required arguments" with the required names the arguments do not
    have, each as often and in the order the schema lists it, joined by
    ", ".  In both cases no handler is run: the world is as before. *)
Theorem X25_callTool_rejects (tools : list Tool) (params : CallToolParams)
    (w : World) :
  let args := match p_arguments params with Some a => a | None => [] end in
  match find (fun t => t_name t =? p_name params) tools with
  | None =>
      callTool methodNotFound tools params w
      = (Ok (mkCallResult (textResponse ("Unknown tool: " ++ p_name params))
               None), w)
  | Some tool =>
      forall arg,
        In arg (t_required tool) -> hasProperty arg args = false ->
        callTool methodNotFound tools params w
        = (Ok (mkCallResult
                 (textResponse
                    ("Missing required arguments: "
                     ++ String.concat ", "
                          (filter (fun a => negb (hasProperty a args))
                             (t_required tool)))) None), w)
  end.
Proof.
  intros args. unfold callTool. fold args.
  destruct (find _ tools) as [tool|]; [|reflexivity].
  intros arg Hin Hp.
  set (missingArgs := filter (fun a => negb (hasProperty a args))
                        (t_required tool)).
  assert (I : In arg missingArgs).
  { unfold missingArgs. rewrite filter_In, negb_true_iff. tauto. }
  assert (L1 : Nat.ltb 0 (List.length (t_required tool)) = true).
  { destruct (t_required tool); [destruct Hin|reflexivity]. }
  assert (L2 : Nat.ltb 0 (List.length missingArgs) = true).
  { destruct missingArgs; [destruct I|reflexivity]. }
  rewrite L1, L2. reflexivity.
Qed.

End ServerFacts.

(** X24, an instance: the handler of edit_image throws because the image
    is missing, and the call is answered with the message. *)
Lemma X24_witness :
  let RT := TestDouble.runtime "/work" (Scenario.answering JNull) TestDouble.noWeb in
  let w := TestDouble.start (H:=RT) Scenario.workDisk in
  let args := mkEditArgs "add a hat" "no.png" None
                (Some [Scenario.fullRectangle]) None None None None None None
                None None None in
  let tool := mkTool "edit_image" ["prompt"; "imagePath"]
                (fun _ => edit_image args) in
  let params := mkParams "edit_image"
                  (Some [("prompt", JStr "add a hat");
                         ("imagePath", JStr "no.png");
                         ("mask_shapes", JArr [Scenario.fullRectangle])])
                  JUndefined in
  callTool (fun text => "MCP error -32601: " ++ text) [tool] params w
    = (Ok (mkCallResult (textResponse "Input file is missing") None), w).
Proof.
  intros RT w args tool params.
  apply (proj2 (@X24_callTool_never_throws RT
                  (fun text => "MCP error -32601: " ++ text) [tool] params w)
           tool (Error "Input file is missing") w);
    try reflexivity.
  intros arg [<-|[<-|[]]]; reflexivity.
Defined.

(** X25, an instance: multi_image_edit called without arguments, and
    image_to_image called with a prompt only. *)
Lemma X25_witness :
  let RT := TestDouble.runtime "/work" (Scenario.answering JNull) TestDouble.noWeb in
  let w := TestDouble.start (H:=RT) Scenario.workDisk in
  let tools := toolsWith (fun _ _ => ret (textResponse "done")) in
  callTool (fun text => "MCP error -32601: " ++ text) tools
    (mkParams "multi_image_edit" None JUndefined) w
  = (Ok (mkCallResult
           (textResponse "Missing required arguments: prompt, imagePaths")
           None), w)
  /\
  callTool (fun text => "MCP error -32601: " ++ text) tools
    (mkParams "image_to_image" (Some [("prompt", JStr "a hat")]) JUndefined) w
  = (Ok (mkCallResult
           (textResponse "Missing required arguments: imagePath") None), w).
Proof.
  intros RT w tools. split.
  - exact (@X25_callTool_rejects RT (fun text => "MCP error -32601: " ++ text)
             tools (mkParams "multi_image_edit" None JUndefined) w
             "imagePaths" (or_intror (or_introl eq_refl)) eq_refl).
  - exact (@X25_callTool_rejects RT (fun text => "MCP error -32601: " ++ text)
             tools
             (mkParams "image_to_image" (Some [("prompt", JStr "a hat")])
                JUndefined) w
             "imagePath" (or_introl eq_refl) eq_refl).
Defined.

Section ServerTools.
Context `{RT : Runtime}.

(** X26: for the tools of [src/tools/index.ts], whatever their handlers
    do, the [default] case of the [switch] is never taken: the outcome of
    a call does not depend on the message of [McpError]; and
    create_variation, which the [switch] has a case for, is answered as
    an unknown tool. *)
Theorem X26_callTool_switch_covers_tools
    (handlers : string -> list (string * JSValue) -> M ToolResponse)
    (methodNotFound methodNotFound' : string -> string)
    (params : CallToolParams) (w : World) :
  callTool methodNotFound (toolsWith handlers) params w
    = callTool methodNotFound' (toolsWith handlers) params w /\
  (p_name params = "create_variation" ->
   callTool methodNotFound (toolsWith handlers) params w
   = (Ok (mkCallResult (textResponse "Unknown tool: create_variation") None),
      w)).
Proof.
  split.
  - unfold callTool, toolsWith, toolSchemas.
    cbn [map find fst snd t_name].
    repeat (destruct (_ =? p_name params); [reflexivity|]).
    reflexivity.
  - intros E. unfold callTool. rewrite E. reflexivity.
Qed.

End ServerTools.

(* ================================================================== *)
(** ** Token usage *)

Section UsageFacts.
Context `{RT : Runtime}.

Lemma failure_is_failure (message : string) :
  exists m, failure message = failure m.
Proof. now exists message. Qed.

(** X27: the result of [imageToImage] never carries token usage, also when
    the provider reports it. *)
Theorem X27_imageToImage_reports_no_usage (this : DalleService)
    (imagePath prompt : string) (options : Options) (w : World) :
  exists res,
    fst (imageToImage this imagePath prompt options w) = Ok res /\
    usage res = None.
Proof.
  unfold imageToImage.
  match goal with |- context [attempt ?A] => set (m := A) end.
  assert (S : sends (fun r => exists msg, r = failure msg)
                (fun saveDir fileName =>
                   plainReconcile "gpt-image-1" prompt saveDir fileName
                     (orNum (o_n options) 1)
                     (orStr (o_output_format options) "png") false) m).
  { unfold m, postEdits.
    apply sends_bind; [apply resolveSaveDir_silent|intros saveDir].
    apply sends_bind; [apply fileNameOr_silent|intros fileName].
    apply sends_bind; [apply ensureWriteable_silent|intros checked].
    destruct checked as [u|err];
      [|apply sends_ret; apply failure_is_failure].
    apply sends_bind; [apply silent_readFS|intros imageExists].
    destruct (negb imageExists); [apply sends_ret; apply failure_is_failure|].
    apply sends_bind; [apply fileField_silent|intros image].
    eapply sends_post. intros data. cbv beta. reflexivity. }
  unfold bind, attempt, ret.
  destruct (S w) as [(r & w' & Er & _ & Hq)|(req & wa & sd & fn & _ & Er)];
    rewrite Er.
  - destruct r as [res|e]; cbn [fst]; eexists; (split; [reflexivity|]).
    + destruct (Hq res eq_refl) as (msg & ->). reflexivity.
    + reflexivity.
  - destruct (axiosPost req) as [data|e].
    + unfold plainReconcile, bind, lift, ret.
      destruct (getProp data "data") as [items|e]; cbn [fst];
        [|eexists; split; reflexivity].
      destruct (plainLoop _ items wa) as [[paths|e] w2]; cbn [fst];
        eexists; split; reflexivity.
    + cbn [fst]. eexists. split; reflexivity.
Qed.

End UsageFacts.

(* ================================================================== *)
(** ** The shape of the results *)

Ltac sends_failure :=
  repeat first
    [ eapply sends_post; intros ?; cbv beta; reflexivity
    | apply sends_throw
    | apply sends_ret; apply failure_is_failure
    | apply sends_bind;
      [ first [ apply resolveSaveDir_silent | apply fileNameOr_silent
              | apply ensureWriteable_silent | apply fileField_silent
              | apply firstMissing_silent | apply fileFields_silent
              | solve [silent] ]
      | intros ? ]
    | match goal with
      | |- sends _ _ (if ?b then _ else _) => destruct b
      | |- sends _ _ (match ?x with _ => _ end) => destruct x
      end ].

Section ResultShape.
Context `{RT : Runtime}.

Lemma failure_wellShaped (asked message : string) :
  wellShaped asked (failure message).
Proof. now exists message. Qed.

Lemma generateReconcile_shape prompt saveDir fileName n fmt data w r w' :
  generateReconcile prompt saveDir fileName n fmt data w = (Ok r, w') ->
  wellShaped prompt r.
Proof.
  unfold generateReconcile, bind at 1.
  destruct (nullish data); [discriminate|]. unfold ret at 1. cbv beta iota.
  destruct (member data "data") as [| | | | |[|item rest]|]; try discriminate.
  unfold bind.
  destruct (saveEach _ 0 (item :: rest) [] w) as [[paths|e] w1];
    [|discriminate].
  intros H. injection H as <- _. unfold wellShaped. cbn.
  repeat split; eauto.
Qed.

Lemma editReconcile_shape prompt saveDir fileName n fmt data w r w' :
  editReconcile prompt saveDir fileName n fmt data w = (Ok r, w') ->
  wellShaped prompt r.
Proof.
  unfold editReconcile, bind at 1, lift, getProp.
  destruct (nullish data); [discriminate|]. cbv beta iota.
  destruct (member data "data") as [| | | | |[|item rest]|]; try discriminate.
  unfold bind.
  destruct (saveEach _ 0 (item :: rest) [] w) as [[paths|e] w1];
    [|discriminate].
  intros H. injection H as <- _. unfold wellShaped. cbn.
  repeat split; eauto.
Qed.

Lemma plainReconcile_shape model prompt saveDir fileName n fmt u data w r w' :
  plainReconcile model prompt saveDir fileName n fmt u data w = (Ok r, w') ->
  wellShaped prompt r.
Proof.
  unfold plainReconcile, bind, lift, getProp.
  destruct (nullish data); [discriminate|].
  destruct (plainLoop _ (member data "data") w) as [[paths|e] w1];
    [|discriminate].
  intros H. injection H as <- _. unfold wellShaped. cbn.
  repeat split; eauto.
Qed.

(** The [try { ... } catch] around a method whose early returns are
    failures. *)
Lemma caught_shape
    (reconcile : string -> string -> JSValue -> M ImageGenerationResult)
    (m : M ImageGenerationResult) (message : Exn -> string) (asked : string)
    (w : World) :
  sends (fun r => exists msg, r = failure msg) reconcile m ->
  (forall saveDir fileName data w0 r w',
     reconcile saveDir fileName data w0 = (Ok r, w') -> wellShaped asked r) ->
  exists res,
    fst ((done <- attempt m ;;
          match done with
          | inl result => ret result
          | inr e => ret (failure (message e))
          end) w) = Ok res /\
    wellShaped asked res.
Proof.
  intros Hm Hr. unfold bind, attempt, ret.
  destruct (Hm w) as [(r & w' & Er & _ & Hq)|(req & wa & sd & fn & _ & Er)];
    rewrite Er.
  - destruct r as [res|e]; cbn [fst]; eexists; (split; [reflexivity|]).
    + destruct (Hq res eq_refl) as (msg & ->). apply failure_wellShaped.
    + apply failure_wellShaped.
  - destruct (axiosPost req) as [data|e].
    + destruct (reconcile sd fn data wa) as [[res|e] w2] eqn:Erec; cbn [fst];
        eexists; (split; [reflexivity|]).
      * eapply Hr; eassumption.
      * apply failure_wellShaped.
    + cbn [fst]. eexists. split; [reflexivity|apply failure_wellShaped].
Qed.

(** X28: every call of the four methods returns a result, and the
    result is a success without an error, with the prompt it was asked
    with, its paths and the name of a model, or it is a failure, which
    carries an error message and nothing else. *)
Theorem X28_results_wellShaped (this : DalleService)
    (prompt imagePath : string) (imagePaths : list string)
    (options : Options) (w : World) :
  Forall (fun out : Outcome ImageGenerationResult * World =>
            exists res, fst out = Ok res /\ wellShaped prompt res)
    [generateImage this prompt options w;
     editImage this prompt imagePath options w;
     imageToImage this imagePath prompt options w;
     editMultipleImages this prompt imagePaths options w].
Proof.
  repeat apply Forall_cons; [| | | |apply Forall_nil].
  - unfold generateImage.
    match goal with |- context [attempt ?A] => set (phase1 := A) end.
    assert (H1 : sends (fun a => exists msg, a = inl (failure msg))
                   (fun saveDir fileName data => ret (inr (saveDir, fileName, data)))
                   phase1).
    { unfold phase1.
      apply sends_bind; [apply resolveSaveDir_silent|intros saveDir].
      apply sends_bind; [apply fileNameOr_silent|intros fileName].
      apply sends_bind; [apply ensureWriteable_silent|intros checked].
      destruct checked as [u|err].
      - eapply sends_post. intros data. reflexivity.
      - apply sends_ret. eexists. reflexivity. }
    unfold bind, attempt.
    destruct (H1 w) as [(r & w' & Er & _ & Hq)|(req & wa & sd & fn & _ & Er)];
      rewrite Er.
    + destruct r as [a|e].
      * destruct (Hq a eq_refl) as (msg & ->). unfold ret. cbn [fst].
        eexists. split; [reflexivity|apply failure_wellShaped].
      * unfold ret. cbn [fst].
        eexists. split; [reflexivity|apply failure_wellShaped].
    + destruct (axiosPost req) as [data|e].
      * unfold ret. cbv beta iota.
        destruct (generateReconcile prompt sd fn (orNum (o_n options) 1)
                    (orStr (o_output_format options) "png") data wa)
          as [[res|e] w2] eqn:Erec; cbn [fst];
          eexists; (split; [reflexivity|]).
        -- eapply generateReconcile_shape; eassumption.
        -- apply failure_wellShaped.
      * unfold ret. cbn [fst].
        eexists. split; [reflexivity|apply failure_wellShaped].
  - unfold editImage.
    apply caught_shape with
      (reconcile := fun saveDir fileName =>
         editReconcile prompt saveDir fileName (orNum (o_n options) 1)
           (orStr (o_output_format options) "png")).
    + unfold postEdits. sends_failure.
    + cbv beta. intros. eapply editReconcile_shape; eassumption.
  - unfold imageToImage.
    apply caught_shape with
      (reconcile := fun saveDir fileName =>
         plainReconcile "gpt-image-1" prompt saveDir fileName
           (orNum (o_n options) 1) (orStr (o_output_format options) "png")
           false).
    + unfold postEdits. sends_failure.
    + cbv beta. intros. eapply plainReconcile_shape; eassumption.
  - unfold editMultipleImages.
    apply caught_shape with
      (reconcile := fun saveDir fileName =>
         plainReconcile (orStr (o_model options) "gpt-image-1") prompt
           saveDir fileName (orNum (o_n options) 1)
           (orStr (o_output_format options) "png") true).
    + unfold postEdits. sends_failure.
    + cbv beta. intros. eapply plainReconcile_shape; eassumption.
Qed.

End ResultShape.
